(** * BafangPro POS normalisation pipeline: merge/validate, cache, audit,
      candidate scoring and receipt parser, embedded from
      [python_pos_module/src/pos_norm]. *)

From Stdlib Require Import ZArith NArith QArith Bool Lia Permutation Sorted.
From Stdlib Require Import Ascii String DecimalString.
From Stdlib Require Import Floats.SpecFloat.
From stdpp Require Import base option list gmap lexico orders sorting.

Set Default Proof Using "Type".
Local Open Scope Z_scope.

(** ** Python values *)

(** A Python [str] is its sequence of Unicode code points. *)
Definition pystr := list N.

(** ASCII literals of the source text. *)
Definition lit (a : string) : pystr :=
  map N_of_ascii (list_ascii_of_string a).

(** [str(n)] for an [int]. *)
Definition str_of_int (z : Z) : pystr :=
  lit (NilZero.string_of_int (Z.to_int z)).

(** [str.isspace] on one code point (the table of [Py_UNICODE_ISSPACE]);
    the same table backs [str.strip()] and the regular expression class
    [\s] on [str] patterns. *)
Definition isspace (c : N) : bool :=
  ((9 <=? c) && (c <=? 13) || (28 <=? c) && (c <=? 32)
   || (c =? 133) || (c =? 160) || (c =? 5760)
   || (8192 <=? c) && (c <=? 8202)
   || (c =? 8232) || (c =? 8233) || (c =? 8239) || (c =? 8287)
   || (c =? 12288))%N.

Fixpoint lstrip (s : pystr) : pystr :=
  match s with
  | c :: t => if isspace c then lstrip t else s
  | [] => []
  end.

Definition rstrip (s : pystr) : pystr := rev (lstrip (rev s)).

(** [s.strip()] *)
Definition strip (s : pystr) : pystr := rstrip (lstrip s).

(** [not s.strip()] *)
Definition blank (s : pystr) : bool :=
  match strip s with [] => true | _ => false end.

Definition nonempty (s : pystr) : bool :=
  match s with [] => false | _ => true end.

(** [needle in hay] on [str]. *)
Fixpoint starts_with (needle hay : pystr) : bool :=
  match needle, hay with
  | [], _ => true
  | _ :: _, [] => false
  | a :: needle', b :: hay' => (a =? b)%N && starts_with needle' hay'
  end.

Fixpoint contains (needle hay : pystr) : bool :=
  starts_with needle hay
  || match hay with
     | [] => false
     | _ :: hay' => contains needle hay'
     end.

(** [re.sub(r"\s+", " ", text)]: every maximal run of white space becomes
    one space ([in_run] tells that the previous character was white
    space). *)
Fixpoint sub_multi_space (in_run : bool) (text : pystr) : pystr :=
  match text with
  | [] => []
  | c :: rest =>
      if isspace c then
        if in_run then sub_multi_space true rest
        else 32%N :: sub_multi_space true rest
      else c :: sub_multi_space false rest
  end.

(** ** Python floats *)

(** A Python [float] is an IEEE 754 binary64 number: a signed zero, a
    signed infinity, NaN, or a finite number with sign, mantissa and
    exponent.  The numbers of Python are those [valid_binary 53 1024]
    accepts. *)
Definition pyfloat : Type := spec_float.

Module PyFloat.

Definition prec : Z := 53.
Definition emax : Z := 1024.

Definition zero : pyfloat := S754_zero false.

(** The float nearest to the integer [z], ties to even; infinite when [z]
    is beyond the range of [float]. *)
Definition of_Z (z : Z) : pyfloat := binary_normalize prec emax z 0 false.

(** [a + b], [a * b] and [a / b], rounded to nearest, ties to even. *)
Definition add : pyfloat -> pyfloat -> pyfloat := SFadd prec emax.
Definition mul : pyfloat -> pyfloat -> pyfloat := SFmul prec emax.
Definition div : pyfloat -> pyfloat -> pyfloat := SFdiv prec emax.

(** [- a] *)
Definition opp : pyfloat -> pyfloat := SFopp.

(** [a < b], [a <= b] and [a == b]: each is false when a side is NaN. *)
Definition ltb : pyfloat -> pyfloat -> bool := SFltb.
Definition leb : pyfloat -> pyfloat -> bool := SFleb.
Definition eqb : pyfloat -> pyfloat -> bool := SFeqb.

(** The literal that writes the fraction [n / d] in decimal, for [n] and
    [d] below 2^53: the float nearest to the fraction. *)
Definition decimal (n d : Z) : pyfloat := div (of_Z n) (of_Z d).

Definition is_nan (x : pyfloat) : bool :=
  match x with S754_nan => true | _ => false end.

Definition is_inf (x : pyfloat) : bool :=
  match x with S754_infinity _ => true | _ => false end.

(** [int(x)] for a finite [x]: the integer part. *)
Definition to_Z (x : pyfloat) : Z :=
  match x with
  | S754_finite s m e => cond_Zopp s (Z.shiftl (Z.pos m) e)
  | _ => 0
  end.

(** The place of a number in the order of the floats: the class of its
    sign, then its exponent, then its mantissa, compared in that order. *)
Definition key (x : pyfloat) : Z * Z * Z :=
  match x with
  | S754_nan | S754_zero _ => (0, 0, 0)
  | S754_infinity s => (if s then -2 else 2, 0, 0)
  | S754_finite s m e => if s then (-1, - e, Z.neg m) else (1, e, Z.pos m)
  end.

Definition key_lt (k k' : Z * Z * Z) : Prop :=
  fst (fst k) < fst (fst k')
  \/ fst (fst k) = fst (fst k')
     /\ (snd (fst k) < snd (fst k')
         \/ snd (fst k) = snd (fst k') /\ snd k < snd k').

End PyFloat.

(** Dynamically typed values ([Any]).  A mapping is its list of items in
    insertion order, keys being [str]; an object read through [getattr] is
    the mapping of its attributes. *)
#[local] Unset Elimination Schemes.
Inductive pyval : Type :=
| VNone
| VBool (b : bool)
| VInt (z : Z)
| VFloat (x : pyfloat)
| VStr (s : pystr)
| VList (l : list pyval)
| VTuple (l : list pyval)
| VSet (l : list pyval)
| VDict (d : list (pystr * pyval)).
#[local] Set Elimination Schemes.

Definition pydict := list (pystr * pyval).

(** [d.get(key)] *)
Fixpoint dict_get (d : pydict) (key : pystr) : option pyval :=
  match d with
  | [] => None
  | (k, v) :: rest => if bool_decide (k = key) then Some v else dict_get rest key
  end.

(** [d[key] = v]: replaces in place, or appends a new item. *)
Fixpoint dict_set (d : pydict) (key : pystr) (v : pyval) : pydict :=
  match d with
  | [] => [(key, v)]
  | (k, w) :: rest =>
      if bool_decide (k = key) then (k, v) :: rest
      else (k, w) :: dict_set rest key v
  end.

(** [d.update(other)] *)
Definition dict_update (d other : pydict) : pydict :=
  fold_left (fun acc kv => dict_set acc (fst kv) (snd kv)) other d.

(** [d.setdefault(key, v)] *)
Definition dict_setdefault (d : pydict) (key : pystr) (v : pyval) : pydict :=
  match dict_get d key with
  | Some _ => d
  | None => d ++ [(key, v)]
  end.

Definition dict_keys (d : pydict) : list pystr := map fst d.

(** [bool(v)] *)
Definition truthy (v : pyval) : bool :=
  match v with
  | VNone => false
  | VBool b => b
  | VInt z => negb (z =? 0)
  | VFloat x => negb (PyFloat.eqb x PyFloat.zero)
  | VStr s => nonempty s
  | VList l | VTuple l | VSet l => match l with [] => false | _ => true end
  | VDict d => match d with [] => false | _ => true end
  end.

(** [isinstance(v, int)]: [bool] is a subclass of [int], and [True] and
    [False] hash and compare as [1] and [0]. *)
Definition as_int (v : pyval) : option Z :=
  match v with
  | VInt z => Some z
  | VBool b => Some (if b then 1 else 0)
  | _ => None
  end.

Definition is_bool (v : pyval) : bool :=
  match v with VBool _ => true | _ => false end.

(** [isinstance(v, str) and v.strip()] *)
Definition nonblank_str (v : pyval) : option pystr :=
  match v with
  | VStr s => if blank s then None else Some s
  | _ => None
  end.

(** Strict and large comparisons of rationals as booleans, for the clock
    readings of the cache. *)
Definition Qltb (x y : Q) : bool :=
  match Qcompare x y with Lt => true | _ => false end.
Definition Qleb (x y : Q) : bool :=
  match Qcompare x y with Gt => false | _ => true end.


(** [a < b] on [str]: code points compared lexicographically. *)
Definition str_ltb (a b : pystr) : bool := bool_decide (lexico a b).

(** [sorted(l, key=key)]: the sort is stable, so its result is the one of
    insertion from the right, an element stopping before the first one that
    is not strictly smaller. *)
Fixpoint insert_by {A} (key : A -> pystr) (x : A) (l : list A) : list A :=
  match l with
  | [] => [x]
  | y :: rest =>
      if str_ltb (key y) (key x) then y :: insert_by key x rest
      else x :: y :: rest
  end.

Definition sorted_by {A} (key : A -> pystr) (l : list A) : list A :=
  foldr (insert_by key) [] l.

(** [sep.join(parts)] *)
Fixpoint join (sep : pystr) (parts : list pystr) : pystr :=
  match parts with
  | [] => []
  | [x] => x
  | x :: rest => x ++ sep ++ join sep rest
  end.

(** [not (key b < key a)], the order a list sorted by [key] respects. *)
Definition key_le {A} (key : A -> pystr) (a b : A) : Prop :=
  ~ lexico (key b) (key a).
(** ** merge_validate.py *)

Module MergeValidate.

Definition CONTRACT_VERSION : pystr := lit "1.0.0".
Definition _DEFAULT_THRESHOLD : pyfloat := PyFloat.decimal 85 100.
Definition _VALID_GROUP_TYPES : list pystr :=
  [lit "pack_together"; lit "separate"; lit "other"].
Definition _ROUTE_AUTO_DISPATCH : pystr := lit "auto-dispatch".
Definition _ROUTE_REVIEW_QUEUE : pystr := lit "review-queue".

(** The dataclasses of contracts.py; fields typed as annotated there,
    [Any]-valued ones as [pyval]. *)
Module RawLine.
Record t := mk {
    line_index : Z; raw_line : pystr; name_raw : pystr; qty : Z;
    note_raw : option pystr; needs_review : bool;
    metadata : pydict; version : pystr }.
End RawLine.

Module Mod.
Record t := mk {
    mod_raw : pystr; mod_name : pyval; mod_value : pyval;
    confidence : option pyfloat; needs_review : bool;
    metadata : pydict; version : pystr }.
End Mod.

Module CandidateItem.
Record t := mk {
    line_index : Z; raw_line : pystr; name_raw : pystr; qty : Z;
    candidate_name : pystr; candidate_code : option pystr;
    note_raw : option pystr; mods : list Mod.t; group_id : option pystr;
    confidence_item : option pyfloat; confidence_mods : option pyfloat;
    needs_review : bool; metadata : pydict; version : pystr }.
End CandidateItem.

Module AuditEvent.
Record t := mk {
    event_type : pystr; message : pystr;
    line_index : option Z; item_index : option Z;
    metadata : pydict; version : pystr }.
End AuditEvent.

Module OrderRawParsed.
Record t := mk {
    source_text : pystr; lines : list RawLine.t; order_id : option pystr;
    parse_warnings : list pystr; needs_review : bool;
    metadata : pydict; version : pystr }.
End OrderRawParsed.

Module NormalizedItem.
Record t := mk {
    line_index : Z; raw_line : pystr; name_raw : pystr; qty : Z;
    name_normalized : pystr; item_code : option pystr;
    note_raw : option pystr; mods : list Mod.t; group_id : pyval;
    confidence_item : option pyfloat; confidence_mods : option pyfloat;
    needs_review : bool; metadata : pydict; version : pystr }.
End NormalizedItem.

Module GroupResult.
Record t := mk {
    group_id : pystr; type : pystr; label : pystr;
    line_indices : list Z; confidence_group : option pyfloat;
    needs_review : bool; metadata : pydict; version : pystr }.
End GroupResult.

Module OrderNormalized.
Record t := mk {
    source_text : pystr; items : list NormalizedItem.t;
    groups : list GroupResult.t; order_id : option pystr;
    lines : list RawLine.t; audit_events : list AuditEvent.t;
    overall_needs_review : bool; order_confidence : option pyfloat;
    metadata : pydict; version : pystr }.
End OrderNormalized.

(** [CandidatesByLine = dict[int, list[CandidateItem]]] *)
Abbreviation CandidatesByLine := (gmap Z (list CandidateItem.t)).

Definition _read (source : pyval) (key : pystr) (dflt : pyval) : pyval :=
  match source with
  | VDict d => default dflt (dict_get d key)
  | _ => dflt
  end.

Definition _as_dict (value : pyval) : pydict :=
  match value with
  | VDict d => d
  | _ => []
  end.

Definition _copy_raw_line (line : RawLine.t) : RawLine.t :=
  RawLine.mk (RawLine.line_index line) (RawLine.raw_line line)
    (RawLine.name_raw line) (RawLine.qty line) (RawLine.note_raw line)
    (RawLine.needs_review line) (RawLine.metadata line)
    (RawLine.version line).

Definition _audit (event_type message : pystr) (line_index : option Z)
    (metadata : pydict) : AuditEvent.t :=
  AuditEvent.mk event_type message line_index None metadata CONTRACT_VERSION.

Definition opt_str (o : option pystr) : pyval :=
  match o with Some s => VStr s | None => VNone end.

Definition opt_float (o : option pyfloat) : pyval :=
  match o with Some x => VFloat x | None => VNone end.

(** The values on which [float(value)] raises [OverflowError]: the
    integers that round to an infinity. *)
Definition float_overflows (value : pyval) : bool :=
  match value with
  | VInt z => PyFloat.is_inf (PyFloat.of_Z z)
  | _ => false
  end.

Section Merge.

(** The builtins [str(v)] and [float(text)] ([None] when [float] raises
    [ValueError]). *)
Variable py_str : pyval -> pystr.
Variable float_of_str : pystr -> option pyfloat.

(** [float(value)], [None] standing for [TypeError] / [ValueError].  The
    call is read where it returns or raises one of the two: on an [int]
    beyond the range of [float], where [float_overflows] holds, Python
    raises [OverflowError], which nothing in the module catches. *)
Definition py_float (value : pyval) : option pyfloat :=
  match value with
  | VBool b => Some (PyFloat.of_Z (if b then 1 else 0))
  | VInt z => Some (PyFloat.of_Z z)
  | VFloat x => Some x
  | VStr s => float_of_str s
  | _ => None
  end.

Definition _copy_audit_events (raw_events : pyval) : list AuditEvent.t :=
  match raw_events with
  | VList l =>
      map (fun raw =>
        let event_type := _read raw (lit "event_type") (VStr []) in
        let message := _read raw (lit "message") (VStr []) in
        let event_type :=
          default (lit "merge_validate_info") (nonblank_str event_type) in
        let message :=
          default (lit "merge_validate_event") (nonblank_str message) in
        let line_index := _read raw (lit "line_index") VNone in
        let item_index := _read raw (lit "item_index") VNone in
        AuditEvent.mk event_type message (as_int line_index)
          (as_int item_index)
          (_as_dict (_read raw (lit "metadata") (VDict [])))
          (py_str (_read raw (lit "version") (VStr CONTRACT_VERSION)))) l
  | _ => []
  end.

Definition _normalize_threshold (value : pyval) : pyfloat :=
  match value with
  | VNone => _DEFAULT_THRESHOLD
  | _ =>
      match py_float value with
      | None => _DEFAULT_THRESHOLD
      | Some parsed =>
          if PyFloat.ltb parsed (PyFloat.of_Z 0) then PyFloat.zero
          else if PyFloat.ltb (PyFloat.of_Z 1) parsed then PyFloat.of_Z 1
          else parsed
      end
  end.

Definition _normalize_confidence (value : pyval) : option pyfloat :=
  match value with
  | VNone => None
  | _ =>
      match py_float value with
      | None => None
      | Some parsed =>
          if PyFloat.ltb parsed (PyFloat.of_Z 0) then None
          else if PyFloat.leb parsed (PyFloat.of_Z 1) then Some parsed
          else if PyFloat.leb parsed (PyFloat.of_Z 100)
          then Some (PyFloat.div parsed (PyFloat.of_Z 100))
          else None
      end
  end.

Definition _catalog_ids (menu_catalog : pyval) (candidates : CandidatesByLine)
    : gset pystr :=
  let from_candidates (ids : gset pystr) : gset pystr :=
    fold_left (fun ids line_candidates =>
      fold_left (fun ids candidate =>
        match CandidateItem.candidate_code candidate with
        | Some code => if nonempty code then ids ∪ {[ code ]} else ids
        | None => ids
        end) line_candidates ids)
      (snd <$> map_to_list candidates) ids in
  let from_entries (entries : list pyval) : gset pystr :=
    fold_left (fun ids entry =>
      match entry with
      | VDict e =>
          let raw_item_id := default VNone (dict_get e (lit "item_id")) in
          let raw_item_id :=
            match raw_item_id with
            | VNone => default VNone (dict_get e (lit "item_code"))
            | _ => raw_item_id
            end in
          match raw_item_id with
          | VNone => ids
          | _ =>
              let item_id := strip (py_str raw_item_id) in
              if nonempty item_id then ids ∪ {[ item_id ]} else ids
          end
      | _ => ids
      end) entries ∅ in
  match menu_catalog with
  | VDict d =>
      list_to_set (map strip (filter (fun k => negb (blank k)) (dict_keys d)))
  | VList entries | VTuple entries =>
      let ids := from_entries entries in
      if bool_decide (ids = ∅) then from_candidates ids else ids
  | _ => from_candidates ∅
  end.

Definition _find_candidate_by_code (line_candidates : list CandidateItem.t)
    (item_code : option pystr) : option CandidateItem.t :=
  match item_code with
  | None | Some [] => None
  | Some code =>
      find (fun candidate =>
              bool_decide (CandidateItem.candidate_code candidate = Some code))
           line_candidates
  end.

Definition _normalize_mod (raw_mod : pyval)
    (default_confidence : option pyfloat)
    : option Mod.t :=
  match raw_mod with
  | VStr s =>
      let token := strip s in
      if nonempty token
      then Some (Mod.mk token (VStr token) VNone default_confidence false []
                   CONTRACT_VERSION)
      else None
  | _ =>
      let token := _read raw_mod (lit "mod_raw") VNone in
      let token :=
        match nonblank_str token with
        | Some _ => token
        | None => _read raw_mod (lit "mod_name") VNone
        end in
      let token :=
        match nonblank_str token with
        | Some _ => token
        | None => _read raw_mod (lit "mod_value") VNone
        end in
      match nonblank_str token with
      | None => None
      | Some token =>
          let confidence :=
            _normalize_confidence (_read raw_mod (lit "confidence") VNone) in
          let confidence :=
            match confidence with
            | None => default_confidence
            | Some _ => confidence
            end in
          Some (Mod.mk (strip token)
                  (_read raw_mod (lit "mod_name") VNone)
                  (_read raw_mod (lit "mod_value") VNone)
                  confidence
                  (truthy (_read raw_mod (lit "needs_review") (VBool false)))
                  (_as_dict (_read raw_mod (lit "metadata") (VDict [])))
                  (py_str (_read raw_mod (lit "version")
                                 (VStr CONTRACT_VERSION))))
      end
  end.

Definition _collect_llm_items (raw_items : pyval)
    (valid_line_indices : gset Z) (audit_events : list AuditEvent.t)
    : gmap Z pyval * list AuditEvent.t :=
  match raw_items with
  | VList l =>
      fold_left (fun '(by_line, audit_events) raw =>
        let line_index := _read raw (lit "line_index") VNone in
        match as_int line_index with
        | Some i =>
            if bool_decide (i ∈ valid_line_indices) then
              match by_line !! i with
              | Some _ =>
                  (by_line,
                   audit_events ++
                   [_audit (lit "item_duplicate_line_index")
                      (lit "Duplicate LLM item for the same line_index; first one is kept")
                      (Some i) []])
              | None => (<[i := raw]> by_line, audit_events)
              end
            else
              (by_line,
               audit_events ++
               [_audit (lit "item_invalid_line_index")
                  (lit "LLM item line_index not found in parser lines")
                  (Some i) []])
        | None =>
            (by_line,
             audit_events ++
             [_audit (lit "item_invalid_line_index")
                (lit "LLM item line_index not found in parser lines")
                None []])
        end) l (∅, audit_events)
  | _ => (∅, audit_events)
  end.

(** [confidence is None or confidence < threshold] *)
Definition below (confidence : option pyfloat) (threshold : pyfloat)
    : bool :=
  match confidence with
  | None => true
  | Some c => PyFloat.ltb c threshold
  end.

Definition _merge_one_item (line : RawLine.t) (llm_item : option pyval)
    (line_candidates : list CandidateItem.t)
    (valid_catalog_ids : gset pystr) (allowed_mods_set : option (gset pystr))
    (item_threshold mods_threshold : pyfloat) (audit_events : list AuditEvent.t)
    : NormalizedItem.t * list AuditEvent.t :=
  let here := Some (RawLine.line_index line) in
  let needs_review := RawLine.needs_review line in
  let source_metadata :=
    match llm_item with
    | Some it => _as_dict (_read it (lit "metadata") (VDict []))
    | None => []
    end in
  let primary_candidate := head line_candidates in
  let qty := RawLine.qty line in
  let '(qty, needs_review, audit_events) :=
    match llm_item with
    | Some it =>
        let llm_qty := _read it (lit "qty") VNone in
        match as_int llm_qty with
        | Some n =>
            if negb (is_bool llm_qty) then
              if 0 <? n then (n, needs_review, audit_events)
              else
                (qty, true,
                 audit_events ++
                 [_audit (lit "qty_invalid")
                    (lit "LLM qty must be positive integer; raw qty is kept")
                    here [(lit "qty", llm_qty)]])
            else
              (qty, true,
               audit_events ++
               [_audit (lit "qty_invalid")
                  (lit "LLM qty is not an integer; raw qty is kept")
                  here [(lit "qty", llm_qty)]])
        | None =>
            match llm_qty with
            | VNone => (qty, needs_review, audit_events)
            | _ =>
                (qty, true,
                 audit_events ++
                 [_audit (lit "qty_invalid")
                    (lit "LLM qty is not an integer; raw qty is kept")
                    here [(lit "qty", llm_qty)]])
            end
        end
    | None => (qty, needs_review, audit_events)
    end in
  let '(needs_review, audit_events) :=
    if qty <=? 0 then
      (true,
       audit_events ++
       [_audit (lit "qty_invalid") (lit "Final qty must be positive integer")
          here [(lit "qty", VInt qty)]])
    else (needs_review, audit_events) in
  let confidence_item :=
    match llm_item with
    | Some it => _normalize_confidence (_read it (lit "confidence_item") VNone)
    | None => None
    end in
  let confidence_mods :=
    match llm_item with
    | Some it => _normalize_confidence (_read it (lit "confidence_mods") VNone)
    | None => None
    end in
  let needs_review :=
    if below confidence_item item_threshold then true else needs_review in
  let needs_review :=
    if below confidence_mods mods_threshold then true else needs_review in
  let item_code_raw :=
    match llm_item with
    | Some it => _read it (lit "item_code") VNone
    | None => VNone
    end in
  let item_code_raw :=
    match nonblank_str item_code_raw with
    | Some _ => item_code_raw
    | None =>
        match llm_item with
        | Some it => _read it (lit "item_id") VNone
        | None => VNone
        end
    end in
  let item_code := strip <$> nonblank_str item_code_raw in
  let item_code_is_valid :=
    match item_code with
    | Some code => bool_decide (code ∈ valid_catalog_ids)
    | None => false
    end in
  let '(item_code, needs_review, audit_events) :=
    match item_code with
    | Some code =>
        if negb item_code_is_valid then
          (None, true,
           audit_events ++
           [_audit (lit "item_code_not_in_catalog")
              (lit "LLM item_code not found in menu_catalog; fallback is applied")
              here [(lit "item_code", VStr code)]])
        else (item_code, needs_review, audit_events)
    | None => (item_code, needs_review, audit_events)
    end in
  let fallback_reason : option pystr := None in
  let selected_candidate :=
    match item_code with
    | Some code =>
        if nonempty code then _find_candidate_by_code line_candidates item_code
        else None
    | None => None
    end in
  let '(item_code, needs_review, fallback_reason, audit_events) :=
    match item_code, selected_candidate with
    | Some code, None =>
        (None, true,
         Some (default (lit "item_code_not_in_line_candidates") fallback_reason),
         audit_events ++
         [_audit (lit "item_code_not_in_line_candidates")
            (lit "LLM item_code is not in this line's candidates; fallback is applied when possible")
            here [(lit "item_code", VStr code)]])
    | _, _ => (item_code, needs_review, fallback_reason, audit_events)
    end in
  let '(item_code, selected_candidate, needs_review, fallback_reason,
        audit_events) :=
    match item_code, primary_candidate with
    | None, Some primary =>
        match CandidateItem.candidate_code primary with
        | Some code =>
            if nonempty code && bool_decide (code ∈ valid_catalog_ids) then
              (Some code, Some primary, true,
               Some (default (lit "candidate_fallback") fallback_reason),
               audit_events ++
               [_audit (lit "item_fallback_to_candidate")
                  (lit "LLM item_code missing/invalid; using top candidate")
                  here [(lit "item_code", VStr code)]])
            else
              (item_code, selected_candidate, needs_review, fallback_reason,
               audit_events)
        | None =>
            (item_code, selected_candidate, needs_review, fallback_reason,
             audit_events)
        end
    | _, _ =>
        (item_code, selected_candidate, needs_review, fallback_reason,
         audit_events)
    end in
  let name_normalized_raw :=
    match llm_item with
    | Some it => _read it (lit "name_normalized") VNone
    | None => VNone
    end in
  let name_normalized := nonblank_str name_normalized_raw in
  let '(name_normalized, needs_review, fallback_reason) :=
    match name_normalized, selected_candidate with
    | None, Some selected =>
        let name := Some (CandidateItem.candidate_name selected) in
        match llm_item with
        | Some _ =>
            (name, true,
             Some (default (lit "name_from_candidate") fallback_reason))
        | None => (name, needs_review, fallback_reason)
        end
    | _, _ => (name_normalized, needs_review, fallback_reason)
    end in
  let '(name_normalized, needs_review, fallback_reason) :=
    match name_normalized with
    | None =>
        (RawLine.name_raw line, true,
         Some (default (lit "name_from_raw") fallback_reason))
    | Some name => (name, needs_review, fallback_reason)
    end in
  let raw_mods :=
    match llm_item with
    | Some it => _read it (lit "mods") (VList [])
    | None => VList []
    end in
  let '(raw_mods, needs_review, audit_events) :=
    match raw_mods with
    | VList l => (l, needs_review, audit_events)
    | _ =>
        ([], true,
         audit_events ++
         [_audit (lit "mods_invalid_shape") (lit "LLM mods must be a list")
            here []])
    end in
  let '(mods, needs_review) :=
    fold_left (fun '(mods, needs_review) raw_mod =>
      match _normalize_mod raw_mod confidence_mods with
      | None => (mods, true)
      | Some normalized_mod =>
          let mod_conf := Mod.confidence normalized_mod in
          let mod_conf_low := below mod_conf mods_threshold in
          (mods ++
           [Mod.mk (Mod.mod_raw normalized_mod) (Mod.mod_name normalized_mod)
              (Mod.mod_value normalized_mod) mod_conf
              (Mod.needs_review normalized_mod || mod_conf_low)
              (Mod.metadata normalized_mod) (Mod.version normalized_mod)],
           needs_review)
      end) raw_mods ([], needs_review) in
  let llm_item_needs_review :=
    match llm_item with
    | Some it => truthy (_read it (lit "needs_review") (VBool false))
    | None => true
    end in
  let '(needs_review, fallback_reason, audit_events) :=
    match llm_item with
    | None =>
        (true, Some (default (lit "llm_item_missing") fallback_reason),
         audit_events ++
         [_audit (lit "llm_item_missing")
            (lit "No LLM item for parser line; using fallback fields")
            here []])
    | Some _ => (needs_review, fallback_reason, audit_events)
    end in
  let needs_review := if llm_item_needs_review then true else needs_review in
  let item_metadata :=
    dict_update source_metadata
      [(lit "merge_source",
        VStr (match llm_item with
              | Some _ => lit "llm"
              | None => lit "fallback"
              end));
       (lit "fallback_reason", opt_str fallback_reason);
       (lit "catalog_valid",
        VBool (match item_code with
               | Some code =>
                   nonempty code && bool_decide (code ∈ valid_catalog_ids)
               | None => false
               end))] in
  (NormalizedItem.mk (RawLine.line_index line) (RawLine.raw_line line)
     (RawLine.name_raw line) qty name_normalized item_code
     (RawLine.note_raw line) mods
     (match llm_item with
      | Some it => _read it (lit "group_id") VNone
      | None => VNone
      end)
     confidence_item confidence_mods needs_review item_metadata
     (match llm_item with
      | Some it => py_str (_read it (lit "version") (VStr CONTRACT_VERSION))
      | None => CONTRACT_VERSION
      end),
   audit_events).

(** First inner loop of [_merge_groups]: drops what is not a parser line
    index and what the group already listed.  The state is
    [(seen_local, cleaned, out_of_range_found, duplicated_found)]. *)
Definition clean_step (valid_line_indices : gset Z)
    (st : gset Z * list Z * bool * bool) (line_index : pyval)
    : gset Z * list Z * bool * bool :=
  let '(seen_local, cleaned, out_of_range_found, duplicated_found) := st in
  match as_int line_index with
  | None => (seen_local, cleaned, true, duplicated_found)
  | Some i =>
      if negb (bool_decide (i ∈ valid_line_indices)) then
        (seen_local, cleaned, true, duplicated_found)
      else if bool_decide (i ∈ seen_local) then
        (seen_local, cleaned, out_of_range_found, true)
      else (seen_local ∪ {[ i ]}, cleaned ++ [i], out_of_range_found,
            duplicated_found)
  end.

(** Second inner loop: claims each index for the group unless an earlier
    group owns it.  The state is [(occupied, final_indices,
    conflict_found)]. *)
Definition claim_step (group_id : pystr)
    (st : gmap Z pystr * list Z * bool) (line_index : Z)
    : gmap Z pystr * list Z * bool :=
  let '(occupied, final_indices, conflict_found) := st in
  match occupied !! line_index with
  | Some _ => (occupied, final_indices, true)
  | None =>
      (<[line_index := group_id]> occupied, final_indices ++ [line_index],
       conflict_found)
  end.

(** Body of the loop over [enumerate(raw_groups)]; the state is
    [(merged, occupied, audit_events)]. *)
Definition merge_group_step (valid_line_indices : gset Z)
    (group_threshold : pyfloat)
    (st : list GroupResult.t * gmap Z pystr * list AuditEvent.t)
    (idx : Z) (raw : pyval)
    : list GroupResult.t * gmap Z pystr * list AuditEvent.t :=
  let '(merged, occupied, audit_events) := st in
  let group_id_raw := _read raw (lit "group_id") VNone in
  let group_id :=
    default (lit "G" ++ str_of_int (idx + 1)) (nonblank_str group_id_raw) in
  let group_type_raw := _read raw (lit "type") (VStr (lit "other")) in
  let group_type :=
    match group_type_raw with
    | VStr t =>
        if bool_decide (t ∈ _VALID_GROUP_TYPES) then t else lit "other"
    | _ => lit "other"
    end in
  let label_raw := _read raw (lit "label") VNone in
  let label := default (lit "group") (nonblank_str label_raw) in
  let raw_indices_value := _read raw (lit "line_indices") (VList []) in
  let invalid_indices_shape :=
    match raw_indices_value with VList _ => false | _ => true end in
  let raw_indices :=
    match raw_indices_value with VList l => l | _ => [] end in
  let '(seen_local, cleaned, out_of_range_found, duplicated_found) :=
    fold_left (clean_step valid_line_indices) raw_indices
      (∅, [], false, false) in
  let '(occupied, final_indices, conflict_found) :=
    fold_left (claim_step group_id) cleaned (occupied, [], false) in
  let confidence_group :=
    _normalize_confidence (_read raw (lit "confidence_group") VNone) in
  let low_confidence := below confidence_group group_threshold in
  let too_few_lines := (Z.of_nat (length final_indices) <? 2) in
  let needs_review :=
    truthy (_read raw (lit "needs_review") (VBool false))
    || invalid_indices_shape || out_of_range_found || duplicated_found
    || conflict_found || too_few_lines || low_confidence
    || negb (match group_type_raw with
             | VStr t => bool_decide (group_type = t)
             | _ => false
             end) in
  let audit_events :=
    if invalid_indices_shape then
      audit_events ++
      [_audit (lit "group_line_indices_invalid_shape")
         (lit "Group line_indices must be a list of line index integers")
         None
         [(lit "group_id", VStr group_id);
          (lit "line_indices", raw_indices_value)]]
    else audit_events in
  let audit_events :=
    if out_of_range_found then
      audit_events ++
      [_audit (lit "group_line_index_out_of_range")
         (lit "Group contains line_indices outside parser lines") None
         [(lit "group_id", VStr group_id);
          (lit "line_indices", VList raw_indices)]]
    else audit_events in
  let audit_events :=
    if duplicated_found then
      audit_events ++
      [_audit (lit "group_line_index_duplicated")
         (lit "Group line_indices contain duplicates") None
         [(lit "group_id", VStr group_id)]]
    else audit_events in
  let audit_events :=
    if conflict_found then
      audit_events ++
      [_audit (lit "group_line_conflict")
         (lit "Group conflicts with previous group; conflicting lines removed (first group wins)")
         None [(lit "group_id", VStr group_id)]]
    else audit_events in
  let audit_events :=
    if too_few_lines then
      audit_events ++
      [_audit (lit "group_too_few_lines")
         (lit "Group must contain at least 2 valid line_indices") None
         [(lit "group_id", VStr group_id);
          (lit "line_indices", VList (map VInt final_indices))]]
    else audit_events in
  (merged ++
   [GroupResult.mk group_id group_type label final_indices confidence_group
      needs_review
      (dict_update
         [(lit "source", VStr (lit "llm"));
          (lit "group_membership_rule",
           VStr (lit "single_group_per_line_first_wins"))]
         (_as_dict (_read raw (lit "metadata") (VDict []))))
      (py_str (_read raw (lit "version") (VStr CONTRACT_VERSION)))],
   occupied, audit_events).

(** The loop of [_merge_groups] from position [idx] on. *)
Fixpoint merge_groups_loop (valid_line_indices : gset Z)
    (group_threshold : pyfloat)
    (raw_groups : list pyval) (idx : Z)
    (st : list GroupResult.t * gmap Z pystr * list AuditEvent.t)
    : list GroupResult.t * gmap Z pystr * list AuditEvent.t :=
  match raw_groups with
  | [] => st
  | raw :: rest =>
      merge_groups_loop valid_line_indices group_threshold rest (idx + 1)
        (merge_group_step valid_line_indices group_threshold st idx raw)
  end.

Definition _merge_groups (raw_groups : pyval) (valid_line_indices : gset Z)
    (group_threshold : pyfloat) (audit_events : list AuditEvent.t)
    : list GroupResult.t * list AuditEvent.t :=
  match raw_groups with
  | VList l =>
      let '(merged, _, audit_events) :=
        merge_groups_loop valid_line_indices group_threshold l 0
          ([], ∅, audit_events) in
      (merged, audit_events)
  | _ => ([], audit_events)
  end.

Definition is_none {A} (o : option A) : bool :=
  match o with None => true | Some _ => false end.

Definition _build_dispatch_decision (order_raw : OrderRawParsed.t)
    (items : list NormalizedItem.t) (groups : list GroupResult.t)
    (overall_needs_review : bool) : pydict :=
  let reasons : list pystr := [] in
  let reasons :=
    if OrderRawParsed.needs_review order_raw
    then reasons ++ [lit "order_raw_needs_review"] else reasons in
  let reasons :=
    if existsb NormalizedItem.needs_review items
    then reasons ++ [lit "item_needs_review"] else reasons in
  let reasons :=
    if existsb GroupResult.needs_review groups
    then reasons ++ [lit "group_needs_review"] else reasons in
  let reasons :=
    if existsb (fun item => is_none (NormalizedItem.item_code item)) items
    then reasons ++ [lit "missing_item_code"] else reasons in
  let reasons :=
    if existsb (fun item => NormalizedItem.qty item <=? 0) items
    then reasons ++ [lit "invalid_qty"] else reasons in
  let should_review :=
    overall_needs_review
    || match reasons with [] => false | _ => true end in
  let route :=
    if should_review then _ROUTE_REVIEW_QUEUE else _ROUTE_AUTO_DISPATCH in
  [(lit "route", VStr route);
   (lit "should_auto_dispatch", VBool (negb should_review));
   (lit "reasons", VList (map VStr reasons))].

(** [min(values) if values else None] *)
Definition min_confidence (values : list pyfloat) : option pyfloat :=
  match values with
  | [] => None
  | v :: rest =>
      Some (fold_left (fun m x => if PyFloat.ltb x m then x else m) rest v)
  end.

(** The loop over [copied_lines] of [merge_and_validate]. *)
Definition merge_items (copied_lines : list RawLine.t)
    (llm_items_by_line : gmap Z pyval) (candidates : CandidatesByLine)
    (valid_catalog_ids : gset pystr) (allowed_mods_set : option (gset pystr))
    (item_threshold mods_threshold : pyfloat) (audit_events : list AuditEvent.t)
    : list NormalizedItem.t * list AuditEvent.t :=
  fold_left (fun '(items, audit_events) line =>
    let '(item, audit_events) :=
      _merge_one_item line
        (llm_items_by_line !! RawLine.line_index line)
        (default [] (candidates !! RawLine.line_index line))
        valid_catalog_ids allowed_mods_set item_threshold mods_threshold
        audit_events in
    (items ++ [item], audit_events)) copied_lines ([], audit_events).

Definition merge_and_validate (order_raw : OrderRawParsed.t)
    (candidates : CandidatesByLine) (structured_result : pyval)
    (menu_catalog : pyval) (allowed_mods : option (list pyval))
    (item_threshold mods_threshold group_threshold : pyval)
    : OrderNormalized.t :=
  let normalized_item_threshold := _normalize_threshold item_threshold in
  let normalized_mods_threshold := _normalize_threshold mods_threshold in
  let normalized_group_threshold := _normalize_threshold group_threshold in
  let copied_lines := map _copy_raw_line (OrderRawParsed.lines order_raw) in
  let valid_line_indices : gset Z :=
    list_to_set (map RawLine.line_index copied_lines) in
  let valid_catalog_ids := _catalog_ids menu_catalog candidates in
  let allowed_mods_set : option (gset pystr) :=
    (fun mods =>
       list_to_set (omap (fun m => strip <$> nonblank_str m) mods))
    <$> allowed_mods in
  let structured_map := _as_dict structured_result in
  let audit_events :=
    _copy_audit_events
      (default VNone (dict_get structured_map (lit "audit_events"))) in
  let '(llm_items_by_line, audit_events) :=
    _collect_llm_items
      (default VNone (dict_get structured_map (lit "items")))
      valid_line_indices audit_events in
  let '(items, audit_events) :=
    merge_items copied_lines llm_items_by_line candidates valid_catalog_ids
      allowed_mods_set normalized_item_threshold normalized_mods_threshold
      audit_events in
  let '(groups, audit_events) :=
    _merge_groups (default VNone (dict_get structured_map (lit "groups")))
      valid_line_indices normalized_group_threshold audit_events in
  let overall_needs_review :=
    OrderRawParsed.needs_review order_raw
    || existsb NormalizedItem.needs_review items
    || existsb GroupResult.needs_review groups in
  let dispatch_decision :=
    _build_dispatch_decision order_raw items groups overall_needs_review in
  let merged_metadata :=
    dict_update (OrderRawParsed.metadata order_raw)
      [(lit "structured_result_metadata",
        VDict (_as_dict
                 (default (VDict [])
                    (dict_get structured_map (lit "metadata")))));
       (lit "thresholds",
        VDict [(lit "item_threshold", VFloat normalized_item_threshold);
               (lit "mods_threshold", VFloat normalized_mods_threshold);
               (lit "group_threshold", VFloat normalized_group_threshold)]);
       (lit "validation_rules",
        VDict [(lit "group_membership_rule",
                VStr (lit "single_group_per_line_first_wins"));
               (lit "mods_filter_mode", VStr (lit "open"))]);
       (lit "dispatch_decision", VDict dispatch_decision)] in
  let confidence_values :=
    flat_map (fun item =>
      option_list (NormalizedItem.confidence_item item)
      ++ option_list (NormalizedItem.confidence_mods item)) items
    ++ flat_map (fun group =>
         option_list (GroupResult.confidence_group group)) groups in
  let order_confidence := min_confidence confidence_values in
  OrderNormalized.mk (OrderRawParsed.source_text order_raw) items groups
    (OrderRawParsed.order_id order_raw) copied_lines audit_events
    overall_needs_review order_confidence merged_metadata CONTRACT_VERSION.

End Merge.

(** What invariant 2 of the data model asks of one normalized item. *)
Definition item_code_ok (valid : gset pystr) (candidates : CandidatesByLine)
    (item : NormalizedItem.t) : Prop :=
  match NormalizedItem.item_code item with
  | None => True
  | Some code =>
      code ∈ valid ∧
      ∃ c, c ∈ default [] (candidates !! NormalizedItem.line_index item) ∧
           CandidateItem.candidate_code c = Some code
  end.


(** The group payloads [_merge_groups] iterates over. *)
Definition group_payloads (structured_result : pyval) : list pyval :=
  match dict_get (_as_dict structured_result) (lit "groups") with
  | Some (VList l) => l
  | _ => []
  end.

(** The entries of a group payload's [line_indices]. *)
Definition raw_line_indices (raw : pyval) : list pyval :=
  match _read raw (lit "line_indices") (VList []) with
  | VList l => l
  | _ => []
  end.

(** The list [cleaned] the first inner loop of [_merge_groups] builds for
    one payload. *)
Definition listed_indices (valid_line_indices : gset Z) (raw : pyval)
    : list Z :=
  (fold_left (clean_step valid_line_indices) (raw_line_indices raw)
     (∅, [], false, false)).1.1.2.

(** First-wins, in the words of the specification: going through the
    groups in order, an index already claimed by an earlier group is
    dropped from the later one, the others are claimed. *)
Fixpoint first_wins (claimed : list Z) (groups : list (list Z))
    : list (list Z) :=
  match groups with
  | [] => []
  | indices :: rest =>
      let kept := filter (fun x => x ∉ claimed) indices in
      kept :: first_wins (claimed ++ kept) rest
  end.

(** Instances of the two builtins for the worked examples: [str()] on
    scalars, and a [float()] that parses no text. *)
Definition str_scalar (v : pyval) : pystr :=
  match v with
  | VNone => lit "None"
  | VBool true => lit "True"
  | VBool false => lit "False"
  | VInt z => str_of_int z
  | VStr s => s
  | _ => []
  end.

Definition float_unparsed (_ : pystr) : option pyfloat := None.

(** A receipt of three lines, whose LLM result has a first group listing
    the lines 2 and 0 in that order, and a second group listing line 0
    again. *)
Definition unsorted_lines : list RawLine.t :=
  map (fun i => RawLine.mk i (lit "item x1") (lit "item") 1 None false []
                  CONTRACT_VERSION) [0; 1; 2].

Definition unsorted_groups : pyval :=
  VDict [(lit "groups",
          VList [VDict [(lit "line_indices", VList [VInt 2; VInt 0])];
                 VDict [(lit "line_indices", VList [VInt 0])]])].

(** The item payloads [_collect_llm_items] iterates over. *)
Definition item_payloads (structured_result : pyval) : list pyval :=
  match dict_get (_as_dict structured_result) (lit "items") with
  | Some (VList l) => l
  | _ => []
  end.

(** The LLM item merged into the parser line of index [i]: the first
    payload whose [line_index] is the integer [i]. *)
Definition llm_item_of_line (structured_result : pyval) (i : Z)
    : option pyval :=
  find (fun raw =>
          bool_decide (as_int (_read raw (lit "line_index") VNone) = Some i))
    (item_payloads structured_result).

(** A receipt of one line with quantity 1, its candidate and catalog, and
    an LLM result with two items for the line: the first with quantity 2,
    the second with the boolean [True] as quantity. *)
Definition soup_line : RawLine.t :=
  RawLine.mk 0 (lit "soup x1") (lit "soup") 1 None false []
    CONTRACT_VERSION.

Definition soup_order : OrderRawParsed.t :=
  OrderRawParsed.mk (lit "soup x1") [soup_line] None [] false []
    CONTRACT_VERSION.

Definition soup_candidates : CandidatesByLine :=
  {[ 0 := [CandidateItem.mk 0 (lit "soup x1") (lit "soup") 1 (lit "Soup")
             (Some (lit "A1")) None [] None None None false []
             CONTRACT_VERSION] ]}.

Definition soup_catalog : pyval := VDict [(lit "A1", VStr (lit "Soup"))].

Definition soup_boolean_item : pyval :=
  VDict [(lit "line_index", VInt 0); (lit "qty", VBool true)].

Definition soup_result : pyval :=
  VDict [(lit "items",
          VList [VDict [(lit "line_index", VInt 0); (lit "qty", VInt 2);
                        (lit "item_code", VStr (lit "A1"));
                        (lit "name_normalized", VStr (lit "Soup"));
                        (lit "confidence_item", VInt 1);
                        (lit "confidence_mods", VInt 1)];
                 soup_boolean_item])].

(** What one turn of the loop of [_merge_groups] says of a group it does
    not flag. *)
Definition group_kept_whole (thr : pyfloat) (g : GroupResult.t)
    (raw : pyval)
    : Prop :=
  (∃ listed,
     _read raw (lit "line_indices") (VList []) = VList listed ∧
     GroupResult.line_indices g = omap as_int listed ∧
     length (GroupResult.line_indices g) = length listed) ∧
  (2 <= length (GroupResult.line_indices g))%nat ∧
  (∃ c, GroupResult.confidence_group g = Some c ∧
        PyFloat.ltb c thr = false) ∧
  _read raw (lit "type") (VStr (lit "other")) = VStr (GroupResult.type g).

End MergeValidate.

(** ** cache.py *)

Module Cache.

Definition ITEM_MAPPING_CACHE : pystr := lit "item_mapping_cache".
Definition NOTE_MODS_CACHE : pystr := lit "note_mods_cache".
Definition GROUP_PATTERN_CACHE : pystr := lit "group_pattern_cache".

Definition CACHE_NAMESPACES : list pystr :=
  [ITEM_MAPPING_CACHE; NOTE_MODS_CACHE; GROUP_PATTERN_CACHE].

Definition _NAMESPACE_KEY_REQUIREMENTS (namespace : pystr)
    : option (list pystr) :=
  if bool_decide (namespace = ITEM_MAPPING_CACHE) then
    Some [lit "name_raw"; lit "menu_catalog_version"]
  else if bool_decide (namespace = NOTE_MODS_CACHE) then
    Some [lit "note_raw"; lit "allowed_mods_version"]
  else if bool_decide (namespace = GROUP_PATTERN_CACHE) then
    Some [lit "group_pattern"; lit "menu_catalog_version";
          lit "allowed_mods_version"]
  else None.

Definition _is_missing_required (value : pyval) : bool :=
  match value with
  | VNone => true
  | VStr s => bool_decide (strip s = [])
  | _ => false
  end.

(** *** JSON encoding *)

Definition hex_digit (n : N) : N :=
  (if n <? 10 then 48 + n else 87 + n)%N.

(** One character of a string under [json.dumps(..., ensure_ascii=False)]:
    the quote, the backslash and the control characters are escaped. *)
Definition esc_char (c : N) : pystr :=
  if (c =? 34)%N then [92; 34]%N
  else if (c =? 92)%N then [92; 92]%N
  else if (c =? 10)%N then [92; 110]%N
  else if (c =? 13)%N then [92; 114]%N
  else if (c =? 9)%N then [92; 116]%N
  else if (c =? 8)%N then [92; 98]%N
  else if (c =? 12)%N then [92; 102]%N
  else if (c <? 32)%N then
    [92; 117; 48; 48; hex_digit (c / 16); hex_digit (c mod 16)]%N
  else [c].

Definition quote (s : pystr) : pystr :=
  [34%N] ++ flat_map esc_char s ++ [34%N].

(** [text.encode("utf-8")] raises [UnicodeEncodeError] exactly when the
    text holds a surrogate code point, U+D800 to U+DFFF. *)
Definition is_surrogate (c : N) : bool :=
  ((55296 <=? c) && (c <=? 57343))%N.

Definition utf8_encodable (text : pystr) : bool :=
  forallb (fun c => negb (is_surrogate c)) text.

Section Cache.

(** [repr] of a [float], as [json.dumps] prints it, and
    [hashlib.sha256(data).hexdigest()] of the UTF-8 encoding of a text that
    has one. *)
Variable float_repr : pyfloat -> pystr.
Variable sha256_hexdigest : pystr -> pystr.

(** [json.dumps(v, ensure_ascii=False, sort_keys=True,
    separators=(item_sep, key_sep))].  A tuple is printed as a list.  The
    items of a mapping are printed in the order of their keys, which are
    unique: the items are rendered first and the rendered items sorted by
    key.  [json.dumps] raises [TypeError] on a set; a set never reaches it
    here, [_normalize_value] having turned every set into a list, and the
    encoding given to it is the one of its list of elements. *)
Fixpoint dumps (item_sep key_sep : pystr) (v : pyval) : pystr :=
  match v with
  | VNone => lit "null"
  | VBool true => lit "true"
  | VBool false => lit "false"
  | VInt z => str_of_int z
  | VFloat q => float_repr q
  | VStr s => quote s
  | VList l | VTuple l | VSet l =>
      [91%N] ++ join item_sep (map (dumps item_sep key_sep) l) ++ [93%N]
  | VDict d =>
      [123%N]
      ++ join item_sep
           (map (fun kv => quote (fst kv) ++ key_sep ++ snd kv)
              (sorted_by fst
                 (map (fun kv => (fst kv, dumps item_sep key_sep (snd kv)))
                    d)))
      ++ [125%N]
  end.

(** The separators [json.dumps] uses by default, and the tight ones
    [_make_key] asks for. *)
Definition dumps_default : pyval -> pystr := dumps (lit ", ") (lit ": ").
Definition dumps_compact : pyval -> pystr := dumps (lit ",") (lit ":").

(** [POSNormCache._normalize_value].  Keys being unique, filling [nested]
    key by key in the order of [sorted(value.keys())] is sorting the
    normalized items by key. *)
Fixpoint _normalize_value (value : pyval) : pyval :=
  match value with
  | VStr s => VStr (strip s)
  | VDict d =>
      VDict (sorted_by fst
               (map (fun kv => (fst kv, _normalize_value (snd kv))) d))
  | VList l => VList (map _normalize_value l)
  | VTuple l => VList (map _normalize_value l)
  | VSet l => VList (sorted_by dumps_default (map _normalize_value l))
  | _ => value
  end.

Definition _normalize_payload (payload : pydict) : pydict :=
  sorted_by fst (map (fun kv => (fst kv, _normalize_value (snd kv))) payload).

(** [POSNormCache._make_key]; [None] stands for the [ValueError] of the
    two checks and for the [UnicodeEncodeError] of [canonical.encode]. *)
Definition _make_key (namespace : pystr) (key_payload : pydict)
    : option pystr :=
  if negb (bool_decide (namespace ∈ CACHE_NAMESPACES)) then None
  else
    match _NAMESPACE_KEY_REQUIREMENTS namespace with
    | None => None
    | Some required_fields =>
        let missing :=
          filter (fun field =>
                    _is_missing_required
                      (default VNone (dict_get key_payload field)) = true)
            required_fields in
        match missing with
        | _ :: _ => None
        | [] =>
            let normalized_payload := _normalize_payload key_payload in
            let canonical := dumps_compact (VDict normalized_payload) in
            if negb (utf8_encodable canonical) then None
            else
              let digest := sha256_hexdigest canonical in
              Some (namespace ++ lit ":" ++ digest)
        end
    end.

End Cache.

(** *** Entries, backend and cache *)

Module CacheEntry.
Record t := mk {
  value : pyval; confidence : Q; meta : pydict;
  created_at : Q; expires_at : option Q }.

(** [is_expired], the reading of [time.time()] being [now]. *)
Definition is_expired (self : t) (now : Q) : bool :=
  match expires_at self with
  | None => false
  | Some e => Qleb e now
  end.
End CacheEntry.

(** [MemoryCacheBackend]: [_store] maps a namespace to its bucket. *)
Module MemoryCacheBackend.
Abbreviation t := (gmap pystr (gmap pystr CacheEntry.t)).

Definition get (self : t) (namespace key : pystr) : option CacheEntry.t :=
  default ∅ (self !! namespace) !! key.

Definition set (self : t) (namespace key : pystr) (entry : CacheEntry.t)
    : t :=
  let bucket := default ∅ (self !! namespace) in
  <[namespace := <[key := entry]> bucket]> self.

Definition delete (self : t) (namespace key : pystr) : t :=
  match self !! namespace with
  | None => self
  | Some bucket =>
      if bool_decide (bucket = ∅) then self
      else <[namespace := base.delete key bucket]> self
  end.
End MemoryCacheBackend.

Module POSNormCache.
Record t := mk {
  _backend : MemoryCacheBackend.t;
  _namespace_ttls : gmap pystr Z }.

(** [__init__]; [None] stands for the [ValueError] on an unknown
    namespace. *)
Definition init (namespace_ttls : option (gmap pystr Z)) : option t :=
  let defaults : gmap pystr Z :=
    <[ITEM_MAPPING_CACHE := 3600]>
      (<[NOTE_MODS_CACHE := 3600]> (<[GROUP_PATTERN_CACHE := 1800]> ∅)) in
  match namespace_ttls with
  | None => Some (mk ∅ defaults)
  | Some ttls =>
      if bool_decide (ttls = ∅) then Some (mk ∅ defaults)
      else if bool_decide (dom ttls ⊆ list_to_set CACHE_NAMESPACES)
      then Some (mk ∅ (ttls ∪ defaults))
      else None
  end.

Section Ops.

Variable float_repr : pyfloat -> pystr.
Variable sha256_hexdigest : pystr -> pystr.

(** [get], at clock reading [now]: the looked-up entry and the cache
    afterwards; [None] when [_make_key] raises. *)
Definition get (self : t) (now : Q) (namespace : pystr)
    (key_payload : pydict) : option (option CacheEntry.t * t) :=
  match _make_key float_repr sha256_hexdigest namespace key_payload with
  | None => None
  | Some key =>
      match MemoryCacheBackend.get (_backend self) namespace key with
      | None => Some (None, self)
      | Some entry =>
          if CacheEntry.is_expired entry now then
            Some (None,
                  mk (MemoryCacheBackend.delete (_backend self) namespace key)
                     (_namespace_ttls self))
          else Some (Some entry, self)
      end
  end.

(** [set], at clock reading [now]. *)
Definition set (self : t) (now : Q) (namespace : pystr)
    (key_payload : pydict) (value : pyval) (confidence : Q)
    (meta : option pydict) : option (CacheEntry.t * t) :=
  match _make_key float_repr sha256_hexdigest namespace key_payload with
  | None => None
  | Some key =>
      let ttl_s := _namespace_ttls self !! namespace in
      let expires_at :=
        match ttl_s with
        | Some ttl => if 0 <? ttl then Some (now + inject_Z ttl)%Q else None
        | None => None
        end in
      let clipped := if Qltb confidence 1 then confidence else 1%Q in
      let clipped := if Qltb 0 clipped then clipped else 0%Q in
      let entry :=
        CacheEntry.mk value clipped (default [] meta) now expires_at in
      Some (entry,
            mk (MemoryCacheBackend.set (_backend self) namespace key entry)
               (_namespace_ttls self))
  end.

Definition invalidate (self : t) (namespace : pystr) (key_payload : pydict)
    : option t :=
  match _make_key float_repr sha256_hexdigest namespace key_payload with
  | None => None
  | Some key =>
      Some (mk (MemoryCacheBackend.delete (_backend self) namespace key)
              (_namespace_ttls self))
  end.

End Ops.
End POSNormCache.

(** *** Payloads equal up to the order of mapping items and of set
    elements *)

(** Mapping keys are unique, at every depth. *)
Fixpoint wf_value (v : pyval) : bool :=
  match v with
  | VList l | VTuple l | VSet l => forallb wf_value l
  | VDict d =>
      bool_decide (NoDup (map fst d))
      && forallb (fun kv => wf_value (snd kv)) d
  | _ => true
  end.

#[local] Unset Elimination Schemes.
Inductive reorder : pyval -> pyval -> Prop :=
| reorder_refl v : reorder v v
| reorder_list l l' : Forall2 reorder l l' -> reorder (VList l) (VList l')
| reorder_tuple l l' : Forall2 reorder l l' -> reorder (VTuple l) (VTuple l')
| reorder_set l m l' :
    Forall2 reorder l m -> m ≡ₚ l' -> reorder (VSet l) (VSet l')
| reorder_dict d m d' :
    Forall2 (fun a b => fst a = fst b /\ reorder (snd a) (snd b)) d m ->
    m ≡ₚ d' -> reorder (VDict d) (VDict d').
#[local] Set Elimination Schemes.

(** Reading device of the proofs: [compact false] erases the spaces that
    stand outside string literals in a JSON text ([compact true] is the
    scan inside a literal). *)
Fixpoint compact (in_string : bool) (text : pystr) : pystr :=
  match text with
  | [] => []
  | c :: rest =>
      if in_string then
        if (c =? 92)%N then
          match rest with
          | e :: rest' => c :: e :: compact true rest'
          | [] => [c]
          end
        else if (c =? 34)%N then c :: compact false rest
        else c :: compact true rest
      else if (c =? 34)%N then c :: compact true rest
      else if (c =? 32)%N then compact false rest
      else c :: compact false rest
  end.

(** Instances for the worked examples: the [repr] of a float that holds
    an integer, and the canonical text itself in place of its digest. *)
Definition repr_integral (x : pyfloat) : pystr :=
  str_of_int (PyFloat.to_Z x) ++ lit ".0".

Definition text_as_digest (text : pystr) : pystr := text.

(** A key payload, and the same payload with its items and the elements of
    its set in another order. *)
Definition example_payload : pydict :=
  [(lit "name_raw", VStr (lit " hot soup "));
   (lit "menu_catalog_version", VStr (lit "v1"));
   (lit "tags", VSet [VStr (lit "b"); VStr (lit "a")])].

Definition example_payload_reordered : pydict :=
  [(lit "tags", VSet [VStr (lit "a"); VStr (lit "b")]);
   (lit "menu_catalog_version", VStr (lit "v1"));
   (lit "name_raw", VStr (lit " hot soup "))].

(** A cache with the default lifetimes, and the entry and the cache that
    storing a value under [example_payload] at clock reading 0 gives. *)
Definition example_cache : POSNormCache.t :=
  default (POSNormCache.mk ∅ ∅) (POSNormCache.init None).

Definition example_key : pystr :=
  default []
    (_make_key repr_integral text_as_digest ITEM_MAPPING_CACHE
       example_payload).

Definition example_entry : CacheEntry.t :=
  CacheEntry.mk (VStr (lit "A1")) (9 # 10) [] 0
    (Some (0 + inject_Z 3600)%Q).

Definition example_cache_after : POSNormCache.t :=
  POSNormCache.mk
    (MemoryCacheBackend.set (POSNormCache._backend example_cache)
       ITEM_MAPPING_CACHE example_key example_entry)
    (POSNormCache._namespace_ttls example_cache).

(** A character that is neither a space nor a quote. *)
Definition plain (c : N) : Prop := c ≠ 32%N ∧ c ≠ 34%N.

(** A key payload of the note namespace. *)
Definition example_note_payload : pydict :=
  [(lit "note_raw", VStr (lit "no ice"));
   (lit "allowed_mods_version", VStr (lit "m1"))].

(** The shape of the values [_normalize_value] returns: no tuple and no
    set, every string stripped, the items of every mapping in the order of
    their keys. *)
#[local] Unset Elimination Schemes.
Inductive canonical_value : pyval -> Prop :=
| canonical_none : canonical_value VNone
| canonical_bool b : canonical_value (VBool b)
| canonical_int z : canonical_value (VInt z)
| canonical_float x : canonical_value (VFloat x)
| canonical_str s : strip s = s -> canonical_value (VStr s)
| canonical_list l : Forall canonical_value l -> canonical_value (VList l)
| canonical_dict d :
    Sorted (key_le fst) d ->
    Forall (fun kv => canonical_value (snd kv)) d ->
    canonical_value (VDict d).
#[local] Set Elimination Schemes.

End Cache.

(** ** audit.py *)

Module Audit.

Definition sensitive_keys : list pystr :=
  [lit "password"; lit "token"; lit "api_key"; lit "authorization";
   lit "cookie"; lit "phone"; lit "mobile"; lit "email"].

Definition MASK_TEXT : pystr := lit "***".

(** The field names of an event payload. *)
Definition ORDER_ID : pystr := lit "order_id".
Definition EVENT_TYPE : pystr := lit "event_type".
Definition TIMESTAMP : pystr := lit "timestamp".
Definition RAW_TEXT : pystr := lit "raw_text".
Definition PARSE_RESULT : pystr := lit "parse_result".
Definition CANDIDATES : pystr := lit "candidates".
Definition LLM_REQUEST : pystr := lit "llm_request".
Definition LLM_RESPONSE : pystr := lit "llm_response".
Definition FALLBACK_REASON : pystr := lit "fallback_reason".
Definition MERGE_RESULT : pystr := lit "merge_result".
Definition FINAL_OUTPUT : pystr := lit "final_output".
Definition HUMAN_CORRECTION : pystr := lit "human_correction".
Definition METADATA : pystr := lit "metadata".
Definition NEEDS_REVIEW : pystr := lit "needs_review".

Module AuditEventRecord.
Record t := mk {
  order_id : pyval; event_type : pyval; timestamp : pyval;
  raw_text : pyval; parse_result : pyval; candidates : pyval;
  llm_request : pyval; llm_response : pyval; fallback_reason : pyval;
  final_output : pyval; human_correction : pyval; metadata : pyval }.

Definition as_dict (self : t) : pydict :=
  [(ORDER_ID, order_id self); (EVENT_TYPE, event_type self);
   (TIMESTAMP, timestamp self); (RAW_TEXT, raw_text self);
   (PARSE_RESULT, parse_result self); (CANDIDATES, candidates self);
   (LLM_REQUEST, llm_request self); (LLM_RESPONSE, llm_response self);
   (FALLBACK_REASON, fallback_reason self);
   (FINAL_OUTPUT, final_output self);
   (HUMAN_CORRECTION, human_correction self); (METADATA, metadata self)].
End AuditEventRecord.

(** The argument of [write_event]: a mapping or an [AuditEventRecord]. *)
Inductive event : Type :=
| EventMapping (d : pydict)
| EventRecord (r : AuditEventRecord.t).

Definition get_or_none (d : pydict) (key : pystr) : pyval :=
  default VNone (dict_get d key).

Definition is_none (v : pyval) : bool :=
  match v with VNone => true | _ => false end.

(** [isinstance(v, str) and v.strip()] as a truth value. *)
Definition is_nonblank_str (v : pyval) : bool :=
  match v with VStr s => negb (blank s) | _ => false end.

Section Audit.

(** [str.lower], [str.isdigit] and [str.isalpha] on one character, and
    [json.dumps(v, ensure_ascii=False)], [None] standing for its
    [TypeError]. *)
Variable str_lower : pystr -> pystr.
Variable isdigit : N -> bool.
Variable isalpha : N -> bool.
Variable json_dumps : pyval -> option pystr.

Definition is_sensitive_key (key : pystr) : bool :=
  let key_l := str_lower key in
  bool_decide (key_l ∈ sensitive_keys)
  || contains (lit "token") key_l || contains (lit "secret") key_l.

(** The test of [_mask_value] on a [str]. *)
Definition looks_secret (value : pystr) : bool :=
  contains (lit "@") value && contains (lit ".") value
  || (16 <=? length value)%nat && existsb isdigit value
     && existsb isalpha value.

Fixpoint _mask_value (mask_text : pystr) (value : pyval) : pyval :=
  match value with
  | VDict d =>
      VDict
        (fold_left
           (fun masked kv =>
              if is_sensitive_key (fst kv) then
                dict_set masked (fst kv) (VStr mask_text)
              else
                dict_set masked (fst kv) (_mask_value mask_text (snd kv)))
           d [])
  | VList l => VList (map (_mask_value mask_text) l)
  | VStr s => if looks_secret s then VStr mask_text else value
  | _ => value
  end.

(** [_normalize_human_correction]; [now] is the reading of
    [_utc_now_iso()], [None] the [ValueError]. *)
Definition _normalize_human_correction (now : pystr) (payload : pydict)
    : option pyval :=
  let correction := get_or_none payload HUMAN_CORRECTION in
  let legacy_before := get_or_none payload (lit "before") in
  let legacy_after := get_or_none payload (lit "after") in
  let legacy_operator := get_or_none payload (lit "operator") in
  let legacy_timestamp := get_or_none payload (lit "correction_timestamp") in
  let correction :=
    if is_none correction
       && existsb (fun value => negb (is_none value))
            [legacy_before; legacy_after; legacy_operator; legacy_timestamp]
    then VDict [(lit "before", legacy_before); (lit "after", legacy_after);
                (lit "operator", legacy_operator);
                (lit "timestamp", legacy_timestamp)]
    else correction in
  match correction with
  | VNone => Some VNone
  | VDict correction =>
      let correction_payload := correction in
      let correction_payload :=
        if is_none (get_or_none correction_payload (lit "before"))
        then dict_set correction_payload (lit "before") legacy_before
        else correction_payload in
      let correction_payload :=
        if is_none (get_or_none correction_payload (lit "after"))
        then dict_set correction_payload (lit "after") legacy_after
        else correction_payload in
      let operator_value := get_or_none correction_payload (lit "operator") in
      let correction_payload :=
        match nonblank_str operator_value with
        | None =>
            dict_set correction_payload (lit "operator")
              (VStr (lit "unknown"))
        | Some s =>
            dict_set correction_payload (lit "operator") (VStr (strip s))
        end in
      let timestamp_value :=
        get_or_none correction_payload (lit "timestamp") in
      let correction_payload :=
        if is_nonblank_str timestamp_value then correction_payload
        else dict_set correction_payload (lit "timestamp") (VStr now) in
      Some (VDict correction_payload)
  | _ => None
  end.

(** [_to_event_payload]; [now] and [now'] are the two readings of the
    clock, [None] the [ValueError]. *)
Definition _to_event_payload (now now' : pystr) (ev : event)
    : option pydict :=
  let payload :=
    match ev with
    | EventRecord r => AuditEventRecord.as_dict r
    | EventMapping d => d
    end in
  let order_id := get_or_none payload ORDER_ID in
  let event_type := get_or_none payload EVENT_TYPE in
  if negb (is_nonblank_str order_id) then None
  else if negb (is_nonblank_str event_type) then None
  else
    let payload := dict_setdefault payload TIMESTAMP (VStr now) in
    let payload := dict_setdefault payload RAW_TEXT VNone in
    let payload := dict_setdefault payload PARSE_RESULT VNone in
    let payload := dict_setdefault payload CANDIDATES VNone in
    let payload := dict_setdefault payload LLM_REQUEST VNone in
    let payload := dict_setdefault payload LLM_RESPONSE VNone in
    let payload := dict_setdefault payload FALLBACK_REASON VNone in
    let payload := dict_setdefault payload MERGE_RESULT VNone in
    let payload := dict_setdefault payload FINAL_OUTPUT VNone in
    let payload := dict_setdefault payload HUMAN_CORRECTION VNone in
    let payload := dict_setdefault payload METADATA (VDict []) in
    let payload := dict_setdefault payload NEEDS_REVIEW (VBool false) in
    match _normalize_human_correction now' payload with
    | None => None
    | Some correction => Some (dict_set payload HUMAN_CORRECTION correction)
    end.

Definition _mask_llm_fields (payload : pydict) : pydict :=
  let masked := payload in
  let masked :=
    dict_set masked LLM_REQUEST
      (_mask_value MASK_TEXT (get_or_none masked LLM_REQUEST)) in
  let masked :=
    dict_set masked LLM_RESPONSE
      (_mask_value MASK_TEXT (get_or_none masked LLM_RESPONSE)) in
  masked.

(** [write_event]: the text of the log file before, the returned payload
    and the text of the file afterwards. *)
Definition write_event (file : pystr) (now now' : pystr) (ev : event)
    (mask_sensitive : bool) : option (pydict * pystr) :=
  match _to_event_payload now now' ev with
  | None => None
  | Some payload =>
      let payload :=
        if mask_sensitive then _mask_llm_fields payload else payload in
      match json_dumps (VDict payload) with
      | None => None
      | Some text => Some (payload, file ++ text ++ [10%N])
      end
  end.

(** [_event_needs_review] *)
Definition _event_needs_review (ev : pydict) : bool :=
  let is_true (v : pyval) :=
    match v with VBool true => true | _ => false end in
  if is_true (get_or_none ev NEEDS_REVIEW) then true
  else if match get_or_none ev METADATA with
          | VDict metadata => is_true (get_or_none metadata NEEDS_REVIEW)
          | _ => false
          end then true
  else if is_nonblank_str (get_or_none ev FALLBACK_REASON) then true
  else
    existsb
      (fun field =>
         match get_or_none ev field with
         | VDict value =>
             is_true (get_or_none value (lit "overall_needs_review"))
             || is_true (get_or_none value NEEDS_REVIEW)
         | _ => false
         end)
      [MERGE_RESULT; FINAL_OUTPUT].

End Audit.

(** Instances for the worked examples: the ASCII part of [str.lower],
    [str.isdigit] and [str.isalpha]. *)
Definition ascii_lower (s : pystr) : pystr :=
  map (fun c => if (65 <=? c) && (c <=? 90) then c + 32 else c)%N s.

Definition ascii_isdigit (c : N) : bool := ((48 <=? c) && (c <=? 57))%N.

Definition ascii_isalpha (c : N) : bool :=
  ((65 <=? c) && (c <=? 90) || (97 <=? c) && (c <=? 122))%N.

(** An encoder for the worked examples, standing in for [json.dumps]. *)
Definition example_dumps (v : pyval) : option pystr :=
  Some (Cache.dumps_default Cache.repr_integral v).

Definition example_now : pystr := lit "2026-01-01T00:00:00+00:00".

(** An event with an e-mail address in a field of its own and a key in its
    LLM request, and the payload [write_event] returns for it. *)
Definition example_event : event :=
  EventMapping
    [(ORDER_ID, VStr (lit "o1")); (EVENT_TYPE, VStr (lit "llm_call"));
     (LLM_REQUEST,
      VDict [(lit "api_key", VStr (lit "k"));
             (lit "prompt", VStr (lit "hello"))]);
     (lit "note", VStr (lit "a@b.c"))].

Definition example_masked_payload : pydict :=
  [(ORDER_ID, VStr (lit "o1")); (EVENT_TYPE, VStr (lit "llm_call"));
   (LLM_REQUEST,
    VDict [(lit "api_key", VStr MASK_TEXT);
           (lit "prompt", VStr (lit "hello"))]);
   (lit "note", VStr (lit "a@b.c"));
   (TIMESTAMP, VStr example_now); (RAW_TEXT, VNone); (PARSE_RESULT, VNone);
   (CANDIDATES, VNone); (LLM_RESPONSE, VNone); (FALLBACK_REASON, VNone);
   (MERGE_RESULT, VNone); (FINAL_OUTPUT, VNone); (HUMAN_CORRECTION, VNone);
   (METADATA, VDict []); (NEEDS_REVIEW, VBool false)].

Definition example_file : pystr :=
  default [] (example_dumps (VDict example_masked_payload)) ++ [10%N].

End Audit.

(** ** candidates.py *)

Module Candidates.

(** The characters of [_COMMON_SYMBOLS_RE]. *)
Definition _COMMON_SYMBOLS : list N :=
  [33; 34; 35; 36; 37; 38; 39; 40; 41; 42; 43; 44; 45; 46; 47; 58; 59; 60;
   61; 62; 63; 64; 91; 93; 92; 94; 95; 96; 123; 124; 125; 126; 65292; 12290;
   65281; 65311; 12289; 65307; 65306; 65295; 65288; 65289; 12304; 12305;
   12300; 12301; 12302; 12303; 12298; 12299; 12296; 12297; 183; 65294]%N.

Definition _W_CHAR : pyfloat := PyFloat.decimal 50 100.
Definition _W_PARTIAL : pyfloat := PyFloat.decimal 30 100.
Definition _W_TOKEN : pyfloat := PyFloat.decimal 20 100.
Definition _LOW_CONFIDENCE_THRESHOLD : pyfloat := PyFloat.of_Z 55.

Definition TOKEN : pystr := lit "token".
Definition STRING : pystr := lit "string".
Definition CANONICAL : pystr := lit "canonical".
Definition ALIAS : pystr := lit "alias".

Module _CatalogEntry.
Record t := mk {
  item_id : pystr; canonical_name : pystr; aliases : list pystr }.
End _CatalogEntry.

(** [rapidfuzz.fuzz], when the import succeeds: [float(fuzz.ratio(l, r))]
    and [float(fuzz.partial_ratio(l, r))]. *)
Module Fuzz.
Record t := mk {
  ratio : pystr -> pystr -> pyfloat;
  partial_ratio : pystr -> pystr -> pyfloat }.
End Fuzz.

(** [max(a, b)] and [min(a, b)] on two floats: the first argument unless
    the second is strictly beyond it. *)
Definition pymax (a b : pyfloat) : pyfloat :=
  if PyFloat.ltb a b then b else a.
Definition pymin (a b : pyfloat) : pyfloat :=
  if PyFloat.ltb b a then b else a.

(** [_COMMON_SYMBOLS_RE.sub(" ", text)] *)
Definition sub_common_symbols (text : pystr) : pystr :=
  map (fun c => if existsb (N.eqb c) _COMMON_SYMBOLS then 32%N else c) text.

(** [text.split(" ")] *)
Fixpoint split_on (sep : N) (text : pystr) : list pystr :=
  match text with
  | [] => [[]]
  | c :: rest =>
      if (c =? sep)%N then [] :: split_on sep rest
      else
        match split_on sep rest with
        | part :: parts => (c :: part) :: parts
        | [] => [[c]]
        end
  end.

(** [compact[i : i + 2] for i in range(len(compact) - 1)] *)
Fixpoint bigrams (compact : pystr) : list pystr :=
  match compact with
  | a :: (b :: _) as rest => [a; b] :: bigrams rest
  | _ => []
  end.

Definition _compact_text (text : pystr) : pystr :=
  List.filter (fun c => negb (c =? 32)%N) text.

Definition _token_similarity (left_tokens right_tokens : gset pystr)
    : pyfloat :=
  if bool_decide (left_tokens = ∅) || bool_decide (right_tokens = ∅)
  then PyFloat.zero
  else
    let inter := size (left_tokens ∩ right_tokens) in
    let union := size (left_tokens ∪ right_tokens) in
    if (union =? 0)%nat then PyFloat.zero
    else
      PyFloat.mul
        (PyFloat.div (PyFloat.of_Z (Z.of_nat inter))
           (PyFloat.of_Z (Z.of_nat union)))
        (PyFloat.of_Z 100).

(** [sorted(rows, key=...)] for a key compared by [lt]; the sort is
    stable. *)
Fixpoint insert_lt {A} (lt : A -> A -> bool) (x : A) (l : list A) : list A :=
  match l with
  | [] => [x]
  | y :: rest =>
      if lt y x then y :: insert_lt lt x rest else x :: y :: rest
  end.

Definition sorted_lt {A} (lt : A -> A -> bool) (l : list A) : list A :=
  foldr (insert_lt lt) [] l.

(** A row of [scored]: score, basis, matched text and entry. *)
Definition row : Type := pyfloat * pystr * pystr * _CatalogEntry.t.

Definition row_score (r : row) : pyfloat := r.1.1.1.
Definition row_basis (r : row) : pystr := r.1.1.2.
Definition row_text (r : row) : pystr := r.1.2.
Definition row_entry (r : row) : _CatalogEntry.t := r.2.

(** [key(a) < key(b)] for the key
    [(-row[0], row[3].canonical_name, row[3].item_id)]. *)
Definition row_lt (a b : row) : bool :=
  if PyFloat.eqb (PyFloat.opp (row_score a)) (PyFloat.opp (row_score b))
  then
    if bool_decide (_CatalogEntry.canonical_name (row_entry a)
                    = _CatalogEntry.canonical_name (row_entry b))
    then str_ltb (_CatalogEntry.item_id (row_entry a))
           (_CatalogEntry.item_id (row_entry b))
    else str_ltb (_CatalogEntry.canonical_name (row_entry a))
           (_CatalogEntry.canonical_name (row_entry b))
  else PyFloat.ltb (PyFloat.opp (row_score a)) (PyFloat.opp (row_score b)).

(** [a or b] *)
Definition py_or (a b : pyval) : pyval := if truthy a then a else b.

Section Candidates.

(** [unicodedata.normalize("NFKC", text).lower()], the module [fuzz]
    ([None] when rapidfuzz is not installed),
    [SequenceMatcher(a=a, b=b).ratio()], the builtins [str(v)] and
    [round(x, 4)]. *)
Variable nfkc_lower : pystr -> pystr.
Variable fuzz : option Fuzz.t.
Variable sequence_ratio : pystr -> pystr -> pyfloat.
Variable py_str : pyval -> pystr.
Variable round4 : pyfloat -> pyfloat.

Definition _normalize_text (text : pystr) : pystr :=
  let normalized := nfkc_lower text in
  let normalized := sub_common_symbols normalized in
  let normalized := sub_multi_space false normalized in
  strip normalized.

Definition _tokenize (text : pystr) : gset pystr :=
  let normalized := _normalize_text text in
  let compact := _compact_text normalized in
  match compact with
  | [] => ∅
  | _ :: _ =>
      let tokens : gset pystr :=
        list_to_set (List.filter nonempty (split_on 32 normalized)) in
      if (length compact =? 1)%nat then tokens ∪ {[compact]}
      else tokens ∪ list_to_set (bigrams compact)
  end.

Definition _ratio (left right : pystr) : pyfloat :=
  if negb (nonempty left) || negb (nonempty right) then PyFloat.zero
  else
    match fuzz with
    | Some f => Fuzz.ratio f left right
    | None => PyFloat.mul (sequence_ratio left right) (PyFloat.of_Z 100)
    end.

Definition _partial_ratio (left right : pystr) : pyfloat :=
  if negb (nonempty left) || negb (nonempty right) then PyFloat.zero
  else
    match fuzz with
    | Some f => Fuzz.partial_ratio f left right
    | None =>
        let '(short, long) :=
          if (length left <=? length right)%nat then (left, right)
          else (right, left) in
        if contains short long then PyFloat.of_Z 100
        else if (length short =? length long)%nat then _ratio short long
        else
          let window := length short in
          fold_left
            (fun max_score start =>
               let score :=
                 PyFloat.mul
                   (sequence_ratio short (take window (drop start long)))
                   (PyFloat.of_Z 100) in
               if PyFloat.ltb max_score score then score else max_score)
            (seq 0 (length long - window + 1)) PyFloat.zero
    end.

(** The locals [char_score], [partial_score] and [token_score] of
    [_score_match]. *)
Definition char_score (query candidate : pystr) : pyfloat :=
  _ratio (_compact_text (_normalize_text query))
    (_compact_text (_normalize_text candidate)).

Definition partial_score (query candidate : pystr) : pyfloat :=
  _partial_ratio (_compact_text (_normalize_text query))
    (_compact_text (_normalize_text candidate)).

Definition token_score (query candidate : pystr) : pyfloat :=
  _token_similarity (_tokenize (_normalize_text query))
    (_tokenize (_normalize_text candidate)).

Definition _score_match (query candidate : pystr) : pyfloat * pystr :=
  let query_compact := _compact_text (_normalize_text query) in
  let candidate_compact := _compact_text (_normalize_text candidate) in
  let score :=
    PyFloat.add
      (PyFloat.add (PyFloat.mul _W_CHAR (char_score query candidate))
         (PyFloat.mul _W_PARTIAL (partial_score query candidate)))
      (PyFloat.mul _W_TOKEN (token_score query candidate)) in
  let score :=
    if nonempty query_compact && nonempty candidate_compact
       && (contains query_compact candidate_compact
           || contains candidate_compact query_compact)
    then PyFloat.add score (PyFloat.of_Z 5) else score in
  let score := pymax PyFloat.zero (pymin (PyFloat.of_Z 100) score) in
  let basis :=
    if PyFloat.leb
         (PyFloat.add
            (pymax (char_score query candidate)
               (partial_score query candidate))
            (PyFloat.of_Z 5))
         (token_score query candidate)
    then TOKEN else STRING in
  (score, basis).

(** [str(alias) for alias in values if str(alias).strip()] *)
Definition nonblank_strs (values : list pyval) : list pystr :=
  List.filter (fun text => negb (blank text)) (map py_str values).

Definition _coerce_aliases (raw_aliases : pyval) : list pystr :=
  match raw_aliases with
  | VNone => []
  | VDict d => nonblank_strs (map snd d)
  | VStr s => let text := strip s in if nonempty text then [text] else []
  | VList l | VTuple l => nonblank_strs l
  | _ =>
      let text := strip (py_str raw_aliases) in
      if nonempty text then [text] else []
  end.

Definition _normalize_catalog_entry (item_id payload : pyval)
    : _CatalogEntry.t :=
  let '(canonical_name, aliases) :=
    match payload with
    | VStr s => (s, [])
    | VDict d =>
        let raw_name :=
          py_or (default VNone (dict_get d (lit "canonical_name")))
            (default VNone (dict_get d (lit "name"))) in
        (py_str (py_or raw_name item_id),
         _coerce_aliases
           (default (default VNone (dict_get d (lit "alias")))
              (dict_get d (lit "aliases"))))
    | VList l | VTuple l =>
        match nonblank_strs l with
        | name :: names => (name, names)
        | [] => (py_str item_id, [])
        end
    | _ =>
        let text := strip (py_str payload) in
        (if nonempty text then text else py_str item_id, [])
    end in
  let canonical_name := strip canonical_name in
  let item_id_text := strip (py_str item_id) in
  let item_id_text :=
    if nonempty item_id_text then item_id_text
    else if nonempty canonical_name then canonical_name
    else lit "unknown_item" in
  let canonical_name :=
    if nonempty canonical_name then canonical_name else item_id_text in
  _CatalogEntry.mk item_id_text canonical_name aliases.

(** [payload.get("item_id") or payload.get("id")] *)
Definition payload_item_id (d : pydict) : pyval :=
  py_or (default VNone (dict_get d (lit "item_id")))
    (default VNone (dict_get d (lit "id"))).

Definition has_text (v : pyval) : bool :=
  match v with
  | VNone => false
  | _ => negb (blank (py_str v))
  end.

Definition _as_catalog_entries (menu_catalog : pyval)
    : list _CatalogEntry.t :=
  match menu_catalog with
  | VDict items =>
      map (fun kv =>
             let entry_item_id :=
               match snd kv with
               | VDict payload =>
                   if has_text (payload_item_id payload)
                   then payload_item_id payload
                   else VStr (fst kv)
               | _ => VStr (fst kv)
               end in
             _normalize_catalog_entry entry_item_id (snd kv))
        items
  | VList l | VTuple l =>
      omap (fun ip =>
              match snd ip with
              | VDict payload =>
                  let item_id := payload_item_id payload in
                  let item_id :=
                    if has_text item_id then item_id
                    else
                      py_or
                        (py_or
                           (default VNone
                              (dict_get payload (lit "canonical_name")))
                           (default VNone (dict_get payload (lit "name"))))
                        (VStr (lit "list_item_"
                               ++ str_of_int (Z.of_nat (fst ip)))) in
                  Some (_normalize_catalog_entry item_id (VDict payload))
              | _ => None
              end)
        (imap (fun i payload => (i, payload)) l)
  | _ => []
  end.

(** The body of the loop over [entries] in [generate_candidates]: the
    row appended to [scored]. *)
Definition score_entry (name_raw : pystr) (entry : _CatalogEntry.t) : row :=
  let best_score := PyFloat.of_Z (-1) in
  let best_basis := CANONICAL in
  let matched_text := _CatalogEntry.canonical_name entry in
  let '(canonical_score, canonical_basis) :=
    _score_match name_raw (_CatalogEntry.canonical_name entry) in
  let '(best_score, best_basis, matched_text) :=
    if PyFloat.ltb best_score canonical_score then
      (canonical_score,
       if bool_decide (canonical_basis = TOKEN) then TOKEN else CANONICAL,
       _CatalogEntry.canonical_name entry)
    else (best_score, best_basis, matched_text) in
  let '(best_score, best_basis, matched_text) :=
    fold_left
      (fun best alias =>
         let '(best_score, best_basis, matched_text) := best in
         let '(alias_score, alias_basis) := _score_match name_raw alias in
         if PyFloat.ltb best_score alias_score then
           (alias_score,
            if bool_decide (alias_basis = TOKEN) then TOKEN else ALIAS,
            alias)
         else best)
      (_CatalogEntry.aliases entry) (best_score, best_basis, matched_text) in
  (best_score, best_basis, matched_text, entry).

(** The rows [selected] for a name: the rows of the entries, sorted, cut
    to [limit]. *)
Definition selected_rows (entries : list _CatalogEntry.t) (limit : Z)
    (name_raw : pystr) : list row :=
  let scored := map (score_entry name_raw) entries in
  let scored := sorted_lt row_lt scored in
  if (0 <? limit)%Z then take (Z.to_nat limit) scored else [].

(** The state of the loop over the names of an entry, after the canonical
    name and the aliases [seen]: the name at place [won] of the names gone
    through holds the best score, which no name reaches before it and no
    name exceeds after it. *)
Definition best_ok (name_raw : pystr) (entry : _CatalogEntry.t)
    (seen : list pystr) (best : pyfloat * pystr * pystr) : Prop :=
  let '(best_score, best_basis, matched_text) := best in
  let names := _CatalogEntry.canonical_name entry :: seen in
  ∃ won : nat,
    names !! won = Some matched_text ∧
    best_score = (_score_match name_raw matched_text).1 ∧
    best_basis
    = (if bool_decide ((_score_match name_raw matched_text).2 = TOKEN)
       then TOKEN
       else if (won =? 0)%nat then CANONICAL else ALIAS) ∧
    ∀ (place : nat) name,
      names !! place = Some name →
      PyFloat.leb (_score_match name_raw name).1 best_score = true ∧
      ((place < won)%nat →
       PyFloat.ltb (_score_match name_raw name).1 best_score = true).

(** The candidates of one line: the body of the loop over [lines]. *)
Definition line_candidates (entries : list _CatalogEntry.t) (limit : Z)
    (low_confidence_threshold : pyfloat) (line : MergeValidate.RawLine.t)
    : list MergeValidate.CandidateItem.t :=
  let line_index := MergeValidate.RawLine.line_index line in
  let raw_line := MergeValidate.RawLine.raw_line line in
  let name_raw := MergeValidate.RawLine.name_raw line in
  let qty :=
    if (MergeValidate.RawLine.qty line =? 0)%Z then 1%Z
    else MergeValidate.RawLine.qty line in
  let note_raw := MergeValidate.RawLine.note_raw line in
  let line_needs_review := MergeValidate.RawLine.needs_review line in
  let scored := map (score_entry name_raw) entries in
  let scored := sorted_lt row_lt scored in
  let selected :=
    if (0 <? limit)%Z then take (Z.to_nat limit) scored else [] in
  let best_line_score :=
    match selected with
    | first :: _ => row_score first
    | [] => PyFloat.zero
    end in
  let low_confidence :=
    PyFloat.ltb best_line_score low_confidence_threshold in
  imap
    (fun i r =>
       let rank := (Z.of_nat i + 1)%Z in
       let score := row_score r in
       let entry := row_entry r in
       let review_reason :=
         if low_confidence then lit "best_score_below_threshold"
         else lit "ok" in
       MergeValidate.CandidateItem.mk line_index raw_line name_raw qty
         (_CatalogEntry.canonical_name entry)
         (Some (_CatalogEntry.item_id entry))
         note_raw [] None (Some (round4 score)) None
         (line_needs_review || low_confidence)
         [(lit "match_basis", VStr (row_basis r));
          (lit "score", VFloat (round4 score));
          (lit "low_confidence", VBool low_confidence);
          (lit "matched_text", VStr (row_text r));
          (lit "rank", VInt rank);
          (lit "best_line_score", VFloat (round4 best_line_score));
          (lit "low_confidence_threshold",
           VFloat (round4 low_confidence_threshold));
          (lit "review_reason", VStr review_reason)]
         MergeValidate.CONTRACT_VERSION)
    selected.

(** [generate_candidates], on lines that are [RawLine] objects. *)
Definition generate_candidates (lines : list MergeValidate.RawLine.t)
    (menu_catalog : pyval) (top_k : Z) (low_confidence_threshold : pyfloat)
    : MergeValidate.CandidatesByLine :=
  let entries := _as_catalog_entries menu_catalog in
  let limit := Z.max 0 top_k in
  fold_left
    (fun candidates_by_line line =>
       <[MergeValidate.RawLine.line_index line :=
           line_candidates entries limit low_confidence_threshold line]>
         candidates_by_line)
    lines ∅.

End Candidates.

(** *** [difflib.SequenceMatcher] on sequences shorter than 200 elements,
    where no element is junk *)

Fixpoint common_prefix (a b : pystr) : nat :=
  match a, b with
  | x :: a', y :: b' => if (x =? y)%N then S (common_prefix a' b') else 0
  | _, _ => 0
  end.

(** [find_longest_match]: the longest common block, the one that starts
    earliest in [a] and, among those, earliest in [b]. *)
Definition find_longest_match (a b : pystr) : nat * nat * nat :=
  fold_left
    (fun best i =>
       fold_left
         (fun best j =>
            let k := common_prefix (drop i a) (drop j b) in
            if (best.2 <? k)%nat then (i, j, k) else best)
         (seq 0 (length b)) best)
    (seq 0 (length a)) (0, 0, 0)%nat.

(** The sum of the sizes of [get_matching_blocks()]. *)
Fixpoint matching_size (fuel : nat) (a b : pystr) : nat :=
  match fuel with
  | O => 0
  | S fuel =>
      let '(i, j, k) := find_longest_match a b in
      if (k =? 0)%nat then 0%nat
      else
        (matching_size fuel (take i a) (take j b) + k
         + matching_size fuel (drop (i + k) a) (drop (j + k) b))%nat
  end.

(** [ratio()]: [2.0 * matches / length], and [1.0] for two empty
    sequences. *)
Definition difflib_ratio (a b : pystr) : pyfloat :=
  let total := (length a + length b)%nat in
  if (total =? 0)%nat then PyFloat.of_Z 1
  else
    PyFloat.div
      (PyFloat.mul (PyFloat.of_Z 2)
         (PyFloat.of_Z (Z.of_nat (matching_size (S (length a)) a b))))
      (PyFloat.of_Z (Z.of_nat total)).

(** Instances for the worked examples: text that NFKC and [lower] leave
    as it is, and a rounding that leaves a number of at most four decimals
    as it is. *)
Definition nfkc_lower_id (text : pystr) : pystr := text.
Definition round4_exact (x : pyfloat) : pyfloat := x.
Definition str_of_text (v : pyval) : pystr :=
  match v with VStr s => s | _ => [] end.

End Candidates.

(** ** Regular expressions of the module [re], as parser.py uses them *)

Module Regex.
Local Open Scope nat_scope.

(** A member of a character set: one character, a range, [\s] or [\d]. *)
Inductive item : Type :=
| IChar (c : N)
| IRange (lo hi : N)
| ISpace
| IDigit.

(** [.], [[...]], [[^...]]. *)
Inductive cls : Type :=
| CAny
| CSet (items : list item)
| CNot (items : list item).

(** The patterns: the empty pattern, one character of a class, a class
    repeated between [lo] and [hi] times (greedy or lazy), concatenation,
    alternation, an optional group, [^], [$] and a capturing group.  No
    pattern of the parser repeats anything but a class. *)
Inductive re : Type :=
| Eps
| Chr (c : cls)
| Rep (c : cls) (lo : nat) (hi : option nat) (greedy : bool)
| Seq (a b : re)
| Alt (a b : re)
| Opt (a : re)
| Bol
| Eol
| Cap (g : nat) (a : re).

(** A point of a match: the text that remains, whether the point is the
    start of the string, and the groups captured so far. *)
Record st := mk {
  rest : pystr; bol : bool; groups : list (nat * pystr) }.

(** Both cases of an ASCII letter have the same fold.  Under
    [re.IGNORECASE] the letters of the patterns of the parser (t, e, l, x,
    n, d, w) match their two cases and nothing else. *)
Definition fold_case (c : N) : N :=
  (if (65 <=? c) && (c <=? 90) then c + 32 else c)%N.

Section Engine.

(** [str.isdecimal] on one character, the class [\d] of a [str] pattern,
    and the flag [re.IGNORECASE] of the pattern. *)
Variable isdecimal : N -> bool.
Variable ignorecase : bool.

Definition item_match (it : item) (x : N) : bool :=
  match it with
  | IChar c =>
      (x =? c)%N || ignorecase && (fold_case x =? fold_case c)%N
  | IRange lo hi => ((lo <=? x) && (x <=? hi))%N
  | ISpace => isspace x
  | IDigit => isdecimal x
  end.

Definition cls_match (c : cls) (x : N) : bool :=
  match c with
  | CAny => negb (x =? 10)%N
  | CSet items => existsb (fun it => item_match it x) items
  | CNot items => negb (existsb (fun it => item_match it x) items)
  end.

(** The number of leading characters of [s] in the class, [limit] at
    most. *)
Fixpoint span (c : cls) (limit : option nat) (s : pystr) : nat :=
  match s with
  | [] => 0
  | x :: t =>
      if cls_match c x then
        match limit with
        | Some 0 => 0
        | Some (S n) => S (span c (Some n) t)
        | None => S (span c None t)
        end
      else 0
  end.

(** The ways to match a pattern from a point, in the order in which the
    backtracking matcher tries them. *)
Fixpoint run (r : re) (s : st) : list st :=
  match r with
  | Eps => [s]
  | Chr c =>
      match rest s with
      | x :: t => if cls_match c x then [mk t false (groups s)] else []
      | [] => []
      end
  | Rep c lo hi greedy =>
      let most := span c hi (rest s) in
      let counts := seq lo (S most - lo) in
      map (fun n => mk (drop n (rest s)) (bol s && (n =? 0)%nat) (groups s))
        (if greedy then rev counts else counts)
  | Seq a b => flat_map (run b) (run a s)
  | Alt a b => run a s ++ run b s
  | Opt a => run a s ++ [s]
  | Bol => if bol s then [s] else []
  | Eol =>
      match rest s with
      | [] => [s]
      | [c] => if (c =? 10)%N then [s] else []
      | _ => []
      end
  | Cap g a =>
      map (fun s' =>
             mk (rest s') (bol s')
               ((g, take (length (rest s) - length (rest s')) (rest s))
                :: groups s'))
        (run a s)
  end.

(** [pattern.match(text)] *)
Definition match_ (r : re) (text : pystr) : option st :=
  head (run r (mk text true [])).

(** [pattern.search(text)]: the start of the leftmost match and the match,
    [i] being the offset of [text] in the string searched. *)
Fixpoint search_from (r : re) (i : nat) (text : pystr)
    : option (nat * st) :=
  match head (run r (mk text (i =? 0)%nat [])) with
  | Some m => Some (i, m)
  | None =>
      match text with
      | [] => None
      | _ :: t => search_from r (S i) t
      end
  end.

Definition search (r : re) (text : pystr) : option (nat * st) :=
  search_from r 0 text.

(** [m.group(g)] of a group that took part in the match. *)
Definition group (m : st) (g : nat) : pystr :=
  default []
    (snd <$> List.find (fun kv => (fst kv =? g)%nat) (groups m)).

(** [pattern.sub("", text)] for a pattern that matches no empty string:
    every match is removed, from the left. *)
Fixpoint sub_empty (fuel : nat) (r : re) (i : nat) (text : pystr) : pystr :=
  match fuel with
  | O => text
  | S fuel =>
      match search_from r i text with
      | None => text
      | Some (j, m) =>
          take (j - i) text
          ++ sub_empty fuel r (i + (length text - length (rest m))) (rest m)
      end
  end.

End Engine.

(** Shorthands for the patterns. *)
Definition chars (l : list N) : cls := CSet (map IChar l).
Definition space : cls := CSet [ISpace].
Definition nonspace : cls := CNot [ISpace].
Definition digit : cls := CSet [IDigit].

(** [\s*], [\s+], [c?] and [c{lo,hi}]. *)
Definition ws : re := Rep space 0 None true.
Definition ws1 : re := Rep space 1 None true.
Definition maybe (c : cls) : re := Rep c 0 (Some 1%nat) true.
Definition between (c : cls) (lo hi : nat) : re := Rep c lo (Some hi) true.

Definition text (l : pystr) : re :=
  foldr (fun c r => Seq (Chr (CSet [IChar c])) r) Eps l.

Definition seqs (l : list re) : re := foldr Seq Eps l.

Fixpoint alts (l : list re) : re :=
  match l with
  | [] => Chr (CSet [])
  | [r] => r
  | r :: rest => Alt r (alts rest)
  end.

End Regex.

(** ** parser.py *)

Module Parser.
Import Regex.

(** [_SYMBOL_MAP] *)
Definition _SYMBOL_MAP (c : N) : N :=
  (if c =? 65306 then 58
   else if c =? 65288 then 40
   else if c =? 65289 then 41
   else if c =? 65290 then 42
   else if c =? 65121 then 42
   else if c =? 65284 then 36
   else if c =? 65336 then 120
   else if c =? 65368 then 120
   else if c =? 215 then 120
   else if c =? 12288 then 32
   else c)%N.

(** Words of the patterns, as code points. *)
Definition W_DIANHUA : pystr := [38651; 35441]%N.
Definition W_DIZHI : pystr := [22320; 22336]%N.
Definition W_TONGBIAN : pystr := [32113; 32232]%N.
Definition W_DANHAO : pystr := [21934; 34399]%N.
Definition W_DINGDAN : pystr := [35330; 21934]%N.
Definition W_SHIJIAN : pystr := [26178; 38291]%N.
Definition W_RIQI : pystr := [26085; 26399]%N.
Definition W_ZONGJI : pystr := [32317; 35336]%N.
Definition W_XIAOJI : pystr := [23567; 35336]%N.
Definition W_HEJI : pystr := [21512; 35336]%N.
Definition W_YINGSHOU : pystr := [25033; 25910]%N.
Definition W_ZHAOLING : pystr := [25214; 38646]%N.
Definition W_BEIZHU : pystr := [20633; 35387]%N.
Definition W_ZHUJI : pystr := [35387; 35352]%N.
Definition W_FUZHU : pystr := [38468; 35387]%N.
Definition W_BEIZHU_SIMPLIFIED : pystr := [22791; 27880]%N.
Definition C_ZHUAN : N := 36681%N.
Definition C_FEN : N := 20221%N.
Definition C_YUAN : N := 20803%N.

(** The groups of the patterns, by number. *)
Definition G_NAME : nat := 1.
Definition G_BASE : nat := 1.
Definition G_BODY : nat := 1.
Definition G_QTY : nat := 2.
Definition G_QTY_TEXT : nat := 2.
Definition G_NOTE : nat := 2.
Definition G_AMOUNT : nat := 2.

(** [.+?] in a group, [[x*]] and [-?\d+]. *)
Definition lazy_text (g : nat) : re := Cap g (Rep CAny 1 None false).
Definition x_or_star : re := Chr (chars (lit "x*")).
Definition signed_digits : re :=
  Seq (maybe (chars (lit "-"))) (Rep digit 1 None true).

(** [\d+(?:\.\d{1,2})?] *)
Definition amount : re :=
  Seq (Rep digit 1 None true)
    (Opt (Seq (Chr (chars (lit "."))) (between digit 1 2))).

Definition note_words : re :=
  alts [text W_BEIZHU; text W_ZHUJI; text W_FUZHU;
        text W_BEIZHU_SIMPLIFIED].

(** [(?::\s*|\s+)] *)
Definition note_separator : re :=
  Alt (Seq (Chr (chars (lit ":"))) ws) ws1.

Definition _LEADING_MARKER_RE : re :=
  seqs [Bol; ws;
        alts [Rep (chars ([42; 45; 8226; 9679; 35]%N)) 1 None true;
              Seq (between digit 1 3) (Chr (chars [46; 41; 12289]%N));
              seqs [Chr (chars [40; 65288]%N); between digit 1 3;
                    Chr (chars [41; 65289]%N)];
              Seq (Chr (CSet [IRange 65 90; IRange 97 122]))
                (Chr (chars (lit ".)")))];
        ws].

Definition _SEPARATOR_RE : re :=
  seqs [Bol;
        Rep (CSet (map IChar (lit "-=~_*#") ++ [ISpace])) 3 None true;
        Eol].

(** Compiled with [re.IGNORECASE]. *)
Definition _PHONE_ONLY_RE : re :=
  seqs [Bol; ws; Opt (Alt (text W_DIANHUA) (text (lit "tel"))); ws;
        maybe (chars (lit ":")); ws;
        Opt (seqs [maybe (chars (lit "+")); text (lit "886");
                   maybe (CSet [IChar 45; ISpace])]);
        Alt
          (seqs [text (lit "0"); between digit 1 2;
                 maybe (CSet [IChar 45; ISpace]); between digit 6 8])
          (seqs [text (lit "09"); between digit 2 2;
                 maybe (CSet [IChar 45; ISpace]); between digit 3 3;
                 maybe (CSet [IChar 45; ISpace]); between digit 3 3]);
        Opt (seqs [ws;
                   alts [text (lit "#");
                         Seq (text (lit "ext")) (maybe (chars (lit ".")));
                         text [C_ZHUAN]];
                   ws; between digit 1 5]);
        ws; Eol].

(** [\d{1,2}:\d{2}(?::\d{2})?] *)
Definition clock_time : re :=
  seqs [between digit 1 2; text (lit ":"); between digit 2 2;
        Opt (Seq (text (lit ":")) (between digit 2 2))].

Definition _DATETIME_ONLY_RE : re :=
  seqs [Bol; ws;
        Alt
          (seqs [between digit 4 4; Chr (chars (lit "/-"));
                 between digit 1 2; Chr (chars (lit "/-"));
                 between digit 1 2; Opt (Seq ws1 clock_time)])
          clock_time;
        ws; Eol].

(** Compiled with [re.IGNORECASE]. *)
Definition _NOTE_RE : re :=
  seqs [note_words; ws; note_separator; Cap 1 (Rep CAny 1 None true); Eol].

Definition _TRAILING_PAREN_RE : re :=
  seqs [Bol; lazy_text G_BASE; ws; text (lit "(");
        Cap G_NOTE (Rep (CNot (map IChar (lit "()"))) 1 None true);
        text (lit ")"); ws; Eol].

(** Compiled with [re.IGNORECASE]. *)
Definition _QTY_X_OR_STAR_RE : re :=
  seqs [Bol; lazy_text G_NAME; ws; x_or_star; ws; Cap G_QTY signed_digits;
        ws; Eol].

Definition _QTY_FEN_RE : re :=
  seqs [Bol; lazy_text G_NAME; ws1; Cap G_QTY signed_digits; ws;
        text [C_FEN]; ws; Eol].

Definition _QTY_PLAIN_RE : re :=
  seqs [Bol; lazy_text G_NAME; ws1; Cap G_QTY signed_digits; ws; Eol].

(** Compiled with [re.IGNORECASE]. *)
Definition _QTY_MARKER_ANY_RE : re :=
  seqs [Bol; lazy_text G_NAME; ws; x_or_star; ws;
        Cap G_QTY_TEXT (Rep nonspace 0 None true); ws; Eol].

Definition _QTY_FEN_ANY_RE : re :=
  seqs [Bol; lazy_text G_NAME; ws1;
        Cap G_QTY_TEXT (Rep nonspace 1 None true); ws; text [C_FEN]; ws;
        Eol].

(** [\d+\s*份] *)
Definition fen_marker : re :=
  seqs [Rep digit 1 None true; ws; text [C_FEN]].

(** Compiled with [re.IGNORECASE]. *)
Definition _HAS_QTY_HINT_RE : re :=
  Alt (seqs [x_or_star; ws; Rep nonspace 1 None true]) fen_marker.

(** Compiled with [re.IGNORECASE]. *)
Definition _HAS_QTY_MARKER_RE : re :=
  seqs [Alt Bol (Chr space); x_or_star; ws; Rep nonspace 1 None true].

Definition _HAS_FEN_MARKER_RE : re := fen_marker.

(** Compiled with [re.IGNORECASE]. *)
Definition _TRAILING_CURRENCY_AMOUNT_RE : re :=
  seqs [Bol; lazy_text G_BODY; ws;
        alts [seqs [text (lit "nt"); maybe (chars (lit "d"));
                    maybe (chars (lit "$"))];
              text (lit "twd"); text (lit "$")];
        ws; Cap G_AMOUNT amount; ws; Eol].

Definition _TRAILING_AMOUNT_UNIT_RE : re :=
  seqs [Bol; lazy_text G_BODY; ws; Cap G_AMOUNT amount; ws; text [C_YUAN];
        ws; Eol].

Definition _TRAILING_PLAIN_AMOUNT_RE : re :=
  seqs [Bol; lazy_text G_BODY; ws1; Cap G_AMOUNT amount; ws; Eol].

Definition noise_words : list pystr :=
  [W_DIANHUA; lit "tel"; W_DIZHI; W_TONGBIAN; W_DANHAO; W_DINGDAN;
   W_SHIJIAN; W_RIQI; W_ZONGJI; W_XIAOJI; W_HEJI; W_YINGSHOU; W_ZHAOLING].

(** Compiled with [re.IGNORECASE]. *)
Definition _NOISE_PREFIX_RE : re :=
  seqs [Bol; ws; alts (map text noise_words);
        alts [Chr space; text (lit ":"); Eol]].

(** Compiled with [re.IGNORECASE]. *)
Definition _STANDALONE_NOTE_RE : re :=
  seqs [Bol; ws; note_words; ws; note_separator;
        Cap 1 (Rep CAny 1 None true); Eol].

(** The two patterns of [_fallback_name], the first with
    [re.IGNORECASE]. *)
Definition fallback_marker_re : re :=
  seqs [x_or_star; ws; signed_digits; ws; Eol].

Definition fallback_count_re : re :=
  seqs [ws; signed_digits; ws; maybe (chars [C_FEN]); ws; Eol].

Definition QTY_OK : pystr := lit "ok".
Definition QTY_MISSING : pystr := lit "missing".
Definition QTY_INVALID : pystr := lit "invalid".

(** A result, or the message of the exception raised. *)
Definition exc (A : Type) : Type := (pystr + A)%type.

Definition exc_bind {A B} (x : exc A) (f : A -> exc B) : exc B :=
  match x with
  | inl e => inl e
  | inr a => f a
  end.

(** [bool(l)] on a list. *)
Definition truthy_list {A} (l : list A) : bool :=
  match l with [] => false | _ => true end.

(** [a or b] on [str]. *)
Definition str_or (a b : pystr) : pystr := if nonempty a then a else b.

(** [s.rstrip("\r")] *)
Fixpoint lstrip_cr (s : pystr) : pystr :=
  match s with
  | c :: t => if (c =? 13)%N then lstrip_cr t else s
  | [] => []
  end.

Definition rstrip_cr (s : pystr) : pystr := rev (lstrip_cr (rev s)).

(** The line boundaries of [str.splitlines]. *)
Definition is_linebreak (c : N) : bool :=
  ((c =? 10) || (c =? 11) || (c =? 12) || (c =? 13) || (c =? 28)
   || (c =? 29) || (c =? 30) || (c =? 133) || (c =? 8232) || (c =? 8233))%N.

(** [text.splitlines()], [current] being the line read so far, last
    character first. *)
Fixpoint splitlines_from (current : pystr) (text : pystr) : list pystr :=
  match text with
  | [] => match current with [] => [] | _ => [rev current] end
  | c :: rest =>
      if (c =? 13)%N then
        match rest with
        | c' :: rest' =>
            if (c' =? 10)%N then rev current :: splitlines_from [] rest'
            else rev current :: splitlines_from [] rest
        | [] => rev current :: splitlines_from [] rest
        end
      else if is_linebreak c then rev current :: splitlines_from [] rest
      else splitlines_from (c :: current) rest
  end.

Definition splitlines (text : pystr) : list pystr := splitlines_from [] text.

Definition _normalize_for_parse (line : pystr) : pystr :=
  let normalized := map _SYMBOL_MAP line in
  let normalized := sub_multi_space false normalized in
  strip normalized.

(** [f"line {index}: ..."] *)
Definition line_message (index : Z) (message : string) : pystr :=
  lit "line " ++ str_of_int index ++ lit ": " ++ lit message.

Section Parser.

(** [str.isdecimal] on one character, and [int(text)] on a text that
    matches [-?\d+] ([inl] carries the message of the [ValueError]). *)
Variable isdecimal : N -> bool.
Variable py_int : pystr -> exc Z.

Local Abbreviation re_match := (match_ isdecimal false).
Local Abbreviation re_match_i := (match_ isdecimal true).
Local Abbreviation re_search := (search isdecimal false).
Local Abbreviation re_search_i := (search isdecimal true).

(** [pattern.match(text)] and [pattern.search(text)] as truth values. *)
Definition matches (ignorecase : bool) (r : re) (text : pystr) : bool :=
  bool_decide (is_Some (match_ isdecimal ignorecase r text)).

Definition found (ignorecase : bool) (r : re) (text : pystr) : bool :=
  bool_decide (is_Some (search isdecimal ignorecase r text)).

(** [_strip_leading_markers]: every turn of the loop but the last two
    shortens the line. *)
Fixpoint strip_leading_markers_loop (fuel : nat) (current : pystr)
    : pystr :=
  match fuel with
  | O => current
  | S fuel =>
      let stripped :=
        strip
          (match re_match _LEADING_MARKER_RE current with
           | Some m => rest m
           | None => current
           end) in
      if bool_decide (stripped = current) then current
      else strip_leading_markers_loop fuel stripped
  end.

Definition _strip_leading_markers (line : pystr) : pystr :=
  strip_leading_markers_loop (S (S (length line))) line.

Definition _is_noise_line (normalized_line : pystr) : bool :=
  if negb (nonempty normalized_line) then true
  else if matches false _SEPARATOR_RE normalized_line then true
  else if matches true _NOISE_PREFIX_RE normalized_line then
    if found true _HAS_QTY_HINT_RE normalized_line then false else true
  else if matches true _PHONE_ONLY_RE normalized_line then true
  else if matches false _DATETIME_ONLY_RE normalized_line then true
  else false.

Definition _extract_inline_note (text : pystr) : pystr * option pystr :=
  match re_search_i _NOTE_RE text with
  | Some (start, matched) =>
      (strip (take start text), Some (strip (group matched 1)))
  | None => (strip text, None)
  end.

(** [_extract_parenthetical_note]: every turn of the loop shortens
    [current]. *)
Fixpoint parenthetical_note_loop (fuel : nat) (current : pystr)
    (notes : list pystr) : pystr * list pystr :=
  match fuel with
  | O => (current, notes)
  | S fuel =>
      match re_match _TRAILING_PAREN_RE current with
      | None => (current, notes)
      | Some matched =>
          parenthetical_note_loop fuel (strip (group matched G_BASE))
            (strip (group matched G_NOTE) :: notes)
      end
  end.

Definition _extract_parenthetical_note (name_with_note : pystr)
    : pystr * list pystr :=
  parenthetical_note_loop (S (length name_with_note))
    (strip name_with_note) [].

Definition _fallback_name (text : pystr) : pystr :=
  let name :=
    strip (sub_empty isdecimal true (S (length text)) fallback_marker_re 0
             text) in
  let name :=
    strip (sub_empty isdecimal false (S (length name)) fallback_count_re 0
             name) in
  str_or name (strip text).

Definition _extract_name_and_qty_once (text : pystr)
    : exc (pystr * option Z * pystr) :=
  match re_match_i _QTY_X_OR_STAR_RE text with
  | Some x_or_star =>
      exc_bind (py_int (group x_or_star G_QTY)) (fun qty =>
      inr (strip (group x_or_star G_NAME), Some qty, QTY_OK))
  | None =>
  match re_match _QTY_FEN_RE text with
  | Some fen =>
      exc_bind (py_int (group fen G_QTY)) (fun qty =>
      inr (strip (group fen G_NAME), Some qty, QTY_OK))
  | None =>
  match re_match_i _QTY_MARKER_ANY_RE text with
  | Some marker_match =>
      let qty_text := strip (group marker_match G_QTY_TEXT) in
      let state := if nonempty qty_text then QTY_INVALID else QTY_MISSING in
      inr (strip (group marker_match G_NAME), None, state)
  | None =>
  match re_match _QTY_FEN_ANY_RE text with
  | Some fen_match => inr (strip (group fen_match G_NAME), None, QTY_INVALID)
  | None =>
  if found true _HAS_QTY_MARKER_RE text
     || found false _HAS_FEN_MARKER_RE text
  then inr (text, None, QTY_INVALID)
  else
    match re_match _QTY_PLAIN_RE text with
    | Some plain =>
        exc_bind (py_int (group plain G_QTY)) (fun qty =>
        inr (strip (group plain G_NAME), Some qty, QTY_OK))
    | None => inr (text, None, QTY_MISSING)
    end
  end end end end.

Definition _strip_trailing_amount (text : pystr) : pystr :=
  let current := strip text in
  match re_match_i _TRAILING_CURRENCY_AMOUNT_RE current with
  | Some matched => strip (group matched G_BODY)
  | None =>
  match re_match _TRAILING_AMOUNT_UNIT_RE current with
  | Some matched => strip (group matched G_BODY)
  | None =>
      match re_match _TRAILING_PLAIN_AMOUNT_RE current with
      | Some plain =>
          let body := strip (group plain G_BODY) in
          if found true _HAS_QTY_HINT_RE body then body else current
      | None => current
      end
  end end.

Definition _extract_name_and_qty (prepared : pystr)
    : exc (pystr * option Z * pystr) :=
  exc_bind (_extract_name_and_qty_once prepared) (fun once =>
  let '(name_raw, qty, state) := once in
  match qty with
  | Some _ => inr (name_raw, qty, state)
  | None =>
      let trimmed := _strip_trailing_amount prepared in
      if bool_decide (trimmed ≠ prepared) then
        exc_bind (_extract_name_and_qty_once trimmed) (fun once' =>
        let '(trimmed_name, trimmed_qty, trimmed_state) := once' in
        if bool_decide (is_Some trimmed_qty)
           || bool_decide (trimmed_state = QTY_INVALID)
        then inr (trimmed_name, trimmed_qty, trimmed_state)
        else inr (name_raw, qty, state))
      else inr (name_raw, qty, state)
  end).

(** [_parse_line]: the line and the warnings it appends. *)
Definition _parse_line (raw_line : pystr) (line_index : Z)
    : exc (MergeValidate.RawLine.t * list pystr) :=
  let normalized := _normalize_for_parse raw_line in
  let prepared := _strip_leading_markers normalized in
  let '(prepared, inline_note) := _extract_inline_note prepared in
  exc_bind (_extract_name_and_qty prepared) (fun extracted =>
  let '(name_token, qty, qty_state) := extracted in
  let '(qty, needs_review, warnings, name_token) :=
    match qty with
    | None =>
        (1%Z, true,
         [if bool_decide (qty_state = QTY_INVALID)
          then line_message line_index "qty invalid, defaulted to 1"
          else line_message line_index "qty missing, defaulted to 1"],
         _fallback_name name_token)
    | Some qty =>
        if (qty <=? 0)%Z then
          (1%Z, true,
           [line_message line_index "qty must be positive, defaulted to 1"],
           name_token)
        else (qty, false, [], name_token)
    end in
  let '(name_raw, note_parts) := _extract_parenthetical_note name_token in
  let note_parts :=
    match inline_note with
    | Some note => if nonempty note then note_parts ++ [note] else note_parts
    | None => note_parts
    end in
  let joined := join (lit "; ") (List.filter nonempty note_parts) in
  let note_raw := if nonempty joined then Some joined else None in
  let '(name_raw, needs_review, warnings) :=
    if nonempty name_raw then (name_raw, needs_review, warnings)
    else
      (str_or (_fallback_name prepared) (str_or normalized (strip raw_line)),
       true,
       warnings
       ++ [line_message line_index
             "unable to confidently parse item name"]) in
  inr (MergeValidate.RawLine.mk line_index raw_line name_raw qty note_raw
         needs_review [] MergeValidate.CONTRACT_VERSION,
       warnings)).

Definition _is_standalone_note (raw_line : pystr) : option pystr :=
  let normalized := _normalize_for_parse raw_line in
  match re_match_i _STANDALONE_NOTE_RE normalized with
  | Some matched =>
      let note := strip (group matched 1) in
      if nonempty note then Some note else None
  | None => None
  end.

(** The state of the loop of [parse_receipt_text]: [lines],
    [parse_warnings] and [parse_errors]. *)
Definition parse_state : Type :=
  list MergeValidate.RawLine.t * list pystr * list pystr.

(** One turn of the loop, on line [index]. *)
Definition parse_step (state : parse_state) (index : Z) (line : pystr)
    : parse_state :=
  let '(lines, parse_warnings, parse_errors) := state in
  let raw_line := rstrip_cr line in
  let normalized := _normalize_for_parse raw_line in
  if negb (nonempty normalized) || _is_noise_line normalized then state
  else
    match _is_standalone_note raw_line with
    | Some standalone_note =>
        match last lines with
        | Some prev =>
            let merged :=
              match MergeValidate.RawLine.note_raw prev with
              | Some existing =>
                  if nonempty existing
                  then existing ++ lit "; " ++ standalone_note
                  else standalone_note
              | None => standalone_note
              end in
            (removelast lines
             ++ [MergeValidate.RawLine.mk
                   (MergeValidate.RawLine.line_index prev)
                   (MergeValidate.RawLine.raw_line prev)
                   (MergeValidate.RawLine.name_raw prev)
                   (MergeValidate.RawLine.qty prev)
                   (Some merged)
                   (MergeValidate.RawLine.needs_review prev)
                   (MergeValidate.RawLine.metadata prev)
                   (MergeValidate.RawLine.version prev)],
             parse_warnings, parse_errors)
        | None =>
            (lines,
             parse_warnings
             ++ [line_message index
                   "standalone note with no preceding item"],
             parse_errors)
        end
    | None =>
        match _parse_line raw_line index with
        | inr (parsed, warnings) =>
            (lines ++ [parsed], parse_warnings ++ warnings, parse_errors)
        | inl message =>
            (lines
             ++ [MergeValidate.RawLine.mk index raw_line
                   (str_or (_normalize_for_parse raw_line) (strip raw_line))
                   1 None true [] MergeValidate.CONTRACT_VERSION],
             parse_warnings
             ++ [line_message index
                   "parser exception fallback, defaulted qty to 1"],
             parse_errors
             ++ [lit "line " ++ str_of_int index ++ lit ": " ++ message])
        end
    end.

(** The loop over [enumerate(...)], from line [index] on. *)
Fixpoint parse_loop (state : parse_state) (index : Z) (lines : list pystr)
    : parse_state :=
  match lines with
  | [] => state
  | line :: rest => parse_loop (parse_step state index line) (index + 1) rest
  end.

Definition parse_receipt_text (text : pystr)
    : MergeValidate.OrderRawParsed.t :=
  let '(lines, parse_warnings, parse_errors) :=
    parse_loop ([], [], []) 0 (splitlines text) in
  let needs_review :=
    truthy_list parse_warnings || truthy_list parse_errors
    || existsb MergeValidate.RawLine.needs_review lines in
  MergeValidate.OrderRawParsed.mk text lines None parse_warnings
    needs_review
    [(lit "parse_errors", VList (map VStr parse_errors))]
    MergeValidate.CONTRACT_VERSION.

(** The raw lines that come out as a [RawLine] of their own. *)
Definition is_item_line (raw_line : pystr) : bool :=
  let normalized := _normalize_for_parse raw_line in
  nonempty normalized && negb (_is_noise_line normalized)
  && bool_decide (_is_standalone_note raw_line = None).

(** The coordinates of the [RawLine] that a line of
    [enumerate(text.splitlines())] gives, if it gives one. *)
Definition kept_line (il : Z * pystr) : option (Z * pystr) :=
  if is_item_line (rstrip_cr il.2) then Some (il.1, rstrip_cr il.2)
  else None.

End Parser.

(** The coordinates of a [RawLine]: its index and its raw text. *)
Definition line_key (line : MergeValidate.RawLine.t) : Z * pystr :=
  (MergeValidate.RawLine.line_index line, MergeValidate.RawLine.raw_line line).

(** The first characters of the words of [_NOISE_PREFIX_RE] and of
    [_STANDALONE_NOTE_RE]. *)
Definition noise_firsts : list N :=
  [38651; 116; 22320; 32113; 21934; 35330; 26178; 26085; 32317; 23567;
   21512; 25033; 25214]%N.

Definition note_firsts : list N := [20633; 35387; 38468; 22791]%N.

(** [enumerate(l, start)] *)
Fixpoint enumerate_from {A} (start : Z) (l : list A) : list (Z * A) :=
  match l with
  | [] => []
  | x :: rest => (start, x) :: enumerate_from (start + 1) rest
  end.

(** Instances for the worked examples: the ASCII digits and their
    value. *)
Definition ascii_isdecimal (c : N) : bool := ((48 <=? c) && (c <=? 57))%N.

Definition ascii_int (text : pystr) : exc Z :=
  let value (digits : pystr) : Z :=
    fold_left (fun acc c => acc * 10 + (Z.of_N c - 48))%Z digits 0%Z in
  match text with
  | 45%N :: digits => inr (- value digits)%Z
  | _ => inr (value text)
  end.

End Parser.

(** ** Facts on strings and sorting *)

Module PyFacts.

Lemma str_ltb_lexico a b : str_ltb a b = true ↔ lexico a b.
Proof. unfold str_ltb. apply bool_decide_eq_true. Qed.

Lemma str_ltb_not_lexico a b : str_ltb a b = false ↔ ¬ lexico a b.
Proof. unfold str_ltb. apply bool_decide_eq_false. Qed.

Section Sorting.
Context {A : Type} (key : A → pystr).

Global Instance key_le_trans : Transitive (key_le key).
Proof.
  intros a b c Hab Hbc Hca. unfold key_le in *.
  destruct (trichotomy lexico (key a) (key b)) as [Hlt|[Heq|Hgt]].
  - apply Hbc. by etrans.
  - apply Hbc. by rewrite <- Heq.
  - by apply Hab.
Qed.

Lemma key_le_total a b : key_le key a b ∨ key_le key b a.
Proof.
  unfold key_le.
  destruct (trichotomy lexico (key a) (key b)) as [Hlt|[Heq|Hgt]].
  - left. intros Hba. by apply (irreflexivity lexico (key a)); etrans.
  - left. rewrite Heq. apply irreflexivity, _.
  - right. intros Hab. by apply (irreflexivity lexico (key a)); etrans.
Qed.

Lemma key_le_antisym a b : key_le key a b → key_le key b a → key a = key b.
Proof.
  unfold key_le. intros Hab Hba.
  by destruct (trichotomy lexico (key a) (key b)) as [Hlt|[Heq|Hgt]].
Qed.

Lemma insert_by_perm x l : insert_by key x l ≡ₚ x :: l.
Proof.
  induction l as [|y l IH]; simpl; [done|].
  destruct (str_ltb (key y) (key x)); [|done].
  rewrite IH. apply Permutation_swap.
Qed.

Lemma sorted_by_perm l : sorted_by key l ≡ₚ l.
Proof.
  induction l as [|x l IH]; simpl; [done|].
  by rewrite insert_by_perm, IH.
Qed.

Lemma insert_by_HdRel y x l :
  key_le key y x → HdRel (key_le key) y l →
  HdRel (key_le key) y (insert_by key x l).
Proof.
  intros Hyx Hl. destruct l as [|z l]; simpl; [by constructor|].
  destruct (str_ltb (key z) (key x)); constructor; [|done].
  by inversion Hl.
Qed.

Lemma insert_by_Sorted x l :
  Sorted (key_le key) l → Sorted (key_le key) (insert_by key x l).
Proof.
  induction 1 as [|y l Hl IH Hy]; simpl; [by repeat constructor|].
  destruct (str_ltb (key y) (key x)) eqn:Hlt.
  - constructor; [done|]. apply insert_by_HdRel; [|done].
    apply str_ltb_lexico in Hlt. intros Hxy.
    by apply (irreflexivity lexico (key x)); etrans.
  - apply str_ltb_not_lexico in Hlt. by repeat constructor.
Qed.

Lemma sorted_by_Sorted l : Sorted (key_le key) (sorted_by key l).
Proof.
  induction l as [|x l IH]; simpl; [constructor|].
  by apply insert_by_Sorted.
Qed.

Lemma insert_by_head x l :
  HdRel (key_le key) x l → insert_by key x l = x :: l.
Proof.
  destruct l as [|y l]; simpl; [done|]. inversion_clear 1 as [|?? Hxy].
  apply str_ltb_not_lexico in Hxy. by rewrite Hxy.
Qed.

(** A list already in order is left as it is. *)
Lemma sorted_by_Sorted_id l : Sorted (key_le key) l → sorted_by key l = l.
Proof.
  induction 1 as [|x l Hl IH Hx]; simpl; [done|].
  rewrite IH. by apply insert_by_head.
Qed.

Lemma sorted_by_idem l : sorted_by key (sorted_by key l) = sorted_by key l.
Proof. apply sorted_by_Sorted_id, sorted_by_Sorted. Qed.

(** Two arrangements of the same elements are sorted to the same list, when
    elements with the same key are equal. *)
Lemma sorted_by_unique l1 l2 :
  (∀ x y, x ∈ l1 → y ∈ l1 → key x = key y → x = y) →
  l1 ≡ₚ l2 → sorted_by key l1 = sorted_by key l2.
Proof.
  intros Hkey Hperm.
  apply (Sorted_unique_strong (key_le key)).
  - intros x y Hx Hy Hxy Hyx. apply Hkey.
    + by rewrite <- (sorted_by_perm l1).
    + by rewrite Hperm, <- (sorted_by_perm l2).
    + by apply key_le_antisym.
  - apply sorted_by_Sorted.
  - apply sorted_by_Sorted.
  - by rewrite !sorted_by_perm.
Qed.

End Sorting.

Lemma insert_by_map {A B} (key : A → pystr) (key' : B → pystr) (g : A → B)
    x l :
  (∀ a, key' (g a) = key a) →
  insert_by key' (g x) (map g l) = map g (insert_by key x l).
Proof.
  intros Hg. induction l as [|y l IH]; simpl; [done|].
  rewrite !Hg. destruct (str_ltb (key y) (key x)); simpl; [|done].
  by rewrite IH.
Qed.

(** Sorting commutes with a map that keeps the keys. *)
Lemma sorted_by_map {A B} (key : A → pystr) (key' : B → pystr) (g : A → B) l :
  (∀ a, key' (g a) = key a) →
  sorted_by key' (map g l) = map g (sorted_by key l).
Proof.
  intros Hg. induction l as [|x l IH]; simpl; [done|].
  rewrite IH. by apply insert_by_map.
Qed.

Lemma dict_get_insert_by (x : pystr * pyval) d k :
  dict_get (insert_by fst x d) k = dict_get (x :: d) k.
Proof.
  induction d as [|y d IH]; [done|].
  cbn [insert_by]. destruct (str_ltb y.1 x.1) eqn:Hlt; [|done].
  destruct x as [kx vx], y as [ky vy]. cbn [dict_get]. rewrite IH.
  cbn [dict_get]. simpl in Hlt.
  destruct (bool_decide (ky = k)) eqn:Hy, (bool_decide (kx = k)) eqn:Hx;
    try done.
  apply bool_decide_eq_true in Hy, Hx. subst.
  apply str_ltb_lexico in Hlt. by apply irreflexivity in Hlt; [|apply _].
Qed.

(** The sort being stable, lookups do not see it. *)
Lemma dict_get_sorted_by (d : pydict) k :
  dict_get (sorted_by fst d) k = dict_get d k.
Proof.
  induction d as [|[kx vx] d IH]; [done|].
  cbn [sorted_by foldr]. rewrite dict_get_insert_by.
  cbn [dict_get]. by rewrite <- IH.
Qed.

(** *** [strip] *)

Lemma lstrip_nonspace c s : isspace c = false → lstrip (c :: s) = c :: s.
Proof. intros H. simpl. by rewrite H. Qed.

Lemma lstrip_app_nonspace u c w :
  isspace c = false → lstrip (u ++ c :: w) = lstrip u ++ c :: w.
Proof.
  intros Hc. induction u as [|x u IH]; simpl.
  - by rewrite Hc.
  - by destruct (isspace x).
Qed.

Lemma lstrip_idem s : lstrip (lstrip s) = lstrip s.
Proof.
  induction s as [|c s IH]; simpl; [done|].
  destruct (isspace c) eqn:Hc; [done|]. simpl. by rewrite Hc.
Qed.

Lemma rstrip_idem s : rstrip (rstrip s) = rstrip s.
Proof. unfold rstrip. by rewrite rev_involutive, lstrip_idem. Qed.

Lemma rstrip_cons_nonspace c s :
  isspace c = false → rstrip (c :: s) = c :: rstrip s.
Proof.
  intros Hc. unfold rstrip. simpl.
  rewrite (lstrip_app_nonspace _ c []) by done.
  by rewrite rev_app_distr.
Qed.

Lemma lstrip_head s :
  lstrip s = [] ∨ ∃ c t, lstrip s = c :: t ∧ isspace c = false.
Proof.
  induction s as [|c s IH]; simpl; [by left|].
  destruct (isspace c) eqn:Hc; [done|]. right. by exists c, s.
Qed.

Lemma strip_idem s : strip (strip s) = strip s.
Proof.
  unfold strip.
  destruct (lstrip_head s) as [->|(c & t & -> & Hc)]; [done|].
  rewrite rstrip_cons_nonspace by done.
  rewrite lstrip_nonspace by done.
  rewrite <- rstrip_cons_nonspace by done. apply rstrip_idem.
Qed.

(** *** Mappings *)

Lemma dict_get_set (d : pydict) k v k' :
  dict_get (dict_set d k v) k'
  = if bool_decide (k = k') then Some v else dict_get d k'.
Proof.
  induction d as [|[k0 v0] d IH]; simpl.
  { by destruct (bool_decide (k = k')). }
  destruct (bool_decide (k0 = k)) eqn:Hk0; simpl.
  - apply bool_decide_eq_true in Hk0 as ->.
    by destruct (bool_decide (k = k')).
  - rewrite IH. apply bool_decide_eq_false in Hk0.
    destruct (bool_decide (k0 = k')) eqn:Hk0'; [|done].
    apply bool_decide_eq_true in Hk0' as ->.
    by rewrite bool_decide_eq_false_2.
Qed.

Lemma dict_get_app (d d' : pydict) k :
  dict_get (d ++ d') k
  = match dict_get d k with Some v => Some v | None => dict_get d' k end.
Proof.
  induction d as [|[k0 v0] d IH]; [done|]. simpl.
  by destruct (bool_decide (k0 = k)).
Qed.

Lemma dict_get_setdefault (d : pydict) k v k' :
  dict_get (dict_setdefault d k v) k'
  = match dict_get d k' with
    | Some w => Some w
    | None => if bool_decide (k = k') then Some v else None
    end.
Proof.
  unfold dict_setdefault. destruct (dict_get d k) as [w|] eqn:Hk.
  - destruct (dict_get d k') as [w'|] eqn:Hk'; [done|].
    destruct (bool_decide (k = k')) eqn:Heq; [|done].
    apply bool_decide_eq_true in Heq. congruence.
  - rewrite dict_get_app. simpl. by destruct (dict_get d k').
Qed.

(** Assigning to a key that is there changes the value of its first item
    and nothing else. *)
Lemma dict_set_frame (d : pydict) k v :
  is_Some (dict_get d k) →
  Forall2 (fun x y => x.1 = y.1 ∧ (y.1 ≠ k → x.2 = y.2)) (dict_set d k v) d.
Proof.
  induction d as [|[k0 v0] d IH]; simpl; [by intros [? ?]|].
  destruct (bool_decide (k0 = k)) eqn:Hk0; intros Hsome.
  - apply bool_decide_eq_true in Hk0 as ->. constructor; [done|].
    apply Forall2_same_length_lookup_2; [done|]. intros i x y Hx Hy.
    by simplify_eq.
  - constructor; [done|]. by apply IH.
Qed.

(** *** Comparisons of rationals *)

Lemma Qltb_iff (a b : Q) : Qltb a b = true ↔ (a < b)%Q.
Proof.
  unfold Qltb. rewrite Qlt_alt. destruct (a ?= b)%Q; split; congruence.
Qed.

Lemma Qltb_false_iff (a b : Q) : Qltb a b = false ↔ (b <= a)%Q.
Proof.
  rewrite <- not_true_iff_false, Qltb_iff. split.
  - apply Qnot_lt_le.
  - apply Qle_not_lt.
Qed.

Lemma Qleb_iff (a b : Q) : Qleb a b = true ↔ (a <= b)%Q.
Proof.
  unfold Qleb. rewrite Qle_alt. destruct (a ?= b)%Q; split; congruence.
Qed.

(** *** The order of the floats *)

Lemma float_ltb_spec x y :
  PyFloat.ltb x y = true
  ↔ PyFloat.is_nan x = false ∧ PyFloat.is_nan y = false
    ∧ PyFloat.key_lt (PyFloat.key x) (PyFloat.key y).
Proof.
  unfold PyFloat.ltb, SFltb, PyFloat.key_lt.
  destruct x as [sx|sx| |sx mx ex], y as [sy|sy| |sy my ey]; cbn;
    try (destruct sx); try (destruct sy); cbn;
    try (split; [discriminate|intros (? & ? & ?); try discriminate; lia]);
    try (split; [intros _; repeat split; try done; lia|done]).
  - change (Pos.compare_cont Eq mx my) with (mx ?= my)%positive.
    destruct (Z.compare_spec ex ey), (Pos.compare_spec mx my); cbn;
      (split; [try discriminate; intros _; repeat split; try done; lia
              |intros (_ & _ & ?); try reflexivity; lia]).
  - change (Pos.compare_cont Eq mx my) with (mx ?= my)%positive.
    destruct (Z.compare_spec ex ey), (Pos.compare_spec mx my); cbn;
      (split; [try discriminate; intros _; repeat split; try done; lia
              |intros (_ & _ & ?); try reflexivity; lia]).
Qed.

Lemma float_leb_spec x y :
  PyFloat.leb x y = true
  ↔ PyFloat.is_nan x = false ∧ PyFloat.is_nan y = false
    ∧ ¬ PyFloat.key_lt (PyFloat.key y) (PyFloat.key x).
Proof.
  unfold PyFloat.leb, SFleb, PyFloat.key_lt.
  destruct x as [sx|sx| |sx mx ex], y as [sy|sy| |sy my ey]; cbn;
    try (destruct sx); try (destruct sy); cbn;
    try (split; [discriminate|intros (? & ? & ?); try discriminate; lia]);
    try (split; [intros _; repeat split; try done; lia|done]).
  - change (Pos.compare_cont Eq mx my) with (mx ?= my)%positive.
    destruct (Z.compare_spec ex ey), (Pos.compare_spec mx my); cbn;
      (split; [try discriminate; intros _; repeat split; try done; lia
              |intros (_ & _ & ?); try reflexivity; lia]).
  - change (Pos.compare_cont Eq mx my) with (mx ?= my)%positive.
    destruct (Z.compare_spec ex ey), (Pos.compare_spec mx my); cbn;
      (split; [try discriminate; intros _; repeat split; try done; lia
              |intros (_ & _ & ?); try reflexivity; lia]).
Qed.

(** Turns the comparisons of the context and of the goal into statements
    on the places of the numbers, and leaves the arithmetic to [lia]. *)
Ltac float_order :=
  repeat match goal with
         | H : PyFloat.ltb _ _ = true |- _ =>
             apply float_ltb_spec in H; destruct H as (? & ? & H)
         | H : PyFloat.leb _ _ = true |- _ =>
             apply float_leb_spec in H; destruct H as (? & ? & H)
         end;
  try (apply float_ltb_spec; split; [assumption|split; [assumption|]]);
  try (apply float_leb_spec; split; [assumption|split; [assumption|]]);
  unfold PyFloat.key_lt in *;
  repeat match goal with
         | |- context [PyFloat.key ?x] =>
             let k := fresh "k" in
             set (k := PyFloat.key x) in *; clearbody k;
             destruct k as [[? ?] ?]
         | H : context [PyFloat.key ?x] |- _ =>
             let k := fresh "k" in
             set (k := PyFloat.key x) in *; clearbody k;
             destruct k as [[? ?] ?]
         end;
  cbn [fst snd] in *; lia.

Lemma float_ltb_not_nan a b :
  PyFloat.ltb a b = true →
  PyFloat.is_nan a = false ∧ PyFloat.is_nan b = false.
Proof. intros H. apply float_ltb_spec in H. tauto. Qed.

Lemma float_leb_not_nan a b :
  PyFloat.leb a b = true →
  PyFloat.is_nan a = false ∧ PyFloat.is_nan b = false.
Proof. intros H. apply float_leb_spec in H. tauto. Qed.

Lemma float_leb_refl a : PyFloat.is_nan a = false → PyFloat.leb a a = true.
Proof. intros Ha. float_order. Qed.

Lemma float_ltb_irrefl a : PyFloat.ltb a a = false.
Proof.
  destruct (PyFloat.ltb a a) eqn:H; [|done]. exfalso. float_order.
Qed.

Lemma float_ltb_leb a b : PyFloat.ltb a b = true → PyFloat.leb a b = true.
Proof. intros H. float_order. Qed.

Lemma float_ltb_trans a b c :
  PyFloat.ltb a b = true → PyFloat.ltb b c = true → PyFloat.ltb a c = true.
Proof. intros H1 H2. float_order. Qed.

Lemma float_leb_trans a b c :
  PyFloat.leb a b = true → PyFloat.leb b c = true → PyFloat.leb a c = true.
Proof. intros H1 H2. float_order. Qed.

Lemma float_leb_ltb_trans a b c :
  PyFloat.leb a b = true → PyFloat.ltb b c = true → PyFloat.ltb a c = true.
Proof. intros H1 H2. float_order. Qed.

Lemma float_ltb_leb_trans a b c :
  PyFloat.ltb a b = true → PyFloat.leb b c = true → PyFloat.ltb a c = true.
Proof. intros H1 H2. float_order. Qed.

(** Two numbers, none of them NaN, are comparable. *)
Lemma float_not_ltb_leb a b :
  PyFloat.is_nan a = false → PyFloat.is_nan b = false →
  PyFloat.ltb a b = false → PyFloat.leb b a = true.
Proof.
  intros Ha Hb H. apply float_leb_spec. split_and!; [done|done|].
  intros Hlt. apply not_true_iff_false in H. apply H.
  apply float_ltb_spec. done.
Qed.

Lemma float_not_leb_ltb a b :
  PyFloat.is_nan a = false → PyFloat.is_nan b = false →
  PyFloat.leb a b = false → PyFloat.ltb b a = true.
Proof.
  intros Ha Hb H. apply float_ltb_spec. split_and!; [done|done|].
  destruct (decide (PyFloat.key_lt (PyFloat.key b) (PyFloat.key a)))
    as [?|Hno]; [done|].
  apply not_true_iff_false in H. exfalso. apply H.
  apply float_leb_spec. done.
Qed.

Lemma float_leb_not_ltb a b :
  PyFloat.leb a b = true → PyFloat.ltb b a = false.
Proof.
  intros H. destruct (PyFloat.ltb b a) eqn:E; [|done]. exfalso.
  float_order.
Qed.

Lemma float_eqb_spec x y :
  PyFloat.eqb x y = true
  ↔ PyFloat.is_nan x = false ∧ PyFloat.is_nan y = false
    ∧ PyFloat.key x = PyFloat.key y.
Proof.
  unfold PyFloat.eqb, SFeqb.
  destruct x as [sx|sx| |sx mx ex], y as [sy|sy| |sy my ey]; cbn;
    try (destruct sx); try (destruct sy); cbn;
    try (split; [discriminate|intros (? & ? & ?); discriminate]);
    try (split; [done|done]).
  - change (Pos.compare_cont Eq mx my) with (mx ?= my)%positive.
    destruct (Z.compare_spec ex ey), (Pos.compare_spec mx my); cbn;
      (split; [try discriminate; intros _; repeat split; congruence
              |intros (_ & _ & [= ? ?]); try reflexivity; lia]).
  - change (Pos.compare_cont Eq mx my) with (mx ?= my)%positive.
    destruct (Z.compare_spec ex ey), (Pos.compare_spec mx my); cbn;
      (split; [try discriminate; intros _; repeat split; congruence
              |intros (_ & _ & [= ? ?]); try reflexivity; lia]).
Qed.

Lemma float_eqb_sym a b : PyFloat.eqb a b = PyFloat.eqb b a.
Proof.
  apply eq_true_iff_eq. rewrite !float_eqb_spec.
  split; intros (? & ? & ?); by split_and!.
Qed.

Lemma float_eqb_leb a b : PyFloat.eqb a b = true → PyFloat.leb b a = true.
Proof.
  intros H. apply float_eqb_spec in H as (? & ? & Hk).
  apply float_leb_spec. split_and!; [done|done|]. rewrite Hk.
  unfold PyFloat.key_lt. lia.
Qed.

(** Negation turns the order around. *)
Lemma float_key_opp x :
  PyFloat.key (PyFloat.opp x)
  = (- (PyFloat.key x).1.1, - (PyFloat.key x).1.2, - (PyFloat.key x).2).
Proof.
  destruct x as [s|s| |s m e]; try destruct s; cbn; f_equal; try f_equal;
    lia.
Qed.

Lemma float_is_nan_opp x : PyFloat.is_nan (PyFloat.opp x) = PyFloat.is_nan x.
Proof. by destruct x. Qed.

Lemma float_ltb_opp a b :
  PyFloat.ltb (PyFloat.opp a) (PyFloat.opp b) = PyFloat.ltb b a.
Proof.
  apply eq_true_iff_eq.
  rewrite !float_ltb_spec, !float_is_nan_opp, !float_key_opp.
  unfold PyFloat.key_lt. cbn [fst snd].
  destruct (PyFloat.key a) as [[? ?] ?], (PyFloat.key b) as [[? ?] ?].
  cbn [fst snd]. split; intros (? & ? & ?); split_and!; try done; lia.
Qed.

Lemma float_eqb_opp a b :
  PyFloat.eqb (PyFloat.opp a) (PyFloat.opp b) = PyFloat.eqb a b.
Proof.
  apply eq_true_iff_eq.
  rewrite !float_eqb_spec, !float_is_nan_opp, !float_key_opp.
  destruct (PyFloat.key a) as [[? ?] ?], (PyFloat.key b) as [[? ?] ?].
  cbn [fst snd]. split; intros (? & ? & ?); split_and!; try done.
  - simplify_eq. f_equal; [f_equal|]; lia.
  - simplify_eq. done.
Qed.

End PyFacts.

(** ** Properties of merge_validate.py *)

Module MergeValidateFacts.
Import MergeValidate.

(** Names the value bound by a [let '(x, y) := e in _] of the goal, without
    analysing how [e] computes it. *)
Ltac name_pair :=
  match goal with
  | |- context [match ?e with pair _ _ => _ end] =>
      let E := fresh "E" in destruct e eqn:E
  end.

Lemma find_candidate_by_code_some cands code c :
  _find_candidate_by_code cands code = Some c →
  c ∈ cands ∧ CandidateItem.candidate_code c = code.
Proof.
  unfold _find_candidate_by_code.
  destruct code as [[|x code]|]; try discriminate.
  intros H. apply find_some in H as [Hin Hc].
  apply bool_decide_eq_true in Hc. split; [|exact Hc].
  by apply list_elem_of_In.
Qed.

Lemma head_elem_of {A} (l : list A) x : head l = Some x → x ∈ l.
Proof. destruct l; intros; simplify_eq/=. left. Qed.

(** *** Groups *)

Lemma clean_fold valid l :
  ∀ seen cleaned oor dup,
    (∀ x, x ∈ seen ↔ x ∈ cleaned) → NoDup cleaned →
    ∃ seen' ext oor' dup',
      fold_left (clean_step valid) l (seen, cleaned, oor, dup)
      = (seen', cleaned ++ ext, oor', dup') ∧
      (∀ x, x ∈ seen' ↔ x ∈ cleaned ++ ext) ∧ NoDup (cleaned ++ ext) ∧
      ext `sublist_of` omap as_int l ∧ Forall (fun x => x ∈ valid) ext.
Proof.
  induction l as [|v l IH]; intros seen cleaned oor dup Hseen Hnd; simpl.
  { exists seen, [], oor, dup. rewrite app_nil_r. by split_and!. }
  destruct (as_int v) as [i|] eqn:Hi; simpl.
  2: { destruct (IH seen cleaned true dup Hseen Hnd)
         as (s' & ext & o' & d' & -> & ? & ? & ? & ?).
       by exists s', ext, o', d'. }
  destruct (bool_decide (i ∈ valid)) eqn:Hv; simpl.
  2: { destruct (IH seen cleaned true dup Hseen Hnd)
         as (s' & ext & o' & d' & -> & ? & ? & ? & ?).
       exists s', ext, o', d'. split_and!; try done.
       by apply sublist_cons. }
  destruct (bool_decide (i ∈ seen)) eqn:Hs; simpl.
  { destruct (IH seen cleaned oor true Hseen Hnd)
      as (s' & ext & o' & d' & -> & ? & ? & ? & ?).
    exists s', ext, o', d'. split_and!; try done.
    by apply sublist_cons. }
  apply bool_decide_eq_true in Hv. apply bool_decide_eq_false in Hs.
  destruct (IH (seen ∪ {[i]}) (cleaned ++ [i]) oor dup)
    as (s' & ext & o' & d' & -> & Hs' & Hnd' & Hsub & Hval).
  { intros x. rewrite elem_of_union, elem_of_singleton, elem_of_app,
      list_elem_of_singleton. by rewrite Hseen. }
  { apply NoDup_app. split_and!; [done| |apply NoDup_singleton].
    intros x Hx ->%list_elem_of_singleton. by apply Hs, Hseen. }
  exists s', (i :: ext), o', d'.
  rewrite <- !(assoc_L (++)) in Hs', Hnd' |- *. simpl in Hs', Hnd' |- *.
  split_and!; try done.
  - by apply sublist_skip.
  - by constructor.
Qed.

Lemma listed_indices_spec valid raw :
  NoDup (listed_indices valid raw) ∧
  listed_indices valid raw `sublist_of` omap as_int (raw_line_indices raw) ∧
  Forall (fun x => x ∈ valid) (listed_indices valid raw).
Proof.
  unfold listed_indices.
  destruct (clean_fold valid (raw_line_indices raw) ∅ [] false false)
    as (s' & ext & o' & d' & -> & _ & ? & ? & ?); [set_solver|constructor|].
  done.
Qed.

Lemma filter_ext_elem_of {A} (P Q : A → Prop)
    `{!∀ x, Decision (P x), !∀ x, Decision (Q x)} (l : list A) :
  (∀ x, x ∈ l → P x ↔ Q x) → filter P l = filter Q l.
Proof.
  induction l as [|a l IH]; intros Hpq; [done|].
  rewrite !filter_cons.
  rewrite IH by (intros x Hx; apply Hpq; by right).
  destruct (decide (P a)) as [HP|HP], (decide (Q a)) as [HQ|HQ];
    try done; exfalso.
  - apply HQ, Hpq; [left|done].
  - apply HP, Hpq; [left|done].
Qed.

Lemma claim_fold gid l :
  ∀ (occ : gmap Z pystr) acc cf,
    NoDup l →
    ∃ occ' cf',
      fold_left (claim_step gid) l (occ, acc, cf)
      = (occ', acc ++ filter (fun x => occ !! x = None) l, cf') ∧
      (∀ x, is_Some (occ' !! x) ↔
            is_Some (occ !! x) ∨ x ∈ filter (fun x => occ !! x = None) l).
Proof.
  induction l as [|i l IH]; intros occ acc cf Hnd; simpl.
  { exists occ, cf. rewrite app_nil_r. split; [done|].
    intros x. rewrite filter_nil, elem_of_nil. tauto. }
  apply NoDup_cons in Hnd as [Hi Hnd].
  destruct (occ !! i) as [g|] eqn:Hocc.
  - destruct (IH occ acc true Hnd) as (occ' & cf' & -> & Hocc').
    exists occ', cf'. rewrite filter_cons_False by (rewrite Hocc; done).
    done.
  - destruct (IH (<[i:=gid]> occ) (acc ++ [i]) cf Hnd)
      as (occ' & cf' & -> & Hocc').
    assert (Hf : filter (fun x => <[i:=gid]> occ !! x = None) l
                 = filter (fun x => occ !! x = None) l).
    { apply filter_ext_elem_of. intros x Hx.
      rewrite lookup_insert_ne; [done|]. by intros ->. }
    exists occ', cf'. rewrite filter_cons_True by done.
    rewrite <- (assoc_L (++)). simpl. rewrite <- Hf. split; [done|].
    intros x. rewrite Hocc', elem_of_cons.
    destruct (decide (i = x)) as [->|Hne].
    + rewrite lookup_insert_eq. split; [intros _; right; by left|].
      intros _. left. by eexists.
    + rewrite lookup_insert_ne by done. intuition congruence.
Qed.

Lemma first_wins_NoDup groups :
  ∀ claimed,
    NoDup claimed → Forall NoDup groups →
    NoDup (claimed ++ concat (first_wins claimed groups)).
Proof.
  induction groups as [|l groups IH]; intros claimed Hc Hg; simpl.
  { by rewrite app_nil_r. }
  apply Forall_cons in Hg as [Hl Hg].
  rewrite (assoc_L (++)). apply IH; [|done].
  apply NoDup_app. split_and!; [done| |by apply NoDup_filter].
  intros x Hx [Hnot _]%list_elem_of_filter. by apply Hnot.
Qed.

Section Facts.

Variable py_str : pyval -> pystr.
Variable float_of_str : pystr -> option pyfloat.

Local Abbreviation merge := (merge_and_validate py_str float_of_str).

(** C4: the order-level review flag is the disjunction of the parser's
    flag, the items' flags and the groups' flags. *)
Theorem overall_needs_review_is_or
    (order_raw : OrderRawParsed.t) (candidates : CandidatesByLine)
    (structured_result menu_catalog : pyval)
    (allowed_mods : option (list pyval))
    (item_threshold mods_threshold group_threshold : pyval) :
  let out :=
    merge order_raw candidates structured_result menu_catalog allowed_mods
      item_threshold mods_threshold group_threshold in
  OrderNormalized.overall_needs_review out =
    OrderRawParsed.needs_review order_raw
    || existsb NormalizedItem.needs_review (OrderNormalized.items out)
    || existsb GroupResult.needs_review (OrderNormalized.groups out).
Proof.
  cbv zeta. unfold merge_and_validate.
  repeat name_pair. reflexivity.
Qed.


Lemma merge_one_item_code line llm_item cands valid allowed it mt evs :
  let item :=
    fst (_merge_one_item py_str float_of_str line llm_item cands valid allowed
           it mt evs) in
  NormalizedItem.line_index item = RawLine.line_index line ∧
  match NormalizedItem.item_code item with
  | None => True
  | Some code =>
      code ∈ valid ∧
      ∃ c, c ∈ cands ∧ CandidateItem.candidate_code c = Some code
  end.
Proof.
  cbv zeta. unfold _merge_one_item. cbv zeta.
  set (code0 := strip <$> _).
  repeat name_pair. simpl. split; [reflexivity|].
  repeat match goal with
         | H : _ = (_, _) |- _ =>
             lazymatch type of H with
             | context [code0] => fail
             | context [_find_candidate_by_code] => fail
             | _ => clear H
             end
         end.
  assert (Ho : match o with
               | Some code => code ∈ valid
               | None => True
               end).
  { destruct code0 as [code|]; [|by simplify_eq].
    destruct (bool_decide (code ∈ valid)) eqn:Hv; simplify_eq/=; [|done].
    by apply bool_decide_eq_true in Hv. }
  assert (Ho1 : match o1 with
                | Some code =>
                    code ∈ valid ∧
                    ∃ c, c ∈ cands ∧ CandidateItem.candidate_code c = Some code
                | None => True
                end).
  { destruct o as [code|]; [|by simplify_eq].
    destruct (nonempty code); [|by simplify_eq].
    destruct (_find_candidate_by_code cands (Some code)) as [c|] eqn:Hf;
      simplify_eq; [|done].
    apply find_candidate_by_code_some in Hf as [??]. eauto. }
  destruct o1 as [code1|]; [by simplify_eq|].
  destruct (head cands) as [primary|] eqn:Hp; [|by simplify_eq].
  destruct (CandidateItem.candidate_code primary) as [code|] eqn:Hc;
    [|by simplify_eq].
  destruct (nonempty code && bool_decide (code ∈ valid)) eqn:Hv;
    simplify_eq; [|done].
  apply andb_true_iff in Hv as [_ Hv]. apply bool_decide_eq_true in Hv.
  split; [done|]. exists primary. split; [|done]. by apply head_elem_of.
Qed.

Lemma merge_items_code lines (by_line : gmap Z pyval) candidates valid
    allowed it mt :
  ∀ items evs,
    Forall (item_code_ok valid candidates) items →
    Forall (item_code_ok valid candidates)
      (fst (fold_left (fun '(items, audit_events) line =>
              let '(item, audit_events) :=
                _merge_one_item py_str float_of_str line
                  (by_line !! RawLine.line_index line)
                  (default [] (candidates !! RawLine.line_index line))
                  valid allowed it mt audit_events in
              (items ++ [item], audit_events)) lines (items, evs))).
Proof.
  induction lines as [|line lines IH]; intros items evs Hitems; [done|].
  simpl.
  pose proof (merge_one_item_code line (by_line !! RawLine.line_index line)
                (default [] (candidates !! RawLine.line_index line))
                valid allowed it mt evs) as Hone.
  cbv zeta in Hone.
  destruct (_merge_one_item _ _ _ _ _ _ _ _ _ _) as [item evs'].
  simpl in Hone. destruct Hone as [Hidx Hcode].
  apply IH. apply Forall_app. split; [done|].
  apply Forall_singleton. unfold item_code_ok. rewrite Hidx. exact Hcode.
Qed.

(** C1: every normalized item carries no code, or a code of the derived
    catalog id set that is also the code of one of the candidates listed
    for the item's line. *)
Theorem item_code_in_catalog_and_line_candidates
    (order_raw : OrderRawParsed.t) (candidates : CandidatesByLine)
    (structured_result menu_catalog : pyval)
    (allowed_mods : option (list pyval))
    (item_threshold mods_threshold group_threshold : pyval) :
  Forall (fun item =>
            match NormalizedItem.item_code item with
            | None => True
            | Some code =>
                code ∈ _catalog_ids py_str menu_catalog candidates ∧
                ∃ c,
                  c ∈ default []
                        (candidates !! NormalizedItem.line_index item) ∧
                  CandidateItem.candidate_code c = Some code
            end)
    (OrderNormalized.items
       (merge order_raw candidates structured_result menu_catalog
          allowed_mods item_threshold mods_threshold group_threshold)).
Proof.
  unfold merge_and_validate. cbv zeta.
  destruct (_collect_llm_items _ _ _) as [by_line evs0].
  destruct (merge_items _ _ _ _ _ _ _ _ _ _) as [items evs1] eqn:Hitems.
  destruct (_merge_groups _ _ _ _ _ _) as [groups evs2].
  simpl.
  change items with (fst (items, evs1)). rewrite <- Hitems.
  unfold merge_items. apply merge_items_code. constructor.
Qed.

Lemma merge_group_step_spec valid thr merged (occ : gmap Z pystr) evs idx raw :
  ∃ g occ' evs',
    merge_group_step py_str float_of_str valid thr (merged, occ, evs) idx raw
    = (merged ++ [g], occ', evs') ∧
    GroupResult.line_indices g
    = filter (fun x => occ !! x = None) (listed_indices valid raw) ∧
    (∀ x, is_Some (occ' !! x) ↔
          is_Some (occ !! x) ∨ x ∈ GroupResult.line_indices g) ∧
    ((length (GroupResult.line_indices g) < 2)%nat →
     GroupResult.needs_review g = true).
Proof.
  pose proof (listed_indices_spec valid raw) as (Hnd & _ & _).
  unfold merge_group_step, listed_indices, raw_line_indices in *.
  destruct (fold_left (clean_step valid) _ _) as [[[seen cleaned] oor] dup].
  simpl in Hnd |- *.
  set (gid := default _ _).
  destruct (claim_fold gid cleaned occ [] false Hnd)
    as (occ' & cf' & -> & Hocc').
  eexists _, _, _. split; [reflexivity|]. simpl.
  split_and!; [done|done|].
  intros Hlen.
  replace (Z.of_nat _ <? 2) with true by (symmetry; apply Z.ltb_lt; lia).
  rewrite !orb_true_r. reflexivity.
Qed.

(** What the loop of [_merge_groups] appends for the payloads [raws], when
    the indices of [claimed] are those already owned. *)
Lemma merge_groups_loop_spec valid thr raws :
  ∀ idx merged (occ : gmap Z pystr) evs claimed,
    (∀ x, is_Some (occ !! x) ↔ x ∈ claimed) →
    ∃ new,
      (merge_groups_loop py_str float_of_str valid thr raws idx
         (merged, occ, evs)).1.1 = merged ++ new ∧
      GroupResult.line_indices <$> new
      = first_wins claimed (listed_indices valid <$> raws) ∧
      Forall2 (fun g raw =>
                 GroupResult.line_indices g
                   `sublist_of` listed_indices valid raw ∧
                 ((length (GroupResult.line_indices g) < 2)%nat →
                  GroupResult.needs_review g = true)) new raws.
Proof.
  induction raws as [|raw raws IH]; intros idx merged occ evs claimed Hocc.
  { exists []. simpl. rewrite app_nil_r. split_and!; [done|done|constructor]. }
  cbn [merge_groups_loop fmap list_fmap].
  destruct (merge_group_step_spec valid thr merged occ evs idx raw)
    as (g & occ' & evs' & -> & Hg & Hocc' & Hfew).
  assert (Hkept : GroupResult.line_indices g
                  = filter (fun x => x ∉ claimed) (listed_indices valid raw)).
  { rewrite Hg. apply filter_ext_elem_of. intros x _.
    rewrite <- Hocc, eq_None_not_Some. done. }
  destruct (IH (idx + 1) (merged ++ [g]) occ' evs'
              (claimed ++ GroupResult.line_indices g))
    as (new & -> & Hnew & Hall).
  { intros x. rewrite Hocc', Hocc, elem_of_app. done. }
  exists (g :: new). rewrite <- (assoc_L (++)).
  split_and!; [done| |].
  - rewrite fmap_cons. cbn [first_wins]. rewrite Hnew, Hkept. done.
  - constructor; [|done]. split; [|done].
    rewrite Hkept. apply sublist_filter.
Qed.

Lemma merge_groups_spec raw_groups valid thr evs :
  let groups := (_merge_groups py_str float_of_str raw_groups valid thr evs).1 in
  let raws := match raw_groups with VList l => l | _ => [] end in
  GroupResult.line_indices <$> groups
  = first_wins [] (listed_indices valid <$> raws) ∧
  Forall2 (fun g raw =>
             GroupResult.line_indices g `sublist_of` listed_indices valid raw ∧
             ((length (GroupResult.line_indices g) < 2)%nat →
              GroupResult.needs_review g = true)) groups raws.
Proof.
  cbv zeta. unfold _merge_groups.
  destruct raw_groups as [| | | | |l| | |];
    try (simpl; split; [done|constructor]).
  destruct (merge_groups_loop_spec valid thr l 0 [] ∅ evs [])
    as (new & Hnew & Hidx & Hall).
  { intros x. rewrite lookup_empty, elem_of_nil. split; [|done].
    by intros [??]. }
  destruct (merge_groups_loop _ _ _ _ _ _ _) as [[merged occ] evs'].
  simpl in Hnew |- *. subst merged. done.
Qed.

Lemma merge_groups_of_order order_raw candidates structured_result
    menu_catalog allowed_mods item_threshold mods_threshold group_threshold :
  let out :=
    merge order_raw candidates structured_result menu_catalog allowed_mods
      item_threshold mods_threshold group_threshold in
  let valid : gset Z :=
    list_to_set (RawLine.line_index <$> OrderRawParsed.lines order_raw) in
  ∃ evs,
    OrderNormalized.groups out
    = (_merge_groups py_str float_of_str (VList (group_payloads structured_result))
         valid (_normalize_threshold float_of_str group_threshold) evs).1.
Proof.
  cbv zeta. unfold merge_and_validate. cbv zeta.
  destruct (_collect_llm_items _ _ _) as [by_line evs0].
  destruct (merge_items _ _ _ _ _ _ _ _ _ _) as [items evs1].
  exists evs1.
  assert (Hvalid : map RawLine.line_index
                     (map _copy_raw_line (OrderRawParsed.lines order_raw))
                   = RawLine.line_index <$> OrderRawParsed.lines order_raw).
  { rewrite map_map. done. }
  rewrite Hvalid. unfold group_payloads.
  destruct (dict_get _ (lit "groups")) as [[| | | | |l| | |]|]; simpl;
    try reflexivity.
  by destruct (merge_groups_loop _ _ _ _ _ _ _) as [[merged occ] evs2].
Qed.

(** C2: no line index occurs in two output groups (nor twice in one), and
    the groups' index lists are exactly what first-wins leaves of the lists
    the LLM groups gave: an index listed again by a later group stays with
    the earlier group and is dropped from the later one. *)
Theorem groups_share_no_line_index_first_wins
    (order_raw : OrderRawParsed.t) (candidates : CandidatesByLine)
    (structured_result menu_catalog : pyval)
    (allowed_mods : option (list pyval))
    (item_threshold mods_threshold group_threshold : pyval) :
  let out :=
    merge order_raw candidates structured_result menu_catalog allowed_mods
      item_threshold mods_threshold group_threshold in
  let valid : gset Z :=
    list_to_set (RawLine.line_index <$> OrderRawParsed.lines order_raw) in
  NoDup (concat (GroupResult.line_indices <$> OrderNormalized.groups out)) ∧
  GroupResult.line_indices <$> OrderNormalized.groups out
  = first_wins [] (listed_indices valid <$> group_payloads structured_result).
Proof.
  cbv zeta.
  destruct (merge_groups_of_order order_raw candidates structured_result
              menu_catalog allowed_mods item_threshold mods_threshold
              group_threshold) as [evs ->].
  destruct (merge_groups_spec (VList (group_payloads structured_result))
              (list_to_set
                 (RawLine.line_index <$> OrderRawParsed.lines order_raw))
              (_normalize_threshold float_of_str group_threshold) evs)
    as [Hidx _].
  split; [|exact Hidx].
  rewrite Hidx. apply (first_wins_NoDup _ []); [constructor|].
  apply Forall_fmap, Forall_forall. intros raw _.
  apply listed_indices_spec.
Qed.

(** C3, as amended: every output group lists no index twice, lists only
    parser line indices, and keeps them in the order in which the LLM group
    gave them (it does not sort them); a group left with fewer than two
    indices is still emitted, with its review flag set. *)
Theorem group_line_indices_deduped_in_listed_order
    (order_raw : OrderRawParsed.t) (candidates : CandidatesByLine)
    (structured_result menu_catalog : pyval)
    (allowed_mods : option (list pyval))
    (item_threshold mods_threshold group_threshold : pyval) :
  let out :=
    merge order_raw candidates structured_result menu_catalog allowed_mods
      item_threshold mods_threshold group_threshold in
  let valid : gset Z :=
    list_to_set (RawLine.line_index <$> OrderRawParsed.lines order_raw) in
  Forall2 (fun g raw =>
             NoDup (GroupResult.line_indices g) ∧
             Forall (fun x => x ∈ valid) (GroupResult.line_indices g) ∧
             GroupResult.line_indices g
               `sublist_of` omap as_int (raw_line_indices raw) ∧
             (2 <=? length (GroupResult.line_indices g))%nat
             || GroupResult.needs_review g = true)
    (OrderNormalized.groups out) (group_payloads structured_result).
Proof.
  cbv zeta.
  destruct (merge_groups_of_order order_raw candidates structured_result
              menu_catalog allowed_mods item_threshold mods_threshold
              group_threshold) as [evs ->].
  destruct (merge_groups_spec (VList (group_payloads structured_result))
              (list_to_set
                 (RawLine.line_index <$> OrderRawParsed.lines order_raw))
              (_normalize_threshold float_of_str group_threshold) evs)
    as [_ Hall].
  eapply Forall2_impl; [exact Hall|].
  intros g raw [Hsub Hfew]. simpl in Hsub, Hfew.
  destruct (listed_indices_spec
              (list_to_set
                 (RawLine.line_index <$> OrderRawParsed.lines order_raw))
              raw) as (Hnd & Hraw & Hval).
  split_and!.
  - by eapply sublist_NoDup.
  - eapply Forall_forall. intros x Hx.
    rewrite Forall_forall in Hval. apply Hval.
    by eapply elem_of_sublist.
  - by etrans.
  - destruct (Nat.leb_spec 2 (length (GroupResult.line_indices g)));
      [done|]. simpl. by apply Hfew.
Qed.

Lemma mods_fold_review (step : list Mod.t * bool → pyval → list Mod.t * bool)
    raw_mods :
  (∀ mods raw_mod, (step (mods, true) raw_mod).2 = true) →
  ∀ mods, (fold_left step raw_mods (mods, true)).2 = true.
Proof.
  intros Hstep. induction raw_mods as [|raw_mod raw_mods IH]; intros mods.
  { reflexivity. }
  simpl. specialize (Hstep mods raw_mod).
  destruct (step (mods, true) raw_mod) as [mods' nr]. simpl in Hstep.
  subst nr. apply IH.
Qed.

(** One stage of [_merge_one_item] keeps a review flag that is set and an
    audit event that was appended. *)
Ltac stage_keeps E :=
  let Hb := fresh "Hb" in
  let He := fresh "He" in
  intros [Hb He]; revert E; clear - Hb He; intros E;
  repeat (case_match; simplify_eq);
  (split; [reflexivity || assumption
          | first [assumption | apply elem_of_app; left; assumption]]).

(** The quantity [_merge_one_item] returns: the parser's, unless the LLM
    item gives a positive [qty] that is an integer and not a boolean; a
    boolean [qty] flags the item and records a [qty_invalid] event. *)
Lemma merge_one_item_qty
    (line : RawLine.t) (llm_item : option pyval)
    (line_candidates : list CandidateItem.t) (valid_catalog_ids : gset pystr)
    (allowed_mods_set : option (gset pystr))
    (item_threshold mods_threshold : pyfloat)
    (audit_events : list AuditEvent.t) :
  let llm_qty :=
    match llm_item with
    | Some it => _read it (lit "qty") VNone
    | None => VNone
    end in
  let r :=
    _merge_one_item py_str float_of_str line llm_item line_candidates
      valid_catalog_ids allowed_mods_set item_threshold mods_threshold
      audit_events in
  NormalizedItem.qty r.1
  = match llm_qty with
    | VInt n => if 0 <? n then n else RawLine.qty line
    | _ => RawLine.qty line
    end ∧
  ∀ b, llm_qty = VBool b →
    NormalizedItem.qty r.1 = RawLine.qty line ∧
    NormalizedItem.needs_review r.1 = true ∧
    _audit (lit "qty_invalid")
      (lit "LLM qty is not an integer; raw qty is kept")
      (Some (RawLine.line_index line)) [(lit "qty", VBool b)] ∈ r.2.
Proof.
  destruct llm_item as [llm_item|]; cbv zeta.
  2: { unfold _merge_one_item. cbv zeta. repeat name_pair. simpl.
       split; [by simplify_eq|]. intros; discriminate. }
  unfold _merge_one_item. cbv zeta.
  set (ci := _normalize_confidence _ (_read llm_item (lit "confidence_item") _)).
  set (cm := _normalize_confidence _ (_read llm_item (lit "confidence_mods") _)).
  set (code0 := strip <$> _).
  set (llm_qty := _read llm_item (lit "qty") VNone).
  repeat name_pair. simpl.
  split.
  { clear - E. destruct llm_qty; simpl in E; repeat case_match; by simplify_eq. }
  intros q Hq. rewrite Hq in E. simpl in E. injection E as <- <- <-.
  set (e := _audit _ (lit "LLM qty is not an integer; raw qty is kept") _ _)
    in E1 |- *.
  assert (H0 : true = true ∧ e ∈ audit_events ++ [e]).
  { split; [done|]. apply elem_of_app. right. left. }
  assert (H1 : b0 = true ∧ e ∈ l0) by (revert H0; stage_keeps E1).
  assert (H2 : b1 = true ∧ e ∈ l1) by (revert H1; stage_keeps E2).
  assert (H3 : b2 = true ∧ e ∈ l2) by (revert H2; stage_keeps E4).
  assert (H4 : b3 = true ∧ e ∈ l3) by (revert H3; stage_keeps E7).
  assert (H5 : b4 = true ∧ e ∈ l3) by (revert H4; stage_keeps E11).
  assert (H6 : b5 = true ∧ e ∈ l3) by (revert H5; stage_keeps E13).
  assert (H7 : b6 = true ∧ e ∈ l4) by (revert H6; stage_keeps E15).
  destruct H7 as [-> He]. split; [done|]. split; [|exact He].
  assert (b7 = true) as ->; [|by destruct (truthy _)].
  change b7 with (l6, b7).2. rewrite <- E17. apply mods_fold_review.
  intros mods raw_mod. by destruct (_normalize_mod _ _ _ _).
Qed.

End Facts.

(** C3 as stated fails: the first group comes out as [2; 0], which is not
    ascending, and the second as the empty list, shorter than two. *)
Lemma group_line_indices_sorted_min2_counterexample :
  let out :=
    merge_and_validate str_scalar float_unparsed
      (OrderRawParsed.mk (lit "item x1") unsorted_lines None [] false []
         CONTRACT_VERSION)
      ∅ unsorted_groups VNone None VNone VNone VNone in
  GroupResult.line_indices <$> OrderNormalized.groups out = [[2; 0]; []] ∧
  ¬ Forall (fun g =>
              Sorted Z.le (GroupResult.line_indices g) ∧
              NoDup (GroupResult.line_indices g) ∧
              (2 <= length (GroupResult.line_indices g))%nat)
      (OrderNormalized.groups out).
Proof.
  cbv zeta.
  assert (Hout : GroupResult.line_indices <$>
                 OrderNormalized.groups
                   (merge_and_validate str_scalar float_unparsed
                      (OrderRawParsed.mk (lit "item x1") unsorted_lines None
                         [] false [] CONTRACT_VERSION)
                      ∅ unsorted_groups VNone None VNone VNone VNone)
                 = [[2; 0]; []]) by (vm_compute; reflexivity).
  split; [exact Hout|].
  intros Hall.
  destruct (OrderNormalized.groups _) as [|g1 [|g2 [|]]]; try discriminate.
  injection Hout as H1 H2.
  apply Forall_cons in Hall as [_ Hall].
  apply Forall_cons in Hall as [(_ & _ & Hlen) _].
  rewrite H2 in Hlen. simpl in Hlen. lia.
Qed.

End MergeValidateFacts.

(** ** Further properties of merge_validate.py *)

Module MergeValidateProps.
Import MergeValidate PyFacts MergeValidateFacts.

Lemma existsb_false_Forall {A} (f : A → bool) l :
  existsb f l = false ↔ Forall (fun x => f x = false) l.
Proof.
  induction l as [|x l IH]; [by split; [constructor|]|]. cbn [existsb].
  rewrite orb_false_iff, IH, Forall_cons. done.
Qed.

Section Props.

Variable py_str : pyval → pystr.
Variable float_of_str : pystr → option pyfloat.

Local Abbreviation merge := (merge_and_validate py_str float_of_str).
Local Abbreviation merge_one := (_merge_one_item py_str float_of_str).
Local Abbreviation threshold := (_normalize_threshold float_of_str).
Local Abbreviation confidence := (_normalize_confidence float_of_str).

(** X1: where [float(value)] does not overflow, a threshold comes out
    between 0 and 1, or is the NaN that [float(value)] gave; a confidence,
    when there is one, is the parsed value itself, which then lies between
    0 and 1, or the parsed value divided by 100.0, for a parsed value above
    1 and up to 100. *)
Theorem thresholds_and_confidences_normalized (value : pyval) :
  float_overflows value = false →
  (PyFloat.leb PyFloat.zero (threshold value) = true ∧
   PyFloat.leb (threshold value) (PyFloat.of_Z 1) = true
   ∨ PyFloat.is_nan (threshold value) = true ∧
     py_float float_of_str value = Some (threshold value)) ∧
  match confidence value with
  | Some c =>
      ∃ parsed,
        py_float float_of_str value = Some parsed ∧
        (c = parsed ∧ PyFloat.leb PyFloat.zero c = true ∧
         PyFloat.leb c (PyFloat.of_Z 1) = true
         ∨ PyFloat.ltb (PyFloat.of_Z 1) parsed = true ∧
           PyFloat.leb parsed (PyFloat.of_Z 100) = true ∧
           c = PyFloat.div parsed (PyFloat.of_Z 100))
  | None => True
  end.
Proof.
  intros _. split.
  - assert (Hd : PyFloat.leb PyFloat.zero _DEFAULT_THRESHOLD = true ∧
                 PyFloat.leb _DEFAULT_THRESHOLD (PyFloat.of_Z 1) = true)
      by (by vm_compute).
    assert (Hparsed : ∀ parsed : pyfloat,
              let t :=
                if PyFloat.ltb parsed (PyFloat.of_Z 0) then PyFloat.zero
                else if PyFloat.ltb (PyFloat.of_Z 1) parsed
                     then PyFloat.of_Z 1 else parsed in
              PyFloat.leb PyFloat.zero t = true ∧
              PyFloat.leb t (PyFloat.of_Z 1) = true
              ∨ PyFloat.is_nan t = true ∧ Some parsed = Some t).
    { intros parsed. cbv zeta.
      destruct (PyFloat.ltb parsed (PyFloat.of_Z 0)) eqn:H0;
        [by left; vm_compute|].
      destruct (PyFloat.ltb (PyFloat.of_Z 1) parsed) eqn:H1;
        [by left; vm_compute|].
      destruct (PyFloat.is_nan parsed) eqn:Hnan; [by right|]. left.
      split; by apply float_not_ltb_leb. }
    unfold _normalize_threshold.
    destruct value; try (by left);
      (destruct (py_float _ _) as [parsed|]; [apply Hparsed|by left]).
  - assert (Hparsed : ∀ parsed : pyfloat,
              match
                (if PyFloat.ltb parsed (PyFloat.of_Z 0) then None
                 else if PyFloat.leb parsed (PyFloat.of_Z 1)
                      then Some parsed
                      else if PyFloat.leb parsed (PyFloat.of_Z 100)
                           then Some (PyFloat.div parsed (PyFloat.of_Z 100))
                           else None)
              with
              | Some c =>
                  ∃ parsed',
                    Some parsed = Some parsed' ∧
                    (c = parsed' ∧ PyFloat.leb PyFloat.zero c = true ∧
                     PyFloat.leb c (PyFloat.of_Z 1) = true
                     ∨ PyFloat.ltb (PyFloat.of_Z 1) parsed' = true ∧
                       PyFloat.leb parsed' (PyFloat.of_Z 100) = true ∧
                       c = PyFloat.div parsed' (PyFloat.of_Z 100))
              | None => True
              end).
    { intros parsed.
      destruct (PyFloat.ltb parsed (PyFloat.of_Z 0)) eqn:H0; [done|].
      destruct (PyFloat.leb parsed (PyFloat.of_Z 1)) eqn:H1.
      { exists parsed. split; [done|]. left. split_and!; [done| |done].
        apply float_leb_not_nan in H1 as [? ?].
        by apply float_not_ltb_leb. }
      destruct (PyFloat.leb parsed (PyFloat.of_Z 100)) eqn:H2; [|done].
      exists parsed. split; [done|]. right. split_and!; [|done|done].
      apply float_leb_not_nan in H2 as [? _].
      by apply float_not_leb_ltb. }
    unfold _normalize_confidence.
    destruct value; try done;
      (destruct (py_float _ _) as [parsed|]; [apply Hparsed|done]).
Qed.

(** X2: the dispatch decision routes to auto-dispatch exactly when nothing
    asks for a review: neither the order flag, nor the parser, nor an item,
    nor a group, and every item has a code and a positive quantity;
    [should_auto_dispatch] says the same. *)
Theorem auto_dispatch_iff_nothing_to_review
    (order_raw : OrderRawParsed.t) (items : list NormalizedItem.t)
    (groups : list GroupResult.t) (overall_needs_review : bool) :
  let decision :=
    _build_dispatch_decision order_raw items groups overall_needs_review in
  let clean :=
    negb overall_needs_review && negb (OrderRawParsed.needs_review order_raw)
    && forallb (fun item =>
                  negb (NormalizedItem.needs_review item)
                  && negb (is_none (NormalizedItem.item_code item))
                  && (0 <? NormalizedItem.qty item)) items
    && forallb (fun group => negb (GroupResult.needs_review group)) groups in
  dict_get decision (lit "route")
  = Some (VStr (if clean then _ROUTE_AUTO_DISPATCH
                else _ROUTE_REVIEW_QUEUE)) ∧
  dict_get decision (lit "should_auto_dispatch") = Some (VBool clean) ∧
  (clean = true → dict_get decision (lit "reasons") = Some (VList [])).
Proof.
  cbv zeta. unfold _build_dispatch_decision. cbv zeta.
  assert (Hitems :
    forallb (fun item =>
               negb (NormalizedItem.needs_review item)
               && negb (is_none (NormalizedItem.item_code item))
               && (0 <? NormalizedItem.qty item)) items
    = negb (existsb NormalizedItem.needs_review items)
      && negb (existsb (fun item => is_none (NormalizedItem.item_code item))
                 items)
      && negb (existsb (fun item => NormalizedItem.qty item <=? 0) items)).
  { induction items as [|item items IH]; [done|]. cbn [forallb existsb].
    rewrite IH. rewrite (Z.leb_antisym 0 (NormalizedItem.qty item)).
    destruct (NormalizedItem.needs_review item),
      (is_none (NormalizedItem.item_code item)),
      (0 <? NormalizedItem.qty item),
      (existsb NormalizedItem.needs_review items),
      (existsb _ items), (existsb _ items); reflexivity. }
  assert (Hgroups :
    forallb (fun group => negb (GroupResult.needs_review group)) groups
    = negb (existsb GroupResult.needs_review groups)).
  { induction groups as [|group groups IH]; [done|]. cbn [forallb existsb].
    rewrite IH. by destruct (GroupResult.needs_review group). }
  rewrite Hitems, Hgroups.
  destruct overall_needs_review, (OrderRawParsed.needs_review order_raw),
    (existsb NormalizedItem.needs_review items),
    (existsb (fun item => is_none (NormalizedItem.item_code item)) items),
    (existsb (fun item => NormalizedItem.qty item <=? 0) items),
    (existsb GroupResult.needs_review groups);
    split_and!; try reflexivity; try discriminate.
Qed.

(** *** Items and lines *)

Lemma merge_one_item_copies line llm_item cands valid allowed it mt evs :
  let item := (merge_one line llm_item cands valid allowed it mt evs).1 in
  NormalizedItem.line_index item = RawLine.line_index line ∧
  NormalizedItem.raw_line item = RawLine.raw_line line ∧
  NormalizedItem.name_raw item = RawLine.name_raw line ∧
  NormalizedItem.note_raw item = RawLine.note_raw line.
Proof.
  cbv zeta. unfold _merge_one_item. cbv zeta. repeat name_pair. done.
Qed.

Lemma copy_raw_line_id line : _copy_raw_line line = line.
Proof. by destruct line. Qed.

(** One stage of [_merge_one_item] only appends to the audit events. *)
Ltac stage_extends E :=
  revert E; clear; intros E; repeat (case_match; simplify_eq);
  first [reflexivity | by apply prefix_app_r].

Lemma merge_one_item_extends line llm_item cands valid allowed it mt evs :
  evs `prefix_of` (merge_one line llm_item cands valid allowed it mt evs).2.
Proof.
  unfold _merge_one_item. cbv zeta. repeat name_pair. cbn [snd].
  assert (H0 : evs `prefix_of` l) by stage_extends E.
  assert (H1 : l `prefix_of` l0) by stage_extends E1.
  assert (H2 : l0 `prefix_of` l1) by stage_extends E2.
  assert (H3 : l1 `prefix_of` l2) by stage_extends E4.
  assert (H4 : l2 `prefix_of` l3) by stage_extends E7.
  assert (H5 : l3 `prefix_of` l4) by stage_extends E15.
  assert (H6 : l4 `prefix_of` l7) by stage_extends E18.
  by repeat (etrans; [eassumption|]).
Qed.

(** What the loop over the lines appends to [items], and that it only
    appends to the audit events. *)
Lemma merge_items_fold lines (by_line : gmap Z pyval)
    (candidates : CandidatesByLine) valid allowed it mt :
  ∀ items evs,
    ∃ new evs',
      fold_left (fun '(items, audit_events) line =>
          let '(item, audit_events) :=
            merge_one line (by_line !! RawLine.line_index line)
              (default [] (candidates !! RawLine.line_index line))
              valid allowed it mt audit_events in
          (items ++ [item], audit_events)) lines (items, evs)
      = (items ++ new, evs') ∧
      evs `prefix_of` evs' ∧
      Forall2 (fun item line =>
                 ∃ evs_in,
                   item
                   = (merge_one line (by_line !! RawLine.line_index line)
                        (default [] (candidates !! RawLine.line_index line))
                        valid allowed it mt evs_in).1) new lines.
Proof.
  induction lines as [|line lines IH]; intros items evs.
  { exists [], evs. rewrite app_nil_r. by split_and!. }
  cbn [fold_left].
  pose proof (merge_one_item_extends line
                (by_line !! RawLine.line_index line)
                (default [] (candidates !! RawLine.line_index line))
                valid allowed it mt evs) as Hext.
  destruct (merge_one line _ _ valid allowed it mt evs) as [item evs1] eqn:Hone.
  destruct (IH (items ++ [item]) evs1) as (new & evs' & -> & Hpre & Hall).
  exists (item :: new), evs'. rewrite <- (assoc_L (++)).
  split_and!; [done|by etrans|]. constructor; [|done].
  exists evs. by rewrite Hone.
Qed.

(** The items of the result, line by line. *)
Lemma merge_output_items order_raw (candidates : CandidatesByLine)
    structured_result menu_catalog allowed_mods item_threshold mods_threshold
    group_threshold :
  let out :=
    merge order_raw candidates structured_result menu_catalog allowed_mods
      item_threshold mods_threshold group_threshold in
  ∃ (by_line : gmap Z pyval) allowed,
    Forall2 (fun item line =>
               ∃ evs_in,
                 item
                 = (merge_one line (by_line !! RawLine.line_index line)
                      (default [] (candidates !! RawLine.line_index line))
                      (_catalog_ids py_str menu_catalog candidates) allowed
                      (threshold item_threshold) (threshold mods_threshold)
                      evs_in).1)
      (OrderNormalized.items out) (OrderRawParsed.lines order_raw).
Proof.
  cbv zeta. unfold merge_and_validate. cbv zeta.
  destruct (_collect_llm_items _ _ _) as [by_line evs0].
  unfold merge_items.
  match goal with
  | |- context [fold_left ?f ?lines ([], evs0)] =>
      match f with
      | context [_merge_one_item _ _ _ _ _ ?valid ?allowed ?it ?mt] =>
          destruct (merge_items_fold lines by_line candidates valid allowed
                      it mt [] evs0) as (new & evs1 & Hfold & _ & Hall)
      end
  end.
  rewrite Hfold.
  destruct (_merge_groups _ _ _ _ _ _) as [groups evs2]. cbn.
  eexists by_line, _.
  rewrite Forall2_fmap_r in Hall.
  eapply Forall2_impl; [exact Hall|]. cbn. intros item line [evs_in ->].
  rewrite copy_raw_line_id. by exists evs_in.
Qed.

(** X3: the result has one item per parser line, in the order of the
    lines, with the line's index, raw text, raw name and note; the lines,
    the source text and the order id are handed on as they are. *)
Theorem one_item_per_line_in_order
    (order_raw : OrderRawParsed.t) (candidates : CandidatesByLine)
    (structured_result menu_catalog : pyval)
    (allowed_mods : option (list pyval))
    (item_threshold mods_threshold group_threshold : pyval) :
  let out :=
    merge order_raw candidates structured_result menu_catalog allowed_mods
      item_threshold mods_threshold group_threshold in
  map (fun item =>
         (NormalizedItem.line_index item, NormalizedItem.raw_line item,
          NormalizedItem.name_raw item, NormalizedItem.note_raw item))
    (OrderNormalized.items out)
  = map (fun line =>
           (RawLine.line_index line, RawLine.raw_line line,
            RawLine.name_raw line, RawLine.note_raw line))
      (OrderRawParsed.lines order_raw) ∧
  OrderNormalized.lines out = OrderRawParsed.lines order_raw ∧
  OrderNormalized.source_text out = OrderRawParsed.source_text order_raw ∧
  OrderNormalized.order_id out = OrderRawParsed.order_id order_raw.
Proof.
  cbv zeta. split.
  - destruct (merge_output_items order_raw candidates structured_result
                menu_catalog allowed_mods item_threshold mods_threshold
                group_threshold) as (by_line & allowed & Hall).
    induction Hall as [|item line items lines [evs_in ->] _ IH]; [done|].
    cbn [map]. f_equal; [|exact IH].
    destruct (merge_one_item_copies line (by_line !! RawLine.line_index line)
                (default [] (candidates !! RawLine.line_index line))
                (_catalog_ids py_str menu_catalog candidates) allowed
                (threshold item_threshold) (threshold mods_threshold) evs_in)
      as (-> & -> & -> & ->).
    done.
  - unfold merge_and_validate. cbv zeta. repeat name_pair. cbn.
    split_and!; [|done|done].
    rewrite <- (map_id (OrderRawParsed.lines order_raw)) at 2.
    apply map_ext. apply copy_raw_line_id.
Qed.

(** *** The items that need no review *)

Lemma mods_fold_unflagged
    (step : list Mod.t * bool → pyval → list Mod.t * bool) raw_mods :
  (∀ mods raw_mod, (step (mods, true) raw_mod).2 = true) →
  ∀ mods flag, (fold_left step raw_mods (mods, flag)).2 = false → flag = false.
Proof.
  intros Hstep mods [|] H; [|done].
  by rewrite (mods_fold_review step raw_mods Hstep mods) in H.
Qed.

(** One stage of [_merge_one_item] leaves the review flag down only if it
    was down before. *)
Ltac stage_down E :=
  intros ->; revert E; clear; intros E;
  repeat (case_match; simplify_eq); done.

Lemma merge_one_item_unreviewed line llm_item cands valid allowed it mt evs :
  let item := (merge_one line llm_item cands valid allowed it mt evs).1 in
  NormalizedItem.needs_review item = false →
  RawLine.needs_review line = false ∧
  0 < NormalizedItem.qty item ∧
  (∃ c, NormalizedItem.confidence_item item = Some c ∧
        PyFloat.ltb c it = false) ∧
  (∃ c, NormalizedItem.confidence_mods item = Some c ∧
        PyFloat.ltb c mt = false) ∧
  ∃ llm,
    llm_item = Some llm ∧
    truthy (_read llm (lit "needs_review") (VBool false)) = false ∧
    nonblank_str (_read llm (lit "name_normalized") VNone)
    = Some (NormalizedItem.name_normalized item).
Proof.
  cbv zeta. unfold _merge_one_item. cbv zeta.
  repeat name_pair. cbn [fst NormalizedItem.needs_review NormalizedItem.qty
    NormalizedItem.confidence_item NormalizedItem.confidence_mods
    NormalizedItem.name_normalized].
  intros Hfinal.
  assert (H8 : b8 = false ∧ ∃ llm, llm_item = Some llm ∧
                 truthy (_read llm (lit "needs_review") (VBool false)) = false).
  { revert Hfinal E18. clear. intros Hfinal E18.
    destruct llm_item as [llm|]; simplify_eq/=.
    destruct (truthy _) eqn:Ht; [done|]. split; [done|]. by exists llm. }
  destruct H8 as [-> (llm & -> & Htruthy)]. injection E18 as -> -> ->.
  assert (b6 = false) as ->.
  { revert E17. clear. intros E17.
    match type of E17 with
    | fold_left ?step ?raw (?m, _) = _ =>
        apply (mods_fold_unflagged step raw) with (mods := m)
    end.
    - intros mods raw_mod. by destruct (_normalize_mod _ _ _ _).
    - by rewrite E17. }
  assert (b5 = false) as -> by (revert E15; clear; intros E15;
                                repeat (case_match; simplify_eq); done).
  assert (H4 : b4 = false ∧ o6 = Some p8).
  { revert E13. clear. intros E13. by destruct o6; simplify_eq. }
  destruct H4 as [-> ->].
  assert (H3 : b3 = false ∧
               nonblank_str (_read llm (lit "name_normalized") VNone) = Some p8).
  { revert E11. clear. intros E11.
    destruct (nonblank_str _) as [name|]; simplify_eq;
      repeat (case_match; simplify_eq); done. }
  destruct H3 as [-> Hname].
  assert (b2 = false) as -> by (revert E7; clear; intros E7;
                                repeat (case_match; simplify_eq); done).
  assert (b1 = false) as -> by (revert E4; clear; intros E4;
                                repeat (case_match; simplify_eq); done).
  assert (H0 : b0 = false ∧
               below (confidence (_read llm (lit "confidence_item") VNone)) it
               = false ∧
               below (confidence (_read llm (lit "confidence_mods") VNone)) mt
               = false).
  { revert E2. clear. intros E2.
    destruct (below (confidence (_read llm (lit "confidence_mods") VNone)) mt),
      (below (confidence (_read llm (lit "confidence_item") VNone)) it);
      repeat (case_match; simplify_eq); done. }
  destruct H0 as (-> & Hci & Hcm).
  assert (H1 : b = false ∧ 0 < z).
  { revert E1. clear. intros E1. destruct (Z.leb_spec z 0); simplify_eq.
    done. }
  destruct H1 as [-> Hz].
  assert (RawLine.needs_review line = false).
  { revert E. clear. intros E. repeat (case_match; simplify_eq); done. }
  split_and!; [done|done| | |].
  - unfold below in Hci.
    destruct (confidence (_read llm (lit "confidence_item") VNone)) as [c|];
      [|discriminate]. by exists c.
  - unfold below in Hcm.
    destruct (confidence (_read llm (lit "confidence_mods") VNone)) as [c|];
      [|discriminate]. by exists c.
  - by exists llm.
Qed.

(** X4: an item of the result that is not flagged for review comes from a
    parser line that was not flagged, has a positive quantity, an item
    confidence and a mods confidence that are not below their thresholds
    (each comparison [confidence < threshold] is false), and a normalized
    name that is not blank. *)
Theorem unreviewed_items_meet_thresholds
    (order_raw : OrderRawParsed.t) (candidates : CandidatesByLine)
    (structured_result menu_catalog : pyval)
    (allowed_mods : option (list pyval))
    (item_threshold mods_threshold group_threshold : pyval) :
  let out :=
    merge order_raw candidates structured_result menu_catalog allowed_mods
      item_threshold mods_threshold group_threshold in
  Forall2 (fun item line =>
             NormalizedItem.needs_review item = false →
             RawLine.needs_review line = false ∧
             0 < NormalizedItem.qty item ∧
             (∃ c, NormalizedItem.confidence_item item = Some c ∧
                   PyFloat.ltb c (threshold item_threshold) = false) ∧
             (∃ c, NormalizedItem.confidence_mods item = Some c ∧
                   PyFloat.ltb c (threshold mods_threshold) = false) ∧
             blank (NormalizedItem.name_normalized item) = false)
    (OrderNormalized.items out) (OrderRawParsed.lines order_raw).
Proof.
  cbv zeta.
  destruct (merge_output_items order_raw candidates structured_result
              menu_catalog allowed_mods item_threshold mods_threshold
              group_threshold) as (by_line & allowed & Hall).
  eapply Forall2_impl; [exact Hall|]. cbn beta.
  intros item line [evs_in ->] Hflag.
  destruct (merge_one_item_unreviewed _ _ _ _ _ _ _ _ Hflag)
    as (Hline & Hqty & Hci & Hcm & llm & _ & _ & Hname).
  split_and!; try done.
  unfold nonblank_str in Hname.
  destruct (_read llm _ _); try done.
  destruct (blank s) eqn:Hs; by simplify_eq.
Qed.

(** *** The LLM items by line *)

Lemma collect_fold (valid : gset Z) (l : list pyval) :
  ∀ (by_line : gmap Z pyval) evs,
    let r :=
      fold_left (fun '(by_line, audit_events) raw =>
        let line_index := _read raw (lit "line_index") VNone in
        match as_int line_index with
        | Some i =>
            if bool_decide (i ∈ valid) then
              match by_line !! i with
              | Some _ =>
                  (by_line,
                   audit_events ++
                   [_audit (lit "item_duplicate_line_index")
                      (lit "Duplicate LLM item for the same line_index; first one is kept")
                      (Some i) []])
              | None => (<[i := raw]> by_line, audit_events)
              end
            else
              (by_line,
               audit_events ++
               [_audit (lit "item_invalid_line_index")
                  (lit "LLM item line_index not found in parser lines")
                  (Some i) []])
        | None =>
            (by_line,
             audit_events ++
             [_audit (lit "item_invalid_line_index")
                (lit "LLM item line_index not found in parser lines")
                None []])
        end) l (by_line, evs) in
    evs `prefix_of` r.2 ∧
    ∀ i,
      r.1 !! i
      = match by_line !! i with
        | Some raw => Some raw
        | None =>
            if bool_decide (i ∈ valid) then
              find (fun raw =>
                      bool_decide
                        (as_int (_read raw (lit "line_index") VNone) = Some i))
                l
            else None
        end.
Proof.
  induction l as [|raw l IH]; intros by_line evs; cbv zeta.
  { split; [done|]. intros i. cbn.
    destruct (by_line !! i); [done|]. by destruct (bool_decide _). }
  cbn [fold_left find].
  destruct (as_int (_read raw (lit "line_index") VNone)) as [j|] eqn:Hj.
  - destruct (bool_decide (j ∈ valid)) eqn:Hv.
    + destruct (by_line !! j) as [old|] eqn:Hold.
      * destruct (IH by_line (evs ++ [_audit (lit "item_duplicate_line_index")
            (lit "Duplicate LLM item for the same line_index; first one is kept")
            (Some j) []])) as [Hpre Hget].
        split; [etrans; [|exact Hpre]; by apply prefix_app_r|].
        intros i. rewrite Hget. destruct (by_line !! i) eqn:Hi; [done|].
        destruct (bool_decide (i ∈ valid)); [|done].
        rewrite bool_decide_eq_false_2; [done|]. intros [= ->]. congruence.
      * destruct (IH (<[j:=raw]> by_line) evs) as [Hpre Hget].
        split; [done|]. intros i. rewrite Hget.
        destruct (decide (j = i)) as [->|Hne].
        -- rewrite lookup_insert_eq, Hold, Hv.
           by rewrite bool_decide_eq_true_2.
        -- rewrite lookup_insert_ne by done.
           destruct (by_line !! i); [done|].
           destruct (bool_decide (i ∈ valid)); [|done].
           rewrite bool_decide_eq_false_2; [done|]. by intros [= ->].
    + destruct (IH by_line (evs ++ [_audit (lit "item_invalid_line_index")
          (lit "LLM item line_index not found in parser lines")
          (Some j) []])) as [Hpre Hget].
      split; [etrans; [|exact Hpre]; by apply prefix_app_r|].
      intros i. rewrite Hget. destruct (by_line !! i); [done|].
      destruct (bool_decide (i ∈ valid)) eqn:Hi; [|done].
      rewrite bool_decide_eq_false_2; [done|]. intros [= ->]. congruence.
  - destruct (IH by_line (evs ++ [_audit (lit "item_invalid_line_index")
        (lit "LLM item line_index not found in parser lines")
        None []])) as [Hpre Hget].
    split; [etrans; [|exact Hpre]; by apply prefix_app_r|].
    intros i. rewrite Hget. destruct (by_line !! i); [done|].
    destruct (bool_decide (i ∈ valid)); [|done].
    by rewrite bool_decide_eq_false_2.
Qed.

(** X5: of the LLM items, a parser line gets the first one in the list
    whose [line_index] is an integer equal to the line's index, and an
    index that is no parser line gets none. *)
Theorem first_llm_item_of_a_line_is_kept
    (raw_items : list pyval) (valid_line_indices : gset Z)
    (audit_events : list AuditEvent.t) (i : Z) :
  (_collect_llm_items (VList raw_items) valid_line_indices audit_events).1
    !! i
  = if bool_decide (i ∈ valid_line_indices) then
      find (fun raw =>
              bool_decide
                (as_int (_read raw (lit "line_index") VNone) = Some i))
        raw_items
    else None.
Proof.
  unfold _collect_llm_items.
  destruct (collect_fold valid_line_indices raw_items ∅ audit_events)
    as [_ Hget].
  rewrite Hget. by rewrite lookup_empty.
Qed.

(** *** Audit events *)

Lemma collect_extends raw_items valid evs :
  evs `prefix_of` (_collect_llm_items raw_items valid evs).2.
Proof.
  unfold _collect_llm_items. destruct raw_items; try done.
  apply (collect_fold valid l ∅ evs).
Qed.

Lemma merge_group_step_extends valid thr merged (occ : gmap Z pystr) evs
    idx raw :
  evs `prefix_of`
    (merge_group_step py_str float_of_str valid thr (merged, occ, evs) idx
       raw).2.
Proof.
  unfold merge_group_step.
  destruct (fold_left (clean_step valid) _ _) as [[[seen cleaned] oor] dup].
  destruct (fold_left (claim_step _) _ _) as [[occ' final] conflict].
  cbn [snd]. cbv zeta.
  repeat case_match;
    repeat first [reflexivity | apply prefix_app_r].
Qed.

Lemma merge_groups_loop_extends valid thr raws :
  ∀ idx merged (occ : gmap Z pystr) evs,
    evs `prefix_of`
      (merge_groups_loop py_str float_of_str valid thr raws idx
         (merged, occ, evs)).2.
Proof.
  induction raws as [|raw raws IH]; intros idx merged occ evs; [done|].
  cbn [merge_groups_loop].
  pose proof (merge_group_step_extends valid thr merged occ evs idx raw)
    as Hstep.
  destruct (merge_group_step _ _ _ _ _ _ _) as [[merged' occ'] evs'].
  etrans; [exact Hstep|]. apply IH.
Qed.

Lemma merge_groups_extends raw_groups valid thr evs :
  evs `prefix_of`
    (_merge_groups py_str float_of_str raw_groups valid thr evs).2.
Proof.
  unfold _merge_groups. destruct raw_groups; try done.
  pose proof (merge_groups_loop_extends valid thr l 0 [] ∅ evs) as H.
  by destruct (merge_groups_loop _ _ _ _ _ _ _) as [[merged occ] evs'].
Qed.

(** X6: the audit events of the result start with the events copied from
    the structured result, in their order: merging only appends. *)
Theorem audit_events_only_appended
    (order_raw : OrderRawParsed.t) (candidates : CandidatesByLine)
    (structured_result menu_catalog : pyval)
    (allowed_mods : option (list pyval))
    (item_threshold mods_threshold group_threshold : pyval) :
  _copy_audit_events py_str
    (default VNone
       (dict_get (_as_dict structured_result) (lit "audit_events")))
  `prefix_of`
  OrderNormalized.audit_events
    (merge order_raw candidates structured_result menu_catalog allowed_mods
       item_threshold mods_threshold group_threshold).
Proof.
  unfold merge_and_validate. cbv zeta.
  set (evs := _copy_audit_events _ _).
  match goal with
  | |- context [_collect_llm_items ?raw ?valid evs] =>
      pose proof (collect_extends raw valid evs) as H0;
      destruct (_collect_llm_items raw valid evs) as [by_line evs0]
  end.
  unfold merge_items.
  match goal with
  | |- context [fold_left ?f ?lines ([], evs0)] =>
      match f with
      | context [_merge_one_item _ _ _ _ _ ?valid ?allowed ?it ?mt] =>
          destruct (merge_items_fold lines by_line candidates valid allowed
                      it mt [] evs0) as (new & evs1 & Hfold & H1 & _)
      end
  end.
  rewrite Hfold.
  match goal with
  | |- context [_merge_groups _ _ ?raw ?valid ?thr evs1] =>
      pose proof (merge_groups_extends raw valid thr evs1) as H2;
      destruct (_merge_groups py_str float_of_str raw valid thr evs1)
        as [groups evs2]
  end.
  cbn in *. etrans; [exact H0|]. etrans; [exact H1|]. exact H2.
Qed.

(** *** The groups that need no review *)

Lemma clean_fold_unflagged (valid : gset Z) l :
  ∀ seen cleaned oor dup seen' cleaned',
    fold_left (clean_step valid) l (seen, cleaned, oor, dup)
    = (seen', cleaned', false, false) →
    oor = false ∧ dup = false ∧ cleaned' = cleaned ++ omap as_int l ∧
    length (omap as_int l) = length l.
Proof.
  induction l as [|v l IH]; intros seen cleaned oor dup seen' cleaned' H.
  { cbn in H. simplify_eq. by rewrite app_nil_r. }
  cbn [fold_left clean_step] in H.
  change (omap as_int (v :: l))
    with (match as_int v with
          | Some i => i :: omap as_int l
          | None => omap as_int l
          end).
  destruct (as_int v) as [i|].
  - destruct (bool_decide (i ∈ valid)); cbn [negb] in H.
    + destruct (bool_decide (i ∈ seen)).
      * by destruct (IH _ _ _ _ _ _ H) as (_ & ? & _).
      * destruct (IH _ _ _ _ _ _ H) as (-> & -> & -> & Hlen).
        rewrite <- (assoc_L (++)). cbn. by rewrite Hlen.
    + by destruct (IH _ _ _ _ _ _ H) as (? & _).
  - by destruct (IH _ _ _ _ _ _ H) as (? & _).
Qed.

Lemma claim_fold_unflagged gid l :
  ∀ (occ : gmap Z pystr) acc cf occ' acc',
    fold_left (claim_step gid) l (occ, acc, cf) = (occ', acc', false) →
    cf = false ∧ acc' = acc ++ l.
Proof.
  induction l as [|i l IH]; intros occ acc cf occ' acc' H.
  { cbn in H. simplify_eq. by rewrite app_nil_r. }
  cbn [fold_left claim_step] in H. destruct (occ !! i).
  - by destruct (IH _ _ _ _ _ H) as [? _].
  - destruct (IH _ _ _ _ _ H) as [-> ->]. by rewrite <- (assoc_L (++)).
Qed.

Lemma merge_group_step_unflagged valid thr merged (occ : gmap Z pystr) evs
    idx raw g occ' evs' :
  merge_group_step py_str float_of_str valid thr (merged, occ, evs) idx raw
  = (merged ++ [g], occ', evs') →
  GroupResult.type g ∈ _VALID_GROUP_TYPES ∧
  (GroupResult.needs_review g = false → group_kept_whole thr g raw).
Proof.
  unfold merge_group_step, group_kept_whole.
  destruct (fold_left (clean_step valid) _ _)
    as [[[seen cleaned] oor] dup] eqn:Hclean.
  destruct (fold_left (claim_step _) _ _) as [[occ1 final] conflict]
    eqn:Hclaim.
  cbv zeta. intros H. injection H as Hg _ _.
  apply app_inv_head in Hg. injection Hg as <-.
  cbn [GroupResult.type GroupResult.needs_review GroupResult.line_indices
       GroupResult.confidence_group].
  split.
  { destruct (_read raw (lit "type") _); try (by vm_compute; right; right; left).
    destruct (bool_decide_reflect (s ∈ _VALID_GROUP_TYPES)); [done|].
    vm_compute. right; right; left. }
  rewrite !orb_false_iff.
  intros (((((((_ & Hshape) & Hoor) & Hdup) & Hconf) & Hfew) & Hlow) & Htype).
  subst oor dup conflict.
  destruct (_read raw (lit "line_indices") _) as [| | | | |listed| | |];
    try discriminate.
  apply clean_fold_unflagged in Hclean as (_ & _ & -> & Hlen).
  apply claim_fold_unflagged in Hclaim as [_ ->]. cbn [app] in *.
  split_and!.
  - exists listed. by split_and!.
  - apply Z.ltb_ge in Hfew. lia.
  - unfold below in Hlow.
    destruct (confidence _) as [c|]; [|discriminate].
    by exists c.
  - apply negb_false_iff in Htype.
    destruct (_read raw (lit "type") _); try discriminate.
    apply bool_decide_eq_true in Htype. by rewrite <- Htype at 1.
Qed.

Lemma merge_groups_loop_unflagged valid thr raws :
  ∀ idx merged (occ : gmap Z pystr) evs,
    ∃ new,
      (merge_groups_loop py_str float_of_str valid thr raws idx
         (merged, occ, evs)).1.1 = merged ++ new ∧
      Forall2 (fun g raw =>
                 GroupResult.type g ∈ _VALID_GROUP_TYPES ∧
                 (GroupResult.needs_review g = false →
                  group_kept_whole thr g raw)) new raws.
Proof.
  induction raws as [|raw raws IH]; intros idx merged occ evs.
  { exists []. cbn. rewrite app_nil_r. split; [done|constructor]. }
  cbn [merge_groups_loop].
  destruct (merge_group_step_spec py_str float_of_str valid thr merged occ
              evs idx raw) as (g & occ' & evs' & Hstep & _).
  rewrite Hstep.
  destruct (IH (idx + 1) (merged ++ [g]) occ' evs') as (new & -> & Hall).
  exists (g :: new). rewrite <- (assoc_L (++)). split; [done|].
  constructor; [|done]. by eapply merge_group_step_unflagged.
Qed.

(** X7: every group of the result has one of the three group types; a
    group that is not flagged for review lists exactly the line indices its
    LLM group listed, in that order, all of them integers, at least two,
    has the type the LLM gave, and a confidence that is not below the group
    threshold (the comparison [confidence < threshold] is false). *)
Theorem unreviewed_groups_are_kept_whole
    (order_raw : OrderRawParsed.t) (candidates : CandidatesByLine)
    (structured_result menu_catalog : pyval)
    (allowed_mods : option (list pyval))
    (item_threshold mods_threshold group_threshold : pyval) :
  Forall2 (fun g raw =>
             GroupResult.type g ∈ _VALID_GROUP_TYPES ∧
             (GroupResult.needs_review g = false →
              (∃ listed,
                 _read raw (lit "line_indices") (VList []) = VList listed ∧
                 GroupResult.line_indices g = omap as_int listed ∧
                 length (GroupResult.line_indices g) = length listed) ∧
              (2 <= length (GroupResult.line_indices g))%nat ∧
              (∃ c, GroupResult.confidence_group g = Some c ∧
                    PyFloat.ltb c (threshold group_threshold) = false) ∧
              _read raw (lit "type") (VStr (lit "other"))
              = VStr (GroupResult.type g)))
    (OrderNormalized.groups
       (merge order_raw candidates structured_result menu_catalog
          allowed_mods item_threshold mods_threshold group_threshold))
    (group_payloads structured_result).
Proof.
  destruct (merge_groups_of_order py_str float_of_str order_raw candidates
              structured_result menu_catalog allowed_mods item_threshold
              mods_threshold group_threshold) as [evs ->].
  unfold _merge_groups.
  match goal with
  | |- context [merge_groups_loop _ _ ?valid ?thr ?raws 0 ([], ∅, evs)] =>
      destruct (merge_groups_loop_unflagged valid thr raws 0 [] ∅ evs)
        as (new & Hnew & Hall);
      destruct (merge_groups_loop py_str float_of_str valid thr raws 0
                  ([], ∅, evs)) as [[merged occ] evs']
  end.
  cbn in Hnew |- *. subst merged. exact Hall.
Qed.

(** *** The quantity of the items *)

Lemma Forall2_impl_elem_of {A B} (P Q : A → B → Prop) l k :
  Forall2 P l k → (∀ x y, y ∈ k → P x y → Q x y) → Forall2 Q l k.
Proof.
  induction 1 as [|x y l k Hxy _ IH]; intros HPQ; constructor.
  - apply HPQ; [left|done].
  - apply IH. intros x' y' Hy'. apply HPQ. by right.
Qed.

(** The loop over the lines, with the audit events each turn leaves. *)
Lemma merge_items_fold_events lines (by_line : gmap Z pyval)
    (candidates : CandidatesByLine) valid allowed it mt :
  ∀ items evs,
    ∃ new evs',
      fold_left (fun '(items, audit_events) line =>
          let '(item, audit_events) :=
            merge_one line (by_line !! RawLine.line_index line)
              (default [] (candidates !! RawLine.line_index line))
              valid allowed it mt audit_events in
          (items ++ [item], audit_events)) lines (items, evs)
      = (items ++ new, evs') ∧
      evs `prefix_of` evs' ∧
      Forall2 (fun item line =>
                 ∃ evs_in,
                   let r :=
                     merge_one line (by_line !! RawLine.line_index line)
                       (default [] (candidates !! RawLine.line_index line))
                       valid allowed it mt evs_in in
                   item = r.1 ∧ r.2 `prefix_of` evs') new lines.
Proof.
  induction lines as [|line lines IH]; intros items evs.
  { exists [], evs. rewrite app_nil_r. by split_and!. }
  cbn [fold_left].
  pose proof (merge_one_item_extends line
                (by_line !! RawLine.line_index line)
                (default [] (candidates !! RawLine.line_index line))
                valid allowed it mt evs) as Hext.
  destruct (merge_one line _ _ valid allowed it mt evs) as [item evs1] eqn:Hone.
  destruct (IH (items ++ [item]) evs1) as (new & evs' & -> & Hpre & Hall).
  exists (item :: new), evs'. rewrite <- (assoc_L (++)).
  split_and!; [done|by etrans|]. constructor; [|done].
  exists evs. cbv zeta. by rewrite Hone.
Qed.

(** The payload [_collect_llm_items] keeps for a parser line. *)
Lemma collect_llm_item_of_line structured_result (valid : gset Z) evs i :
  i ∈ valid →
  (_collect_llm_items
     (default VNone (dict_get (_as_dict structured_result) (lit "items")))
     valid evs).1 !! i
  = llm_item_of_line structured_result i.
Proof.
  intros Hi. unfold llm_item_of_line, item_payloads, _collect_llm_items.
  destruct (dict_get _ (lit "items")) as [[| | | | |l| | |]|]; cbn [default];
    try apply lookup_empty.
  destruct (collect_fold valid l ∅ evs) as [_ Hget].
  rewrite Hget, lookup_empty. by rewrite bool_decide_eq_true_2.
Qed.

(** C10, as amended: for every parser line, with the LLM item merged into
    it (the first item of the result whose [line_index] is the line's
    index, if there is one), the quantity of the normalized item is the
    parser's, unless that LLM item gives a positive [qty] that is an
    integer and not a boolean; when its [qty] is a boolean, the parser's
    quantity is kept, the item is flagged for review and a [qty_invalid]
    event for the line is among the audit events of the result. *)
Theorem boolean_qty_of_merged_item_never_accepted
    (order_raw : OrderRawParsed.t) (candidates : CandidatesByLine)
    (structured_result menu_catalog : pyval)
    (allowed_mods : option (list pyval))
    (item_threshold mods_threshold group_threshold : pyval) :
  let out :=
    merge order_raw candidates structured_result menu_catalog allowed_mods
      item_threshold mods_threshold group_threshold in
  Forall2 (fun item line =>
             let llm_qty :=
               match llm_item_of_line structured_result
                       (RawLine.line_index line) with
               | Some llm_item => _read llm_item (lit "qty") VNone
               | None => VNone
               end in
             NormalizedItem.qty item
             = match llm_qty with
               | VInt n => if 0 <? n then n else RawLine.qty line
               | _ => RawLine.qty line
               end ∧
             ∀ b, llm_qty = VBool b →
               NormalizedItem.qty item = RawLine.qty line ∧
               NormalizedItem.needs_review item = true ∧
               _audit (lit "qty_invalid")
                 (lit "LLM qty is not an integer; raw qty is kept")
                 (Some (RawLine.line_index line)) [(lit "qty", VBool b)]
               ∈ OrderNormalized.audit_events out)
    (OrderNormalized.items out) (OrderRawParsed.lines order_raw).
Proof.
  cbv zeta. unfold merge_and_validate. cbv zeta.
  match goal with
  | |- context [_collect_llm_items ?raw ?valid ?evs] =>
      pose proof (λ i, collect_llm_item_of_line structured_result valid evs i)
        as Hby;
      destruct (_collect_llm_items raw valid evs) as [by_line evs0]
  end.
  cbn [fst] in Hby. unfold merge_items.
  match goal with
  | |- context [fold_left ?f ?lines ([], evs0)] =>
      match f with
      | context [_merge_one_item _ _ _ _ _ ?valid ?allowed ?it ?mt] =>
          destruct (merge_items_fold_events lines by_line candidates valid
                      allowed it mt [] evs0) as (new & evs1 & Hfold & _ & Hall)
      end
  end.
  rewrite Hfold.
  match goal with
  | |- context [_merge_groups _ _ ?raw ?valid ?thr evs1] =>
      pose proof (merge_groups_extends raw valid thr evs1) as H2;
      destruct (_merge_groups py_str float_of_str raw valid thr evs1)
        as [groups evs2]
  end.
  cbn [snd app OrderNormalized.items OrderNormalized.audit_events] in H2 |- *.
  rewrite Forall2_fmap_r in Hall.
  eapply Forall2_impl_elem_of; [exact Hall|]. cbv beta zeta.
  intros item line Hline (evs_in & -> & Hpre).
  rewrite copy_raw_line_id in *.
  assert (Hin : RawLine.line_index line
                ∈ (list_to_set
                     (map RawLine.line_index
                        (map _copy_raw_line (OrderRawParsed.lines order_raw)))
                   : gset Z)).
  { apply elem_of_list_to_set, list_elem_of_fmap. exists line.
    split; [done|]. apply list_elem_of_fmap. exists line.
    by rewrite copy_raw_line_id. }
  rewrite (Hby _ Hin) in *. clear Hby Hin.
  match goal with
  | |- context [_merge_one_item _ _ line ?llm ?cands ?valid ?allowed ?it ?mt
                  evs_in] =>
      destruct (merge_one_item_qty py_str float_of_str line llm cands valid
                  allowed it mt evs_in) as [Hqty Hbool]
  end.
  split; [exact Hqty|]. intros b Hb.
  destruct (Hbool b Hb) as (Hkept & Hflag & Hev). split_and!; [done|done|].
  eapply elem_of_prefix; [exact Hev|]. by etrans.
Qed.

End Props.

(** C10 as stated fails for an LLM item that is not merged: in
    [soup_result] the second item of line 0 has the boolean [True] as
    quantity and is dropped as a duplicate; the quantity of the line comes
    out as 2, the first item's, and not as the parser's 1, the item is not
    flagged, and no [qty_invalid] event is recorded. *)
Lemma boolean_qty_of_dropped_item_counterexample :
  let out :=
    merge_and_validate str_scalar float_unparsed soup_order soup_candidates
      soup_result soup_catalog None VNone VNone VNone in
  soup_boolean_item ∈ item_payloads soup_result ∧
  _read soup_boolean_item (lit "line_index") VNone = VInt 0 ∧
  _read soup_boolean_item (lit "qty") VNone = VBool true ∧
  RawLine.qty <$> OrderRawParsed.lines soup_order = [1] ∧
  NormalizedItem.line_index <$> OrderNormalized.items out = [0] ∧
  NormalizedItem.qty <$> OrderNormalized.items out = [2] ∧
  NormalizedItem.needs_review <$> OrderNormalized.items out = [false] ∧
  AuditEvent.event_type <$> OrderNormalized.audit_events out
  = [lit "item_duplicate_line_index"].
Proof.
  cbv zeta. split_and!; try (vm_compute; reflexivity).
  apply list_elem_of_In. vm_compute. right. left. reflexivity.
Qed.

(** The percentage 70 is read as the confidence 70.0 / 100.0, and as a
    threshold it is cut to 1.0. *)
Lemma thresholds_and_confidences_normalized_witness :
  float_overflows (VInt 70) = false ∧
  (PyFloat.leb PyFloat.zero (_normalize_threshold float_unparsed (VInt 70))
   = true ∧
   PyFloat.leb (_normalize_threshold float_unparsed (VInt 70))
     (PyFloat.of_Z 1) = true
   ∨ PyFloat.is_nan (_normalize_threshold float_unparsed (VInt 70)) = true ∧
     py_float float_unparsed (VInt 70)
     = Some (_normalize_threshold float_unparsed (VInt 70))).
Proof.
  split; [reflexivity|].
  exact (proj1 (thresholds_and_confidences_normalized float_unparsed
                  (VInt 70) eq_refl)).
Defined.

End MergeValidateProps.

(** ** Properties of cache.py *)

Module CacheFacts.
Import Cache PyFacts.

(** Induction on values, with the hypothesis on every element of a
    container. *)
Lemma pyval_ind' (P : pyval → Prop) :
  P VNone → (∀ b, P (VBool b)) → (∀ z, P (VInt z)) → (∀ q, P (VFloat q)) →
  (∀ s, P (VStr s)) →
  (∀ l, Forall P l → P (VList l)) →
  (∀ l, Forall P l → P (VTuple l)) →
  (∀ l, Forall P l → P (VSet l)) →
  (∀ d, Forall (fun kv => P (snd kv)) d → P (VDict d)) →
  ∀ v, P v.
Proof.
  intros HN HB HI HF HS HL HT HSet HD.
  fix IH 1. intros [|b|z|q|s|l|l|l|d].
  - exact HN.
  - apply HB.
  - apply HI.
  - apply HF.
  - apply HS.
  - apply HL. induction l as [|x l IHl]; constructor; [apply IH|exact IHl].
  - apply HT. induction l as [|x l IHl]; constructor; [apply IH|exact IHl].
  - apply HSet. induction l as [|x l IHl]; constructor; [apply IH|exact IHl].
  - apply HD. induction d as [|[k x] d IHd]; constructor;
      [apply IH|exact IHd].
Qed.

Lemma map_id_Forall {A} (f : A → A) l : Forall (fun x => f x = x) l → map f l = l.
Proof. induction 1; simpl; congruence. Qed.

(** *** Tight and default separators *)

Lemma compact_plain s rest :
  Forall plain s → compact false (s ++ rest) = s ++ compact false rest.
Proof.
  induction 1 as [|c s [Hsp Hq] _ IH]; [done|]. simpl.
  destruct (N.eqb_spec c 34); [done|]. destruct (N.eqb_spec c 32); [done|].
  by rewrite IH.
Qed.

Lemma lit_String a s : lit (String a s) = N_of_ascii a :: lit s.
Proof. reflexivity. Qed.

Lemma digits_plain (d : Decimal.uint) :
  Forall plain (lit (NilEmpty.string_of_uint d)).
Proof.
  induction d; simpl; rewrite ?lit_String; repeat constructor;
    try done; try (by vm_compute; intros ?; discriminate).
Qed.

Lemma str_of_int_plain z : Forall plain (str_of_int z).
Proof.
  unfold str_of_int, NilZero.string_of_int.
  assert (Huint : ∀ d, Forall plain (lit (NilZero.string_of_uint d))).
  { intros d. unfold NilZero.string_of_uint.
    destruct d; try apply digits_plain.
    repeat constructor; by vm_compute. }
  destruct (Z.to_int z); [apply Huint|].
  rewrite lit_String. constructor; [|apply Huint].
  split; by vm_compute.
Qed.

Lemma hex_digit_in_string n :
  (n < 16)%N → hex_digit n ≠ 92%N ∧ hex_digit n ≠ 34%N.
Proof.
  intros Hn. unfold hex_digit. destruct (N.ltb_spec n 10); lia.
Qed.

Lemma compact_esc_char c rest :
  compact true (esc_char c ++ rest) = esc_char c ++ compact true rest.
Proof.
  unfold esc_char.
  repeat match goal with
         | |- context [N.eqb ?a ?b] => destruct (N.eqb_spec a b); [done|]
         end.
  destruct (N.ltb_spec c 32) as [Hlt|Hge].
  - assert (Hhi : (c / 16 < 16)%N).
    { apply N.Div0.div_lt_upper_bound. lia. }
    assert (Hlo : (c mod 16 < 16)%N) by (apply N.mod_lt; lia).
    destruct (hex_digit_in_string _ Hhi) as [H1 H2].
    destruct (hex_digit_in_string _ Hlo) as [H3 H4].
    cbn [app compact]. cbn [N.eqb Pos.eqb].
    destruct (N.eqb_spec (hex_digit (c / 16)) 92); [done|].
    destruct (N.eqb_spec (hex_digit (c / 16)) 34); [done|].
    destruct (N.eqb_spec (hex_digit (c mod 16)) 92); [done|].
    destruct (N.eqb_spec (hex_digit (c mod 16)) 34); [done|].
    reflexivity.
  - simpl.
    destruct (N.eqb_spec c 92); [done|]. by destruct (N.eqb_spec c 34).
Qed.

Lemma compact_escaped s rest :
  compact true (flat_map esc_char s ++ rest)
  = flat_map esc_char s ++ compact true rest.
Proof.
  induction s as [|c s IH]; [done|]. cbn [flat_map].
  by rewrite <- !(assoc_L (++)), compact_esc_char, IH.
Qed.

Lemma compact_quote s rest :
  compact false (quote s ++ rest) = quote s ++ compact false rest.
Proof.
  unfold quote. rewrite <- !(assoc_L (++)). simpl.
  by rewrite compact_escaped.
Qed.

Lemma compact_join (ds cs : list pystr) :
  Forall2 (fun d c =>
             ∀ rest, compact false (d ++ rest) = c ++ compact false rest)
    ds cs →
  ∀ rest,
    compact false (join (lit ", ") ds ++ rest)
    = join (lit ",") cs ++ compact false rest.
Proof.
  induction 1 as [|d c ds cs Hdc Hrest IH]; intros rest; [done|].
  destruct Hrest as [|d' c' ds cs Hdc' Hrest]; [apply Hdc|].
  cbn [join]. rewrite <- !(assoc_L (++)), Hdc. f_equal.
  change (lit ", " ++ ?x) with (44%N :: 32%N :: x).
  change (lit "," ++ ?x) with (44%N :: x).
  cbn [compact N.eqb Pos.eqb]. f_equal. apply IH.
Qed.

Lemma NoDup_fst_inj {A B} (l : list (A * B)) x y :
  NoDup (map fst l) → x ∈ l → y ∈ l → x.1 = y.1 → x = y.
Proof.
  induction l as [|z l IH]; intros Hnd Hx Hy Hxy.
  { by apply elem_of_nil in Hx. }
  simpl in Hnd. apply NoDup_cons in Hnd as [Hz Hnd].
  apply elem_of_cons in Hx as [->|Hx], Hy as [->|Hy]; [done| | |by apply IH].
  - exfalso. apply Hz. rewrite Hxy. by apply (list_elem_of_fmap_2 fst).
  - exfalso. apply Hz. rewrite <- Hxy. by apply (list_elem_of_fmap_2 fst).
Qed.

Lemma Forall_modus {A} (P Q : A → Prop) l :
  Forall (fun x => P x → Q x) l → Forall P l → Forall Q l.
Proof. induction 1; inversion_clear 1; constructor; auto. Qed.

Lemma Forall2_map_eq {A B} (f : A → B) (R : A → A → Prop) l l' :
  Forall (fun x => ∀ y, R x y → f x = f y) l → Forall2 R l l' →
  map f l = map f l'.
Proof.
  intros Hall H2. induction H2 as [|x y l l' Hxy _ IH]; [done|].
  apply Forall_cons in Hall as [Hx Hall]. simpl. f_equal; auto.
Qed.

Lemma wf_value_list l :
  forallb wf_value l = true → Forall (fun x => wf_value x = true) l.
Proof. intros H. apply Forall_forall. intros x Hx.
  rewrite forallb_forall in H. by apply H, list_elem_of_In. Qed.

Lemma wf_value_dict d :
  wf_value (VDict d) = true →
  NoDup (map fst d) ∧ Forall (fun kv => wf_value kv.2 = true) d.
Proof.
  simpl. intros [Hnd Hall]%andb_true_iff. split.
  - by apply bool_decide_eq_true in Hnd.
  - apply Forall_forall. intros x Hx. rewrite forallb_forall in Hall.
    by apply Hall, list_elem_of_In.
Qed.

Lemma dict_get_map (f : pyval → pyval) (d : pydict) k :
  dict_get (map (fun kv => (kv.1, f kv.2)) d) k = f <$> dict_get d k.
Proof.
  induction d as [|[k' v] d IH]; [done|]. simpl.
  by destruct (bool_decide (k' = k)).
Qed.

Lemma dict_get_Some_elem (d : pydict) k v :
  NoDup (map fst d) → dict_get d k = Some v ↔ (k, v) ∈ d.
Proof.
  induction d as [|[k' v'] d IH]; simpl; intros Hnd.
  { split; [done|]. by intros ?%elem_of_nil. }
  apply NoDup_cons in Hnd as [Hk' Hnd]. rewrite elem_of_cons.
  destruct (bool_decide (k' = k)) eqn:Hk.
  - apply bool_decide_eq_true in Hk. subst k'. split.
    + intros [= ->]. by left.
    + intros [[= ->]|Hin]; [done|]. exfalso. apply Hk'.
      by apply (list_elem_of_fmap_2 fst) in Hin.
  - apply bool_decide_eq_false in Hk. rewrite (IH Hnd). split; [by right|].
    intros [[= <- <-]|Hin]; [done|done].
Qed.

(** Lookups do not depend on the order of the items. *)
Lemma dict_get_Permutation (d d' : pydict) k :
  NoDup (map fst d) → d ≡ₚ d' → dict_get d k = dict_get d' k.
Proof.
  intros Hnd Hperm.
  assert (Hnd' : NoDup (map fst d')) by (by rewrite <- Hperm).
  destruct (dict_get d k) as [v|] eqn:Hd.
  - symmetry. apply dict_get_Some_elem; [done|]. rewrite <- Hperm.
    by apply dict_get_Some_elem.
  - destruct (dict_get d' k) as [v'|] eqn:Hd'; [|done].
    apply dict_get_Some_elem in Hd'; [|done]. rewrite <- Hperm in Hd'.
    apply dict_get_Some_elem in Hd'; [|done]. congruence.
Qed.

Lemma is_missing_reorder a b :
  reorder a b → _is_missing_required a = _is_missing_required b.
Proof. by inversion 1. Qed.

Lemma dict_get_reorder p q k :
  reorder (VDict p) (VDict q) → NoDup (map fst p) →
  _is_missing_required (default VNone (dict_get p k))
  = _is_missing_required (default VNone (dict_get q k)).
Proof.
  intros Hre. inversion Hre as [| | | |d m d' Hall Hperm]; subst; [done|].
  clear Hre. intros Hnd.
  assert (Hkeys : map fst p = map fst m).
  { clear Hperm Hnd.
    induction Hall as [|[k1 v1] [k2 v2] d m [Hk Hv] _ IH]; [done|].
    simpl in Hk |- *. by rewrite Hk, IH. }
  rewrite <- (dict_get_Permutation m q k); [|by rewrite <- Hkeys|done].
  clear Hperm Hnd Hkeys.
  induction Hall as [|[k1 v1] [k2 v2] d m [Hk Hv] _ IH]; [done|].
  simpl in Hk, Hv |- *. subst k2.
  destruct (bool_decide (k1 = k)); [|done]. simpl.
  by apply is_missing_reorder.
Qed.

Lemma is_missing_normalize float_repr v :
  _is_missing_required (_normalize_value float_repr v)
  = _is_missing_required v.
Proof. destruct v; try done. simpl. by rewrite strip_idem. Qed.

Lemma filter_ext_list {A} (P Q : A → Prop)
    `{!∀ x, Decision (P x), !∀ x, Decision (Q x)} (l : list A) :
  (∀ x, P x ↔ Q x) → filter P l = filter Q l.
Proof.
  intros Hpq. induction l as [|a l IH]; [done|].
  rewrite !filter_cons, IH.
  destruct (decide (P a)) as [HP|HP], (decide (Q a)) as [HQ|HQ];
    try done; exfalso; by apply Hpq in HP || apply Hpq in HQ.
Qed.



Lemma backend_get_set (b : MemoryCacheBackend.t) ns key entry :
  MemoryCacheBackend.get (MemoryCacheBackend.set b ns key entry) ns key
  = Some entry.
Proof.
  unfold MemoryCacheBackend.get, MemoryCacheBackend.set.
  rewrite lookup_insert_eq. simpl. by rewrite lookup_insert_eq.
Qed.

Lemma backend_get_delete (b : MemoryCacheBackend.t) ns key :
  MemoryCacheBackend.get (MemoryCacheBackend.delete b ns key) ns key = None.
Proof.
  unfold MemoryCacheBackend.get, MemoryCacheBackend.delete.
  destruct (b !! ns) as [bucket|] eqn:Hb.
  - destruct (bool_decide (bucket = ∅)) eqn:He.
    + apply bool_decide_eq_true in He. subst. rewrite Hb. simpl.
      apply lookup_empty.
    + rewrite lookup_insert_eq. simpl. apply lookup_delete_eq.
  - rewrite Hb. simpl. apply lookup_empty.
Qed.

Lemma repr_integral_plain q : Forall plain (repr_integral q).
Proof.
  unfold repr_integral. apply Forall_app. split; [apply str_of_int_plain|].
  repeat constructor; done.
Qed.

Lemma example_payload_reorder :
  reorder (VDict example_payload) (VDict example_payload_reordered).
Proof.
  apply (reorder_dict _
           [(lit "name_raw", VStr (lit " hot soup "));
            (lit "menu_catalog_version", VStr (lit "v1"));
            (lit "tags", VSet [VStr (lit "a"); VStr (lit "b")])]).
  - repeat constructor.
    apply (reorder_set _ [VStr (lit "b"); VStr (lit "a")]).
    + repeat constructor.
    + apply Permutation_swap.
  - apply (Permutation_rev
             [(lit "name_raw", VStr (lit " hot soup "));
              (lit "menu_catalog_version", VStr (lit "v1"));
              (lit "tags", VSet [VStr (lit "a"); VStr (lit "b")])]).
Qed.

Section Facts.

Variable float_repr : pyfloat → pystr.
Variable sha256_hexdigest : pystr → pystr.

Local Abbreviation normalize := (_normalize_value float_repr).
Local Abbreviation dumps_d := (dumps_default float_repr).
Local Abbreviation dumps_c := (dumps_compact float_repr).
Local Abbreviation make_key := (_make_key float_repr sha256_hexdigest).

(** Normalizing a normalized value changes nothing. *)
Lemma normalize_idem v : normalize (normalize v) = normalize v.
Proof.
  induction v as [| | | |s|l IH|l IH|l IH|d IH] using pyval_ind';
    try reflexivity.
  - simpl. by rewrite strip_idem.
  - simpl. f_equal. rewrite map_map. apply map_ext_Forall. exact IH.
  - simpl. f_equal. rewrite map_map. apply map_ext_Forall. exact IH.
  - cbn [_normalize_value]. f_equal. apply map_id_Forall.
    rewrite (sorted_by_perm _ _). apply Forall_fmap. exact IH.
  - cbn [_normalize_value]. f_equal.
    set (S := sorted_by fst (map _ d)).
    assert (HS : map (fun kv => (kv.1, normalize kv.2)) S = S).
    { apply map_id_Forall. subst S. rewrite (sorted_by_perm _ _).
      apply Forall_fmap. eapply Forall_impl; [exact IH|].
      intros [k x] Hx. simpl in *. by rewrite Hx. }
    rewrite HS. subst S. apply sorted_by_idem.
Qed.

(** [repr] of a float holds no space and no quote. *)
Hypothesis float_repr_plain : ∀ q, Forall plain (float_repr q).

Lemma dumps_dict item_sep key_sep d :
  dumps float_repr item_sep key_sep (VDict d)
  = [123%N]
    ++ join item_sep
         (map (fun kv =>
                 quote kv.1 ++ key_sep
                 ++ dumps float_repr item_sep key_sep kv.2)
            (sorted_by fst d))
    ++ [125%N].
Proof.
  cbn [dumps]. do 2 f_equal.
  rewrite (sorted_by_map fst fst
             (fun kv => (kv.1, dumps float_repr item_sep key_sep kv.2)))
    by done.
  by rewrite map_map.
Qed.

Lemma compact_bracketed (opening closing : N) ds cs rest :
  opening ≠ 32%N → opening ≠ 34%N → closing ≠ 32%N → closing ≠ 34%N →
  Forall2 (fun d c =>
             ∀ rest, compact false (d ++ rest) = c ++ compact false rest)
    ds cs →
  compact false (([opening] ++ join (lit ", ") ds ++ [closing]) ++ rest)
  = ([opening] ++ join (lit ",") cs ++ [closing]) ++ compact false rest.
Proof.
  intros Ho1 Ho2 Hc1 Hc2 Hall.
  rewrite <- !(assoc_L (++)). cbn [app compact].
  destruct (N.eqb_spec opening 34); [done|].
  destruct (N.eqb_spec opening 32); [done|].
  f_equal. rewrite (compact_join _ _ Hall). f_equal. cbn [compact].
  destruct (N.eqb_spec closing 34); [done|].
  by destruct (N.eqb_spec closing 32).
Qed.

(** The tight encoding is the default one with the spaces outside string
    literals erased. *)
Lemma compact_dumps v :
  ∀ rest, compact false (dumps_d v ++ rest) = dumps_c v ++ compact false rest.
Proof using float_repr_plain.
  unfold dumps_default, dumps_compact.
  induction v as [|b|z|q|s|l IH|l IH|l IH|d IH] using pyval_ind';
    intros rest.
  - apply compact_plain. repeat constructor; done.
  - destruct b; apply compact_plain; repeat constructor; done.
  - apply compact_plain, str_of_int_plain.
  - apply compact_plain, float_repr_plain.
  - apply compact_quote.
  - cbn [dumps]. apply compact_bracketed; try done.
    apply Forall2_fmap, Forall_Forall2_diag. exact IH.
  - cbn [dumps]. apply compact_bracketed; try done.
    apply Forall2_fmap, Forall_Forall2_diag. exact IH.
  - cbn [dumps]. apply compact_bracketed; try done.
    apply Forall2_fmap, Forall_Forall2_diag. exact IH.
  - rewrite !dumps_dict. apply compact_bracketed; try done.
    apply Forall2_fmap, Forall_Forall2_diag.
    rewrite (sorted_by_perm _ _).
    eapply Forall_impl; [exact IH|]. intros [k x] Hx rest'.
    cbn [fst snd] in Hx |- *.
    rewrite <- !(assoc_L (++)), compact_quote. f_equal.
    change (lit ": " ++ ?x) with (58%N :: 32%N :: x).
    change (lit ":" ++ ?x) with (58%N :: x).
    cbn [compact N.eqb Pos.eqb]. f_equal. apply Hx.
Qed.

Lemma dumps_compact_of_default v w :
  dumps_d v = dumps_d w → dumps_c v = dumps_c w.
Proof using float_repr_plain.
  intros Heq.
  pose proof (compact_dumps v []) as Hv.
  pose proof (compact_dumps w []) as Hw.
  cbn [compact] in Hv, Hw. rewrite !app_nil_r in Hv. rewrite !app_nil_r in Hw.
  congruence.
Qed.

(** *** Reordered payloads *)

(** The default encoding of the normalized value. *)
Local Abbreviation canon := (fun v => dumps_d (normalize v)).

Lemma canon_set l :
  canon (VSet l)
  = [91%N] ++ join (lit ", ") (sorted_by id (map canon l)) ++ [93%N].
Proof.
  unfold dumps_default. cbn [_normalize_value dumps]. do 2 f_equal.
  rewrite <- (sorted_by_map (dumps_default float_repr) id) by done.
  by rewrite map_map.
Qed.

Lemma canon_dict d :
  canon (VDict d)
  = [123%N]
    ++ join (lit ", ")
         (map (fun kv => quote kv.1 ++ lit ": " ++ kv.2)
            (sorted_by fst (map (fun kv => (kv.1, canon kv.2)) d)))
    ++ [125%N].
Proof.
  unfold dumps_default. cbn [_normalize_value dumps]. do 3 f_equal.
  rewrite <- (sorted_by_map fst fst
                (fun kv => (kv.1, dumps float_repr (lit ", ") (lit ": ") kv.2)))
    by done.
  rewrite sorted_by_idem. by rewrite map_map.
Qed.

Lemma canon_reorder v :
  ∀ v', reorder v v' → wf_value v = true → canon v = canon v'.
Proof.
  induction v as [|b|z|q|s|l IH|l IH|l IH|d IH] using pyval_ind';
    intros v' Hre Hwf; inversion Hre; subst; try reflexivity.
  - unfold dumps_default. cbn [_normalize_value dumps]. do 3 f_equal.
    rewrite !map_map. eapply Forall2_map_eq; [|eassumption].
    apply wf_value_list in Hwf.
    eapply Forall_modus; [|exact Hwf].
    eapply Forall_impl; [exact IH|]. intros x Hx Hwfx y Hxy. by apply Hx.
  - unfold dumps_default. cbn [_normalize_value dumps]. do 3 f_equal.
    rewrite !map_map. eapply Forall2_map_eq; [|eassumption].
    apply wf_value_list in Hwf.
    eapply Forall_modus; [|exact Hwf].
    eapply Forall_impl; [exact IH|]. intros x Hx Hwfx y Hxy. by apply Hx.
  - rewrite !canon_set. do 3 f_equal.
    apply sorted_by_unique; [done|].
    apply wf_value_list in Hwf.
    match goal with
    | H2 : Forall2 reorder l ?m, Hp : ?m ≡ₚ _ |- _ =>
        rewrite <- Hp;
        erewrite (Forall2_map_eq _ reorder l m); [done| |exact H2]
    end.
    eapply Forall_modus; [|exact Hwf].
    eapply Forall_impl; [exact IH|]. intros x Hx Hwfx y Hxy. by apply Hx.
  - rewrite !canon_dict. do 4 f_equal.
    apply wf_value_dict in Hwf as [Hnd Hwf].
    apply sorted_by_unique.
    + intros x y Hx Hy Hxy.
      eapply NoDup_fst_inj; [|exact Hx|exact Hy|exact Hxy].
      by rewrite map_map.
    + match goal with
      | H2 : Forall2 _ d ?m, Hp : ?m ≡ₚ _ |- _ =>
          rewrite <- Hp;
          erewrite (Forall2_map_eq _ _ d m); [done| |exact H2]
      end.
      eapply Forall_modus; [|exact Hwf].
      eapply Forall_impl; [exact IH|].
      intros [k x] Hx Hwfx [k' y] [Hk Hxy]. cbn [fst snd] in Hx, Hwfx, Hk, Hxy |- *.
      subst k'. f_equal. by apply Hx.
Qed.

(** *** Keys *)

Lemma normalize_payload_idem p :
  _normalize_payload float_repr (_normalize_payload float_repr p)
  = _normalize_payload float_repr p.
Proof.
  pose proof (normalize_idem (VDict p)) as H.
  cbn [_normalize_value] in H. by injection H.
Qed.

Lemma make_key_normalized ns p :
  make_key ns (_normalize_payload float_repr p) = make_key ns p.
Proof.
  unfold _make_key.
  destruct (negb (bool_decide (ns ∈ CACHE_NAMESPACES))); [done|].
  destruct (_NAMESPACE_KEY_REQUIREMENTS ns) as [required|]; [|done].
  rewrite normalize_payload_idem.
  erewrite (filter_ext_list _ _ required); [done|].
  intros field. unfold _normalize_payload.
  rewrite dict_get_sorted_by, dict_get_map.
  destruct (dict_get p field) as [v|]; [|done]. simpl.
  by rewrite is_missing_normalize.
Qed.

Lemma make_key_reorder ns p q :
  wf_value (VDict p) = true → reorder (VDict p) (VDict q) →
  make_key ns q = make_key ns p.
Proof using float_repr_plain.
  intros Hwf Hre. unfold _make_key.
  destruct (negb (bool_decide (ns ∈ CACHE_NAMESPACES))); [done|].
  destruct (_NAMESPACE_KEY_REQUIREMENTS ns) as [required|]; [|done].
  pose proof (wf_value_dict _ Hwf) as [Hnd _].
  rewrite (filter_ext_list
             (fun field =>
                _is_missing_required (default VNone (dict_get q field)) = true)
             (fun field =>
                _is_missing_required (default VNone (dict_get p field)) = true)
             required).
  2: { intros field. by rewrite <- (dict_get_reorder p q field Hre Hnd). }
  destruct (filter _ required); [|done].
  cbv zeta.
  change (VDict (_normalize_payload float_repr ?d))
    with (normalize (VDict d)).
  assert (dumps_c (normalize (VDict q)) = dumps_c (normalize (VDict p)))
    as ->; [|done].
  symmetry. apply dumps_compact_of_default. by apply canon_reorder.
Qed.

(** C5: the key of a payload is the key of its canonical form, and two
    payloads that differ only by the order of mapping items, at any depth,
    and by the order of set elements have the same key. *)
Theorem make_key_canonical (ns : pystr) (p q : pydict) :
  wf_value (VDict p) = true → reorder (VDict p) (VDict q) →
  make_key ns (_normalize_payload float_repr p) = make_key ns p ∧
  make_key ns q = make_key ns p.
Proof using float_repr_plain.
  intros Hwf Hre. split.
  - apply make_key_normalized.
  - by apply make_key_reorder.
Qed.

(** *** Expiry *)

Local Abbreviation cache_set := (POSNormCache.set float_repr sha256_hexdigest).
Local Abbreviation cache_get := (POSNormCache.get float_repr sha256_hexdigest).


End Facts.

(** The two example payloads have one key, which is also the key of the
    canonical form. *)
Lemma make_key_canonical_witness :
  _make_key repr_integral text_as_digest ITEM_MAPPING_CACHE
    (_normalize_payload repr_integral example_payload)
  = _make_key repr_integral text_as_digest ITEM_MAPPING_CACHE example_payload
  ∧ _make_key repr_integral text_as_digest ITEM_MAPPING_CACHE
      example_payload_reordered
    = _make_key repr_integral text_as_digest ITEM_MAPPING_CACHE
        example_payload.
Proof.
  apply (make_key_canonical repr_integral text_as_digest repr_integral_plain
           ITEM_MAPPING_CACHE example_payload example_payload_reordered).
  - reflexivity.
  - exact example_payload_reorder.
Defined.


End CacheFacts.

(** ** Further properties of cache.py *)

Module CacheProps.
Import Cache PyFacts CacheFacts.


Lemma backend_get_set_other (b : MemoryCacheBackend.t) ns key entry ns' key' :
  ns' ≠ ns ∨ key' ≠ key →
  MemoryCacheBackend.get (MemoryCacheBackend.set b ns key entry) ns' key'
  = MemoryCacheBackend.get b ns' key'.
Proof.
  intros Hne. unfold MemoryCacheBackend.get, MemoryCacheBackend.set.
  destruct (decide (ns' = ns)) as [->|Hns].
  - destruct Hne as [Hne|Hne]; [done|].
    rewrite lookup_insert_eq. simpl. by rewrite lookup_insert_ne.
  - by rewrite lookup_insert_ne.
Qed.

Lemma backend_get_delete_other (b : MemoryCacheBackend.t) ns key ns' key' :
  ns' ≠ ns ∨ key' ≠ key →
  MemoryCacheBackend.get (MemoryCacheBackend.delete b ns key) ns' key'
  = MemoryCacheBackend.get b ns' key'.
Proof.
  intros Hne. unfold MemoryCacheBackend.get, MemoryCacheBackend.delete.
  destruct (b !! ns) as [bucket|] eqn:Hb; [|done].
  destruct (bool_decide (bucket = ∅)); [done|].
  destruct (decide (ns' = ns)) as [->|Hns].
  - destruct Hne as [Hne|Hne]; [done|].
    rewrite lookup_insert_eq, Hb. simpl. by rewrite lookup_delete_ne.
  - by rewrite lookup_insert_ne.
Qed.

(** Deleting only removes. *)
Lemma backend_get_delete_Some (b : MemoryCacheBackend.t) ns key ns' key' e :
  MemoryCacheBackend.get (MemoryCacheBackend.delete b ns key) ns' key'
  = Some e →
  MemoryCacheBackend.get b ns' key' = Some e.
Proof.
  destruct (decide (ns' = ns ∧ key' = key)) as [[-> ->]|Hne].
  - by rewrite backend_get_delete.
  - rewrite backend_get_delete_other; [done|].
    destruct (decide (ns' = ns)); [right|left]; naive_solver.
Qed.

Section Props.

Variable float_repr : pyfloat → pystr.
Variable sha256_hexdigest : pystr → pystr.

Local Abbreviation normalize := (_normalize_value float_repr).
Local Abbreviation make_key := (_make_key float_repr sha256_hexdigest).
Local Abbreviation cache_set := (POSNormCache.set float_repr sha256_hexdigest).
Local Abbreviation cache_get := (POSNormCache.get float_repr sha256_hexdigest).
Local Abbreviation cache_invalidate :=
  (POSNormCache.invalidate float_repr sha256_hexdigest).

Lemma make_key_Some ns p key :
  make_key ns p = Some key →
  ns ∈ CACHE_NAMESPACES ∧
  utf8_encodable
    (dumps_compact float_repr (VDict (_normalize_payload float_repr p)))
  = true ∧
  key = ns ++ lit ":"
        ++ sha256_hexdigest
             (dumps_compact float_repr
                (VDict (_normalize_payload float_repr p))).
Proof.
  unfold _make_key. intros H.
  destruct (bool_decide (ns ∈ CACHE_NAMESPACES)) eqn:Hns; [|discriminate].
  apply bool_decide_eq_true in Hns. split; [done|].
  simpl in H. destruct (_NAMESPACE_KEY_REQUIREMENTS ns); [|discriminate].
  destruct (filter _ _); [|discriminate].
  destruct (utf8_encodable _); [|discriminate]. by injection H as <-.
Qed.

Lemma get_other_backend (self self' : POSNormCache.t) now ns q :
  (∀ key, make_key ns q = Some key →
     MemoryCacheBackend.get (POSNormCache._backend self') ns key
     = MemoryCacheBackend.get (POSNormCache._backend self) ns key) →
  fst <$> cache_get self' now ns q = fst <$> cache_get self now ns q.
Proof.
  intros H. unfold POSNormCache.get.
  destruct (make_key ns q) as [key|]; [|done].
  rewrite (H key eq_refl).
  destruct (MemoryCacheBackend.get _ ns key) as [e|]; [|done].
  by destruct (CacheEntry.is_expired e now).
Qed.


(** X9: keys made for two different namespaces are different, whatever the
    payloads and the digests. *)
Theorem keys_of_namespaces_differ (ns1 ns2 : pystr) (p1 p2 : pydict)
    (k1 k2 : pystr) :
  ns1 ≠ ns2 → make_key ns1 p1 = Some k1 → make_key ns2 p2 = Some k2 →
  k1 ≠ k2.
Proof.
  intros Hne H1 H2.
  apply make_key_Some in H1 as (Hn1 & _ & ->).
  apply make_key_Some in H2 as (Hn2 & _ & ->).
  unfold CACHE_NAMESPACES in Hn1, Hn2.
  repeat (apply elem_of_cons in Hn1 as [->|Hn1]);
    [..|by apply elem_of_nil in Hn1];
    (repeat (apply elem_of_cons in Hn2 as [->|Hn2]);
     [..|by apply elem_of_nil in Hn2]);
    try done; intros Heq; vm_compute in Heq; discriminate.
Qed.

(** X10: [set] changes what [get] returns for no other key: a lookup in
    another namespace, or in the same namespace under a payload with
    another key, returns after the [set] what it returned before. *)
Theorem set_leaves_other_keys
    (self self' : POSNormCache.t) (now now' : Q) (ns ns' : pystr)
    (p q : pydict) (value : pyval) (confidence : Q) (meta : option pydict)
    (entry : CacheEntry.t) :
  cache_set self now ns p value confidence meta = Some (entry, self') →
  ns' ≠ ns ∨ make_key ns' q ≠ make_key ns p →
  fst <$> cache_get self' now' ns' q = fst <$> cache_get self now' ns' q.
Proof.
  intros Hset Hne. unfold POSNormCache.set in Hset.
  destruct (make_key ns p) as [key|] eqn:Hp; [|discriminate].
  cbv zeta in Hset. injection Hset as _ <-.
  apply get_other_backend. intros key' Hq. cbn [POSNormCache._backend].
  apply backend_get_set_other.
  destruct Hne as [?|Hne]; [by left|right]. rewrite Hq in Hne. congruence.
Qed.

(** X11: after [invalidate] a [get] with the same namespace and payload
    returns nothing and leaves the cache as it is, while every other key
    reads as before. *)
Theorem get_after_invalidate
    (self self' : POSNormCache.t) (now : Q) (ns : pystr) (p : pydict) :
  cache_invalidate self ns p = Some self' →
  cache_get self' now ns p = Some (None, self') ∧
  POSNormCache._namespace_ttls self' = POSNormCache._namespace_ttls self ∧
  ∀ ns' q,
    ns' ≠ ns ∨ make_key ns' q ≠ make_key ns p →
    fst <$> cache_get self' now ns' q = fst <$> cache_get self now ns' q.
Proof.
  intros Hinv. unfold POSNormCache.invalidate in Hinv.
  destruct (make_key ns p) as [key|] eqn:Hp; [|discriminate].
  injection Hinv as <-. split; [|split; [done|]].
  - unfold POSNormCache.get. rewrite Hp. cbn [POSNormCache._backend].
    by rewrite backend_get_delete.
  - intros ns' q Hne. apply get_other_backend. intros key' Hq.
    cbn [POSNormCache._backend]. apply backend_get_delete_other.
    destruct Hne as [?|Hne]; [by left|right]. rewrite Hq in Hne. congruence.
Qed.

(** X12: the entry [set] returns and stores holds the given value, the
    given meta (an empty one by default), the clock reading as its creation
    time and the confidence clipped to the range from 0 to 1 (the
    confidence itself when it lies in the range); the lifetimes of the
    cache are unchanged. *)
Theorem set_entry_fields
    (self self' : POSNormCache.t) (now : Q) (ns : pystr) (p : pydict)
    (value : pyval) (confidence : Q) (meta : option pydict)
    (entry : CacheEntry.t) :
  cache_set self now ns p value confidence meta = Some (entry, self') →
  CacheEntry.value entry = value ∧
  CacheEntry.meta entry = default [] meta ∧
  CacheEntry.created_at entry = now ∧
  (0 <= CacheEntry.confidence entry <= 1)%Q ∧
  ((0 <= confidence <= 1)%Q → (CacheEntry.confidence entry == confidence)%Q) ∧
  ((confidence < 0)%Q → CacheEntry.confidence entry = 0%Q) ∧
  ((1 < confidence)%Q → CacheEntry.confidence entry = 1%Q) ∧
  POSNormCache._namespace_ttls self' = POSNormCache._namespace_ttls self ∧
  ∃ key, make_key ns p = Some key ∧
    MemoryCacheBackend.get (POSNormCache._backend self') ns key = Some entry.
Proof.
  intros Hset. unfold POSNormCache.set in Hset.
  destruct (make_key ns p) as [key|] eqn:Hp; [|discriminate].
  cbv zeta in Hset. injection Hset as <- <-.
  cbn [CacheEntry.value CacheEntry.meta CacheEntry.created_at
       CacheEntry.confidence POSNormCache._namespace_ttls
       POSNormCache._backend].
  split_and!; try done.
  - destruct (Qltb confidence 1) eqn:H1.
    + destruct (Qltb 0 confidence) eqn:H0; [|done].
      by apply Qlt_le_weak, Qltb_iff.
    + by destruct (Qltb 0 1).
  - destruct (Qltb confidence 1) eqn:H1.
    + destruct (Qltb 0 confidence) eqn:H0; [|done].
      apply Qltb_iff in H1. by apply Qlt_le_weak.
    + by destruct (Qltb 0 1).
  - intros [H0 H1]. destruct (Qltb confidence 1) eqn:E1.
    + destruct (Qltb 0 confidence) eqn:E0; [reflexivity|].
      apply Qltb_false_iff in E0. by apply Qle_antisym.
    + apply Qltb_false_iff in E1. cbn. by apply Qle_antisym.
  - intros H0. destruct (Qltb confidence 1) eqn:E1.
    + destruct (Qltb 0 confidence) eqn:E0; [|done].
      apply Qltb_iff in E0. exfalso. eapply Qlt_irrefl, Qlt_trans; done.
    + apply Qltb_false_iff in E1. exfalso.
      apply (Qlt_irrefl 1). eapply Qle_lt_trans; [exact E1|].
      eapply Qlt_trans; [exact H0|done].
  - intros H1. destruct (Qltb confidence 1) eqn:E1; [|done].
    apply Qltb_iff in E1. exfalso. eapply Qlt_irrefl, Qlt_trans; done.
  - exists key. split; [done|]. apply backend_get_set.
Qed.

(** X13: an entry that [get] returns is stored under the key of the
    payload and not expired at the clock reading, and returning it leaves
    the cache unchanged; in every case [get] keeps the lifetimes and adds
    no entry to the backend. *)
Theorem get_returns_live_entries
    (self self' : POSNormCache.t) (now : Q) (ns : pystr) (p : pydict)
    (result : option CacheEntry.t) :
  cache_get self now ns p = Some (result, self') →
  (∀ entry, result = Some entry →
     self' = self ∧ CacheEntry.is_expired entry now = false ∧
     ∃ key, make_key ns p = Some key ∧
       MemoryCacheBackend.get (POSNormCache._backend self) ns key
       = Some entry) ∧
  POSNormCache._namespace_ttls self' = POSNormCache._namespace_ttls self ∧
  ∀ ns' key' entry',
    MemoryCacheBackend.get (POSNormCache._backend self') ns' key'
    = Some entry' →
    MemoryCacheBackend.get (POSNormCache._backend self) ns' key'
    = Some entry'.
Proof.
  unfold POSNormCache.get. intros Hget.
  destruct (make_key ns p) as [key|] eqn:Hp; [|discriminate].
  destruct (MemoryCacheBackend.get _ ns key) as [e|] eqn:Hb.
  - destruct (CacheEntry.is_expired e now) eqn:He.
    + injection Hget as <- <-. split_and!; [done|done|].
      cbn [POSNormCache._backend]. intros ns' key' entry'.
      apply backend_get_delete_Some.
    + injection Hget as <- <-. split_and!; [|done|done].
      intros entry [= <-]. split_and!; [done|done|]. by exists key.
  - injection Hget as <- <-. by split_and!.
Qed.

(** X14: whatever the value, [_normalize_value] returns a value in
    canonical shape: it holds no tuple and no set, its strings are
    stripped, and the items of its mappings stand in the order of their
    keys. *)
Theorem normalize_value_is_canonical (v : pyval) :
  canonical_value (normalize v).
Proof.
  induction v as [| | | |s|l IH|l IH|l IH|d IH] using pyval_ind';
    try (by constructor).
  - simpl. constructor. apply strip_idem.
  - simpl. constructor. by apply Forall_fmap.
  - simpl. constructor. by apply Forall_fmap.
  - cbn [_normalize_value]. constructor.
    rewrite (sorted_by_perm _ _). by apply Forall_fmap.
  - cbn [_normalize_value]. constructor.
    + apply sorted_by_Sorted.
    + rewrite (sorted_by_perm _ _). apply Forall_fmap.
      eapply Forall_impl; [exact IH|]. by intros [k x] Hx.
Qed.

End Props.

(** X15: a new cache is empty and gives the item and note namespaces a
    lifetime of 3600 seconds and the group namespace one of 1800; given
    lifetimes are refused exactly when they name an unknown namespace, and
    otherwise replace the defaults of the namespaces they name. *)
Theorem init_lifetimes (given : gmap pystr Z) :
  (∃ fresh, POSNormCache.init None = Some fresh ∧
     POSNormCache._backend fresh = ∅ ∧
     POSNormCache._namespace_ttls fresh !! ITEM_MAPPING_CACHE = Some 3600 ∧
     POSNormCache._namespace_ttls fresh !! NOTE_MODS_CACHE = Some 3600 ∧
     POSNormCache._namespace_ttls fresh !! GROUP_PATTERN_CACHE = Some 1800 ∧
     (∀ ns, ns ∉ CACHE_NAMESPACES →
        POSNormCache._namespace_ttls fresh !! ns = None) ∧
     match POSNormCache.init (Some given) with
     | None => ∃ ns, is_Some (given !! ns) ∧ ns ∉ CACHE_NAMESPACES
     | Some cache =>
         (∀ ns, is_Some (given !! ns) → ns ∈ CACHE_NAMESPACES) ∧
         POSNormCache._backend cache = ∅ ∧
         ∀ ns,
           POSNormCache._namespace_ttls cache !! ns
           = match given !! ns with
             | Some ttl => Some ttl
             | None => POSNormCache._namespace_ttls fresh !! ns
             end
     end).
Proof.
  eexists. split; [reflexivity|]. cbn [POSNormCache._backend
    POSNormCache._namespace_ttls].
  split_and!; [done|reflexivity|reflexivity|reflexivity| |].
  - intros ns Hns. unfold CACHE_NAMESPACES in Hns.
    rewrite !lookup_insert_ne; [apply lookup_empty|..];
      intros <-; apply Hns; repeat first [by left | right].
  - unfold POSNormCache.init.
    destruct (bool_decide (given = ∅)) eqn:Hempty.
    { apply bool_decide_eq_true in Hempty. subst given. split_and!.
      - intros ns [? H]. by rewrite lookup_empty in H.
      - done.
      - intros ns. by rewrite lookup_empty. }
    destruct (bool_decide (dom given ⊆ _)) eqn:Hdom.
    + apply bool_decide_eq_true in Hdom. split_and!.
      * intros ns Hns. apply elem_of_dom in Hns. apply Hdom in Hns.
        by apply elem_of_list_to_set in Hns.
      * done.
      * intros ns. cbn [POSNormCache._namespace_ttls].
        destruct (given !! ns) as [ttl|] eqn:Hg.
        -- by apply lookup_union_Some_l.
        -- by rewrite lookup_union_r.
    + apply bool_decide_eq_false in Hdom.
      destruct (decide (Forall (λ ns, ns ∈ CACHE_NAMESPACES)
                          (elements (dom given)))) as [Hall|Hnot].
      * exfalso. apply Hdom. intros ns Hns.
        apply elem_of_list_to_set. rewrite Forall_forall in Hall.
        apply Hall. by apply elem_of_elements.
      * apply not_Forall_Exists in Hnot; [|apply _].
        apply Exists_exists in Hnot as (ns & Hin & Hno).
        exists ns. split; [|done].
        apply elem_of_dom. by apply elem_of_elements.
Qed.

(** A key of the item namespace and a key of the note namespace. *)
Lemma keys_of_namespaces_differ_witness :
  example_key
  ≠ NOTE_MODS_CACHE ++ lit ":"
    ++ dumps_compact repr_integral
         (VDict (_normalize_payload repr_integral example_note_payload)).
Proof.
  apply (keys_of_namespaces_differ repr_integral text_as_digest
           ITEM_MAPPING_CACHE NOTE_MODS_CACHE example_payload
           example_note_payload).
  - intros H. vm_compute in H. discriminate.
  - reflexivity.
  - reflexivity.
Defined.

(** Storing under [example_payload] leaves the note namespace as it was. *)
Lemma set_leaves_other_keys_witness :
  fst <$> POSNormCache.get repr_integral text_as_digest example_cache_after
            10 NOTE_MODS_CACHE example_note_payload
  = fst <$> POSNormCache.get repr_integral text_as_digest example_cache
              10 NOTE_MODS_CACHE example_note_payload.
Proof.
  apply (set_leaves_other_keys repr_integral text_as_digest example_cache
           example_cache_after 0 10 ITEM_MAPPING_CACHE NOTE_MODS_CACHE
           example_payload example_note_payload (VStr (lit "A1")) (9 # 10)
           None example_entry).
  - reflexivity.
  - left. intros H. vm_compute in H. discriminate.
Defined.

(** The entry stored under [example_payload] is gone after [invalidate]. *)
Lemma get_after_invalidate_witness :
  ∃ cache,
    POSNormCache.invalidate repr_integral text_as_digest example_cache_after
      ITEM_MAPPING_CACHE example_payload = Some cache ∧
    POSNormCache.get repr_integral text_as_digest cache 10
      ITEM_MAPPING_CACHE example_payload = Some (None, cache).
Proof.
  eexists. split; [reflexivity|].
  apply (get_after_invalidate repr_integral text_as_digest
           example_cache_after _ 10 ITEM_MAPPING_CACHE example_payload).
  reflexivity.
Defined.

(** The entry of the worked example: confidence 9/10 is kept. *)
Lemma set_entry_fields_witness :
  CacheEntry.value example_entry = VStr (lit "A1") ∧
  (0 <= CacheEntry.confidence example_entry <= 1)%Q.
Proof.
  pose proof (set_entry_fields repr_integral text_as_digest example_cache
                example_cache_after 0 ITEM_MAPPING_CACHE example_payload
                (VStr (lit "A1")) (9 # 10) None example_entry eq_refl)
    as (Hv & _ & _ & Hc & _).
  exact (conj Hv Hc).
Defined.

(** Reading the worked example back at clock reading 10. *)
Lemma get_returns_live_entries_witness :
  CacheEntry.is_expired example_entry 10 = false.
Proof.
  pose proof (get_returns_live_entries repr_integral text_as_digest
                example_cache_after example_cache_after 10
                ITEM_MAPPING_CACHE example_payload (Some example_entry)
                eq_refl) as [H _].
  exact (proj1 (proj2 (H example_entry eq_refl))).
Defined.

End CacheProps.

(** ** Properties of audit.py *)

Module AuditFacts.
Import Audit PyFacts.

Lemma setdefault_keeps (d : pydict) k v k' :
  is_Some (dict_get d k') → is_Some (dict_get (dict_setdefault d k v) k').
Proof. rewrite dict_get_setdefault. by intros [w ->]. Qed.

Lemma setdefault_has (d : pydict) k v :
  is_Some (dict_get (dict_setdefault d k v) k).
Proof.
  rewrite dict_get_setdefault. destruct (dict_get d k); [done|].
  by rewrite bool_decide_eq_true_2.
Qed.

Lemma set_keeps (d : pydict) k v k' :
  is_Some (dict_get d k') → is_Some (dict_get (dict_set d k v) k').
Proof. rewrite dict_get_set. by destruct (bool_decide (k = k')). Qed.

Lemma Forall2_compose {A B C} (R : A → B → Prop) (S : B → C → Prop)
    (T : A → C → Prop) l m n :
  (∀ x y z, R x y → S y z → T x z) →
  Forall2 R l m → Forall2 S m n → Forall2 T l n.
Proof.
  intros HT H1. revert n.
  induction H1 as [|x y l m Hxy _ IH]; intros n H2;
    inversion H2; subst; constructor; eauto.
Qed.

Section Facts.

Variable str_lower : pystr → pystr.
Variable isdigit : N → bool.
Variable isalpha : N → bool.
Variable json_dumps : pyval → option pystr.

Local Abbreviation mask := (_mask_value str_lower isdigit isalpha MASK_TEXT).
Local Abbreviation mask_llm_fields :=
  (_mask_llm_fields str_lower isdigit isalpha).
Local Abbreviation write :=
  (write_event str_lower isdigit isalpha json_dumps).

(** The fields [_to_event_payload] fills in are all there. *)
Lemma to_event_payload_fields now now' ev payload field :
  _to_event_payload now now' ev = Some payload →
  field ∈ [ORDER_ID; EVENT_TYPE; TIMESTAMP; RAW_TEXT; PARSE_RESULT;
           CANDIDATES; LLM_REQUEST; LLM_RESPONSE; FALLBACK_REASON;
           MERGE_RESULT; FINAL_OUTPUT; HUMAN_CORRECTION; METADATA;
           NEEDS_REVIEW] →
  is_Some (dict_get payload field).
Proof.
  unfold _to_event_payload.
  set (p0 := match ev with EventRecord r => _ | EventMapping d => d end).
  destruct (is_nonblank_str (get_or_none p0 ORDER_ID)) eqn:Ho; [|done].
  destruct (is_nonblank_str (get_or_none p0 EVENT_TYPE)) eqn:He; [|done].
  cbn [negb]. cbv zeta.
  destruct (_normalize_human_correction _ _) as [c|]; [|done].
  intros [= <-] Hin. apply set_keeps.
  assert (Hoid : is_Some (dict_get p0 ORDER_ID)).
  { unfold get_or_none in Ho. by destruct (dict_get p0 ORDER_ID). }
  assert (Hety : is_Some (dict_get p0 EVENT_TYPE)).
  { unfold get_or_none in He. by destruct (dict_get p0 EVENT_TYPE). }
  repeat (apply elem_of_cons in Hin as [->|Hin];
          [repeat first [apply setdefault_has | apply setdefault_keeps];
           assumption|]).
  by apply elem_of_nil in Hin.
Qed.

(** C9: with [mask_sensitive] true, the payload [write_event] returns and
    appends to the log is the normalized payload with [_mask_value] applied
    to the values of [llm_request] and [llm_response]; it has the same
    fields in the same order, and the value of every other field is
    unchanged. *)
Theorem masking_only_in_llm_fields
    (file now now' : pystr) (ev : event) (payload : pydict)
    (file' : pystr) :
  write file now now' ev true = Some (payload, file') →
  ∃ unmasked text,
    _to_event_payload now now' ev = Some unmasked ∧
    Forall2 (fun m u =>
               m.1 = u.1 ∧
               (u.1 ≠ LLM_REQUEST → u.1 ≠ LLM_RESPONSE → m.2 = u.2))
      payload unmasked ∧
    (∀ field, field ≠ LLM_REQUEST → field ≠ LLM_RESPONSE →
              dict_get payload field = dict_get unmasked field) ∧
    dict_get payload LLM_REQUEST
    = Some (mask (get_or_none unmasked LLM_REQUEST)) ∧
    dict_get payload LLM_RESPONSE
    = Some (mask (get_or_none unmasked LLM_RESPONSE)) ∧
    json_dumps (VDict payload) = Some text ∧
    file' = file ++ text ++ [10%N].
Proof.
  unfold write_event.
  destruct (_to_event_payload now now' ev) as [unmasked|] eqn:Hpayload;
    [|done].
  destruct (json_dumps _) as [text|] eqn:Htext; [|done].
  intros [= <- <-]. exists unmasked, text.
  pose proof (to_event_payload_fields _ _ _ _ LLM_REQUEST Hpayload) as Hreq.
  pose proof (to_event_payload_fields _ _ _ _ LLM_RESPONSE Hpayload) as Hresp.
  assert (Hreq' : is_Some (dict_get unmasked LLM_REQUEST)).
  { apply Hreq. rewrite !elem_of_cons. tauto. }
  assert (Hresp' : is_Some (dict_get unmasked LLM_RESPONSE)).
  { apply Hresp. rewrite !elem_of_cons. tauto. }
  clear Hreq Hresp.
  unfold _mask_llm_fields in *. cbv zeta in *.
  set (req := _mask_value _ _ _ _ (get_or_none unmasked LLM_REQUEST)) in *.
  set (mid := dict_set unmasked LLM_REQUEST req) in *.
  assert (Hmid : get_or_none mid LLM_RESPONSE
                 = get_or_none unmasked LLM_RESPONSE).
  { unfold get_or_none, mid. rewrite dict_get_set.
    by rewrite bool_decide_eq_false_2. }
  rewrite Hmid in *.
  set (resp := _mask_value _ _ _ _ (get_or_none unmasked LLM_RESPONSE)) in *.
  split_and!; [done| | | | |done|done].
  - pose proof (dict_set_frame unmasked LLM_REQUEST req Hreq') as H1.
    pose proof (dict_set_frame mid LLM_RESPONSE resp
                  (set_keeps _ _ _ _ Hresp')) as H2.
    fold mid in H1.
    eapply Forall2_compose; [|exact H2|exact H1].
    intros x y z [Hxy Hxy'] [Hyz Hyz']. split; [congruence|].
    intros Hz1 Hz2. rewrite Hxy', Hyz'; [done|done|congruence].
  - intros field Hf1 Hf2. unfold mid. rewrite !dict_get_set.
    by rewrite !bool_decide_eq_false_2.
  - unfold mid. rewrite !dict_get_set.
    rewrite bool_decide_eq_false_2 by done.
    by rewrite bool_decide_eq_true_2.
  - rewrite dict_get_set. by rewrite bool_decide_eq_true_2.
Qed.

End Facts.

(** The example event: the key of the request is masked, the address in
    the field [note] is not. *)
Lemma masking_only_in_llm_fields_witness :
  ∃ unmasked text,
    _to_event_payload example_now example_now example_event = Some unmasked ∧
    Forall2 (fun m u =>
               m.1 = u.1 ∧
               (u.1 ≠ LLM_REQUEST → u.1 ≠ LLM_RESPONSE → m.2 = u.2))
      example_masked_payload unmasked ∧
    (∀ field, field ≠ LLM_REQUEST → field ≠ LLM_RESPONSE →
              dict_get example_masked_payload field
              = dict_get unmasked field) ∧
    dict_get example_masked_payload LLM_REQUEST
    = Some (_mask_value ascii_lower ascii_isdigit ascii_isalpha MASK_TEXT
              (get_or_none unmasked LLM_REQUEST)) ∧
    dict_get example_masked_payload LLM_RESPONSE
    = Some (_mask_value ascii_lower ascii_isdigit ascii_isalpha MASK_TEXT
              (get_or_none unmasked LLM_RESPONSE)) ∧
    example_dumps (VDict example_masked_payload) = Some text ∧
    example_file = [] ++ text ++ [10%N].
Proof.
  apply (masking_only_in_llm_fields ascii_lower ascii_isdigit ascii_isalpha
           example_dumps [] example_now example_now example_event
           example_masked_payload example_file).
  vm_compute. reflexivity.
Defined.

End AuditFacts.

(** ** Properties of candidates.py *)

Module CandidatesFacts.
Import Candidates PyFacts.

Lemma basis_names_distinct :
  TOKEN ≠ CANONICAL ∧ TOKEN ≠ ALIAS ∧ TOKEN ≠ STRING ∧ CANONICAL ≠ ALIAS.
Proof. by vm_compute. Qed.

(** [max(0.0, min(100.0, x))] is a number from 0 to 100, whatever [x],
    NaN included. *)
Lemma clamp_range x :
  let clamped := pymax PyFloat.zero (pymin (PyFloat.of_Z 100) x) in
  PyFloat.leb PyFloat.zero clamped = true ∧
  PyFloat.leb clamped (PyFloat.of_Z 100) = true.
Proof.
  cbv zeta. unfold pymax, pymin.
  destruct (PyFloat.ltb x (PyFloat.of_Z 100)) eqn:Hx.
  - destruct (PyFloat.ltb PyFloat.zero x) eqn:H0.
    + split; by apply float_ltb_leb.
    + done.
  - destruct (PyFloat.ltb PyFloat.zero (PyFloat.of_Z 100)); done.
Qed.

Lemma insert_lt_perm {A} (lt : A → A → bool) x l :
  insert_lt lt x l ≡ₚ x :: l.
Proof.
  induction l as [|y l IH]; simpl; [done|].
  destruct (lt y x); [|done]. rewrite IH. apply Permutation_swap.
Qed.

Lemma sorted_lt_perm {A} (lt : A → A → bool) l : sorted_lt lt l ≡ₚ l.
Proof.
  induction l as [|x l IH]; simpl; [done|].
  by rewrite insert_lt_perm, IH.
Qed.

Section Facts.

Variable nfkc_lower : pystr → pystr.
Variable fuzz : option Fuzz.t.
Variable sequence_ratio : pystr → pystr → pyfloat.
Variable py_str : pyval → pystr.
Variable round4 : pyfloat → pyfloat.

Local Abbreviation score_match := (_score_match nfkc_lower fuzz sequence_ratio).
Local Abbreviation char := (char_score nfkc_lower fuzz sequence_ratio).
Local Abbreviation partial := (partial_score nfkc_lower fuzz sequence_ratio).
Local Abbreviation token := (token_score nfkc_lower).
Local Abbreviation entry_row := (score_entry nfkc_lower fuzz sequence_ratio).
Local Abbreviation best_ok := (Candidates.best_ok nfkc_lower fuzz sequence_ratio).

(** The score [_score_match] returns lies between 0 and 100. *)
Lemma score_match_range query candidate :
  PyFloat.leb PyFloat.zero (score_match query candidate).1 = true ∧
  PyFloat.leb (score_match query candidate).1 (PyFloat.of_Z 100) = true.
Proof. unfold _score_match. cbv zeta. cbn [fst]. apply clamp_range. Qed.

Lemma score_match_not_nan query candidate :
  PyFloat.is_nan (score_match query candidate).1 = false.
Proof.
  destruct (score_match_range query candidate) as [H _].
  by apply float_leb_not_nan in H as [_ ?].
Qed.

Lemma score_match_basis query candidate :
  (score_match query candidate).2 = TOKEN
  ↔ PyFloat.leb
      (PyFloat.add (pymax (char query candidate) (partial query candidate))
         (PyFloat.of_Z 5))
      (token query candidate) = true.
Proof.
  unfold _score_match. cbv zeta. cbn [snd].
  destruct (PyFloat.leb _ _); [done|]. split; [|done].
  intros H. symmetry in H. by apply basis_names_distinct in H.
Qed.

Lemma best_ok_aliases name_raw entry aliases best0 :
  best_ok name_raw entry [] best0 →
  best_ok name_raw entry aliases
    (fold_left
       (fun best alias =>
          let '(best_score, best_basis, matched_text) := best in
          let '(alias_score, alias_basis) := score_match name_raw alias in
          if PyFloat.ltb best_score alias_score then
            (alias_score,
             if bool_decide (alias_basis = TOKEN) then TOKEN else ALIAS,
             alias)
          else best)
       aliases best0).
Proof.
  intros H0. induction aliases as [|alias aliases IH] using rev_ind;
    [done|].
  rewrite fold_left_app. cbn [fold_left].
  destruct (fold_left _ aliases best0) as [[s b] t].
  destruct IH as (won & Hwon & Hs & Hb & Hall).
  pose proof (score_match_not_nan name_raw alias) as Hnan.
  destruct (score_match name_raw alias) as [alias_score alias_basis] eqn:Ha.
  cbn [fst] in Hnan.
  assert (Hlen : (won < S (length aliases))%nat).
  { apply lookup_lt_Some in Hwon. by cbn in Hwon. }
  destruct (PyFloat.ltb s alias_score) eqn:Hlt; unfold Candidates.best_ok.
  - exists (S (length aliases)). split_and!.
    + rewrite app_comm_cons.
      rewrite lookup_app_r by (cbn; lia).
      cbn [length]. by rewrite Nat.sub_diag.
    + by rewrite Ha.
    + rewrite Ha. cbn [snd]. by destruct (bool_decide (alias_basis = TOKEN)).
    + intros place name Hname. rewrite app_comm_cons in Hname.
      apply lookup_app_Some in Hname as [Hname|[Hge Hname]].
      * destruct (Hall place name Hname) as [Hle _].
        assert (PyFloat.ltb (score_match name_raw name).1 alias_score = true)
          as Hlt' by (eapply float_leb_ltb_trans; done).
        split; [by apply float_ltb_leb|done].
      * cbn [length] in Hge, Hname.
        destruct (place - S (length aliases))%nat eqn:Hd; [|done].
        cbn in Hname. injection Hname as <-. rewrite Ha. cbn [fst].
        split; [by apply float_leb_refl|lia].
  - exists won. split_and!; [|done|done|].
    + rewrite app_comm_cons. by apply lookup_app_l_Some.
    + intros place name Hname. rewrite app_comm_cons in Hname.
      apply lookup_app_Some in Hname as [Hname|[Hge Hname]];
        [by apply Hall|].
      cbn [length] in Hge, Hname.
      destruct (place - S (length aliases))%nat eqn:Hd; [|done].
      cbn in Hname. injection Hname as <-. rewrite Ha. cbn [fst].
      split; [|lia]. apply float_not_ltb_leb; [|done|done].
      rewrite Hs. apply score_match_not_nan.
Qed.

Lemma score_entry_ok name_raw entry :
  best_ok name_raw entry (_CatalogEntry.aliases entry)
    ((entry_row name_raw entry).1).
Proof.
  unfold score_entry. cbv zeta.
  pose proof (score_match_range name_raw (_CatalogEntry.canonical_name entry))
    as [Hnonneg _].
  destruct (score_match name_raw (_CatalogEntry.canonical_name entry))
    as [canonical_score canonical_basis] eqn:Hc.
  cbn [fst] in Hnonneg.
  assert (Hlt : PyFloat.ltb (PyFloat.of_Z (-1)) canonical_score = true).
  { eapply float_ltb_leb_trans; [|exact Hnonneg]. reflexivity. }
  rewrite Hlt.
  match goal with
  | |- context [fold_left ?f ?l ?b] =>
      pose proof (best_ok_aliases name_raw entry l b) as Hfold;
      destruct (fold_left f l b) as [[s b'] t]
  end.
  cbn [fst]. apply Hfold. unfold Candidates.best_ok. exists 0%nat.
  split_and!.
  - done.
  - by rewrite Hc.
  - rewrite Hc. cbn [snd].
    by destruct (bool_decide (canonical_basis = TOKEN)).
  - intros [|place] name Hname; [|done]. cbn in Hname.
    injection Hname as <-. rewrite Hc. cbn [fst]. split; [|lia].
    apply float_leb_refl. by apply float_leb_not_nan in Hnonneg as [_ ?].
Qed.

(** Every candidate of a line reports the basis, the matched text and the
    code of the row of one catalog entry. *)
Lemma line_candidates_rows entries limit thr line c :
  c ∈ line_candidates nfkc_lower fuzz sequence_ratio round4 entries limit thr
        line →
  ∃ entry,
    entry ∈ entries ∧
    let r := entry_row (MergeValidate.RawLine.name_raw line) entry in
    dict_get (MergeValidate.CandidateItem.metadata c) (lit "match_basis")
    = Some (VStr (row_basis r)) ∧
    dict_get (MergeValidate.CandidateItem.metadata c) (lit "matched_text")
    = Some (VStr (row_text r)) ∧
    MergeValidate.CandidateItem.candidate_code c
    = Some (_CatalogEntry.item_id entry) ∧
    MergeValidate.CandidateItem.name_raw c
    = MergeValidate.RawLine.name_raw line.
Proof.
  unfold line_candidates. cbv zeta. intros Hc.
  apply elem_of_lookup_imap in Hc as (i & r & -> & Hr).
  apply list_elem_of_lookup_2 in Hr.
  assert (Hin : r ∈ map (entry_row (MergeValidate.RawLine.name_raw line))
                      entries).
  { destruct (0 <? limit)%Z; [|by apply elem_of_nil in Hr].
    eapply elem_of_sublist in Hr; [|apply sublist_take].
    by rewrite (sorted_lt_perm row_lt) in Hr. }
  apply list_elem_of_fmap in Hin as (entry & -> & Hentry).
  exists entry. split; [done|]. cbv zeta.
  cbn [MergeValidate.CandidateItem.metadata
       MergeValidate.CandidateItem.candidate_code
       MergeValidate.CandidateItem.name_raw].
  split_and!; [reflexivity|reflexivity| |reflexivity].
  unfold row_entry, score_entry. cbv zeta. by repeat case_match.
Qed.

Lemma generate_candidates_lines lines menu_catalog top_k thr i cands :
  generate_candidates nfkc_lower fuzz sequence_ratio py_str round4 lines
    menu_catalog top_k thr !! i = Some cands →
  ∃ line,
    line ∈ lines ∧
    cands
    = line_candidates nfkc_lower fuzz sequence_ratio round4
        (_as_catalog_entries py_str menu_catalog) (Z.max 0 top_k) thr line.
Proof.
  unfold generate_candidates. cbv zeta.
  induction lines as [|line lines IH] using rev_ind.
  { cbn. by rewrite lookup_empty. }
  rewrite fold_left_app. cbn [fold_left].
  destruct (decide (MergeValidate.RawLine.line_index line = i)) as [<-|Hne].
  - rewrite lookup_insert_eq. intros [= <-]. exists line.
    split; [|done]. apply elem_of_app. right. left.
  - rewrite lookup_insert_ne by done. intros H.
    destruct (IH H) as (line' & Hin & ->). exists line'.
    split; [|done]. apply elem_of_app. by left.
Qed.

(** C7, amended: [_score_match] reports the basis token exactly when the
    token score is at least max(char score, partial score) + 5, all in
    floating point; the row of an entry carries the name that scored
    highest, the first of them when several did (the canonical name comes
    first, so an alias wins only with a strictly higher score), with basis
    token under that same test on the winning name, and otherwise
    canonical or alias according to the name that won; and the match
    basis and the matched text of every candidate [generate_candidates]
    returns are those of the row of one catalog entry for the name of one
    of the lines. *)
Theorem match_basis_token_iff_at_least (name_raw : pystr)
    (entry : _CatalogEntry.t) :
  (∀ lines menu_catalog top_k low_confidence_threshold i cands c,
     generate_candidates nfkc_lower fuzz sequence_ratio py_str round4 lines
       menu_catalog top_k low_confidence_threshold !! i = Some cands →
     c ∈ cands →
     ∃ line entry,
       line ∈ lines ∧ entry ∈ _as_catalog_entries py_str menu_catalog ∧
       let r := entry_row (MergeValidate.RawLine.name_raw line) entry in
       dict_get (MergeValidate.CandidateItem.metadata c) (lit "match_basis")
       = Some (VStr (row_basis r)) ∧
       dict_get (MergeValidate.CandidateItem.metadata c) (lit "matched_text")
       = Some (VStr (row_text r)) ∧
       MergeValidate.CandidateItem.candidate_code c
       = Some (_CatalogEntry.item_id entry) ∧
       MergeValidate.CandidateItem.name_raw c
       = MergeValidate.RawLine.name_raw line) ∧
  (∀ candidate,
     (score_match name_raw candidate).2 = TOKEN
     ↔ PyFloat.leb
         (PyFloat.add
            (pymax (char name_raw candidate) (partial name_raw candidate))
            (PyFloat.of_Z 5))
         (token name_raw candidate) = true) ∧
  let r := entry_row name_raw entry in
  let names :=
    _CatalogEntry.canonical_name entry :: _CatalogEntry.aliases entry in
  ∃ won : nat,
    names !! won = Some (row_text r) ∧
    row_score r = (score_match name_raw (row_text r)).1 ∧
    (∀ (place : nat) name,
       names !! place = Some name →
       PyFloat.leb (score_match name_raw name).1 (row_score r) = true ∧
       ((place < won)%nat →
        PyFloat.ltb (score_match name_raw name).1 (row_score r) = true)) ∧
    (row_basis r = TOKEN
     ↔ PyFloat.leb
         (PyFloat.add
            (pymax (char name_raw (row_text r))
               (partial name_raw (row_text r)))
            (PyFloat.of_Z 5))
         (token name_raw (row_text r)) = true) ∧
    (row_basis r ≠ TOKEN →
     row_basis r = if (won =? 0)%nat then CANONICAL else ALIAS).
Proof.
  split.
  { intros lines menu_catalog top_k thr i cands c Hget Hc.
    apply generate_candidates_lines in Hget as (line & Hline & ->).
    apply line_candidates_rows in Hc as (entry' & Hentry & Hrow).
    by exists line, entry'. }
  split; [intros candidate; apply score_match_basis|]. cbv zeta.
  pose proof (score_entry_ok name_raw entry) as Hok.
  unfold row_text, row_score, row_basis.
  destruct (entry_row name_raw entry) as [[[s b] t] e]. cbn [fst snd] in *.
  destruct Hok as (won & Hwon & Hs & Hb & Hall).
  exists won. split_and!; [done|done|done| |].
  - rewrite <- score_match_basis, Hb.
    destruct (bool_decide_reflect ((score_match name_raw t).2 = TOKEN))
      as [Ht|Ht]; [done|].
    split; [|done]. intros H. exfalso.
    destruct (won =? 0)%nat; symmetry in H;
      by apply basis_names_distinct in H.
  - rewrite Hb.
    by destruct (bool_decide ((score_match name_raw t).2 = TOKEN)).
Qed.

End Facts.

(** C7 as stated fails on the boundary: on ["aab a"] against ["a aab"],
    scored with [difflib], the character and partial scores are 75.0 and
    the token score is 80.0, which does not exceed 75.0 + 5.0, and the
    basis reported is token. *)
Lemma match_basis_token_exceeds_counterexample :
  let query := lit "aab a" in
  let candidate := lit "a aab" in
  let char := char_score nfkc_lower_id None difflib_ratio query candidate in
  let partial :=
    partial_score nfkc_lower_id None difflib_ratio query candidate in
  let token := token_score nfkc_lower_id query candidate in
  char = PyFloat.of_Z 75 ∧ partial = PyFloat.of_Z 75 ∧
  token = PyFloat.of_Z 80 ∧
  PyFloat.ltb (PyFloat.add (pymax char partial) (PyFloat.of_Z 5)) token
  = false ∧
  (_score_match nfkc_lower_id None difflib_ratio query candidate).2 = TOKEN ∧
  row_basis
    (score_entry nfkc_lower_id None difflib_ratio query
       (_CatalogEntry.mk (lit "A1") candidate []))
  = TOKEN.
Proof.
  cbv zeta. split_and!; by vm_compute.
Qed.

(** The scores round as the floats of the code do.  On ["dcdaddbdaaca"]
    against ["badcaddb cdad"] the character and partial scores are
    41.66666666666667 and the token score 46.666666666666664, one step
    below 41.66666666666667 + 5.0, so the basis is string.  On ["a ba"] the
    canonical name ["aaabba"] scores 59.99999999999999 and the alias ["b"]
    scores 60.0, so the alias wins. *)
Lemma scores_round_as_floats :
  let score_match := _score_match nfkc_lower_id None difflib_ratio in
  score_match (lit "dcdaddbdaaca") (lit "badcaddb cdad")
  = (S754_finite false 6004799503160662 (-47), STRING) ∧
  token_score nfkc_lower_id (lit "dcdaddbdaaca") (lit "badcaddb cdad")
  = S754_finite false 6567749456581973 (-47) ∧
  PyFloat.add
    (char_score nfkc_lower_id None difflib_ratio (lit "dcdaddbdaaca")
       (lit "badcaddb cdad"))
    (PyFloat.of_Z 5)
  = S754_finite false 6567749456581974 (-47) ∧
  (score_match (lit "a ba") (lit "aaabba")).1
  = S754_finite false 8444249301319679 (-47) ∧
  (score_match (lit "a ba") (lit "b")).1 = PyFloat.of_Z 60 ∧
  row_text
    (score_entry nfkc_lower_id None difflib_ratio (lit "a ba")
       (_CatalogEntry.mk (lit "A1") (lit "aaabba") [lit "b"]))
  = lit "b".
Proof.
  cbv zeta. split_and!; by vm_compute.
Qed.

End CandidatesFacts.

(** ** Further properties of candidates.py *)

Module CandidatesProps.
Import Candidates PyFacts CandidatesFacts.

(** *** The order of the rows *)

Lemma insert_lt_HdRel {A} (lt : A → A → bool) y x l :
  lt x y = false → HdRel (fun a b => lt b a = false) y l →
  HdRel (fun a b => lt b a = false) y (insert_lt lt x l).
Proof.
  intros Hyx Hl. destruct l as [|z l]; simpl; [by constructor|].
  destruct (lt z x); constructor; [|done]. by inversion Hl.
Qed.

(** An insertion sort by a comparison that never holds both ways leaves
    no element before one that compares below it. *)
Lemma sorted_lt_Sorted {A} (lt : A → A → bool) l :
  (∀ a b, lt a b = true → lt b a = false) →
  Sorted (fun a b => lt b a = false) (sorted_lt lt l).
Proof.
  intros Hasym. induction l as [|x l IH]; simpl; [constructor|].
  induction IH as [|y l' Hl' IH' Hhd]; simpl; [by repeat constructor|].
  destruct (lt y x) eqn:Hyx.
  - constructor; [done|]. apply insert_lt_HdRel; [by apply Hasym|done].
  - constructor; [by constructor|]. by constructor.
Qed.

Lemma StronglySorted_lookup {A} (R : A → A → Prop) l :
  StronglySorted R l →
  ∀ (i j : nat) a b, l !! i = Some a → l !! j = Some b → (i < j)%nat → R a b.
Proof.
  induction 1 as [|x l Hl IH Hall]; intros i j a b Hi Hj Hlt; [done|].
  destruct j as [|j]; [lia|]. cbn in Hj.
  destruct i as [|i]; cbn in Hi.
  - injection Hi as <-. rewrite List.Forall_forall in Hall. apply Hall.
    apply list_elem_of_In. by eapply list_elem_of_lookup_2.
  - eapply IH; [done|done|lia].
Qed.

Lemma Sorted_impl_Forall {A} (R S : A → A → Prop) (P : A → Prop) l :
  (∀ a b, P a → P b → R a b → S a b) → Forall P l →
  Sorted R l → Sorted S l.
Proof.
  intros HRS HP Hs. induction Hs as [|x l Hl IH Hhd]; [constructor|].
  apply Forall_cons in HP as [Hx HP]. constructor; [by apply IH|].
  destruct Hhd as [|y l' Hxy]; constructor.
  apply Forall_cons in HP as [Hy _]. by apply HRS.
Qed.

Lemma str_ltb_asym a b : str_ltb a b = true → str_ltb b a = false.
Proof.
  rewrite str_ltb_lexico, str_ltb_not_lexico. intros Hab Hba.
  by apply (irreflexivity lexico a); etrans.
Qed.

Lemma row_lt_asym a b : row_lt a b = true → row_lt b a = false.
Proof.
  unfold row_lt.
  rewrite (float_eqb_sym (PyFloat.opp (row_score b))).
  destruct (PyFloat.eqb _ _).
  - destruct (bool_decide_reflect
                (_CatalogEntry.canonical_name (row_entry a)
                 = _CatalogEntry.canonical_name (row_entry b))) as [Heq|Hne].
    + rewrite bool_decide_eq_true_2 by done. apply str_ltb_asym.
    + rewrite bool_decide_eq_false_2 by done. apply str_ltb_asym.
  - intros H. by apply float_leb_not_ltb, float_ltb_leb.
Qed.

(** A row that does not sort before another scores no higher. *)
Lemma row_lt_false_score a b :
  PyFloat.is_nan (row_score a) = false →
  PyFloat.is_nan (row_score b) = false →
  row_lt b a = false → PyFloat.leb (row_score b) (row_score a) = true.
Proof.
  intros Ha Hb. unfold row_lt. rewrite float_eqb_opp, float_ltb_opp.
  destruct (PyFloat.eqb (row_score b) (row_score a)) eqn:Heq.
  - intros _. rewrite float_eqb_sym in Heq. by apply float_eqb_leb.
  - intros H. by apply float_not_ltb_leb.
Qed.

Lemma omap_length_le {A B} (f : A → option B) l :
  (length (omap f l) <= length l)%nat.
Proof.
  induction l as [|x l IH]; [done|]. cbn. destruct (f x); cbn; lia.
Qed.

Lemma nonempty_iff s : nonempty s = true ↔ s ≠ [].
Proof. by destruct s. Qed.

Section Props.

Variable nfkc_lower : pystr → pystr.
Variable fuzz : option Fuzz.t.
Variable sequence_ratio : pystr → pystr → pyfloat.
Variable py_str : pyval → pystr.
Variable round4 : pyfloat → pyfloat.

Local Abbreviation entry_row := (score_entry nfkc_lower fuzz sequence_ratio).
Local Abbreviation rows_of := (selected_rows nfkc_lower fuzz sequence_ratio).
Local Abbreviation candidates_of :=
  (line_candidates nfkc_lower fuzz sequence_ratio round4).
Local Abbreviation generate :=
  (generate_candidates nfkc_lower fuzz sequence_ratio py_str round4).

Lemma row_score_range name_raw entry :
  PyFloat.leb PyFloat.zero (row_score (entry_row name_raw entry)) = true ∧
  PyFloat.leb (row_score (entry_row name_raw entry)) (PyFloat.of_Z 100) = true.
Proof.
  pose proof (score_entry_ok nfkc_lower fuzz sequence_ratio name_raw entry)
    as Hok.
  unfold row_score.
  destruct (entry_row name_raw entry) as [[[s b] t] e]. cbn [fst] in *.
  destruct Hok as (won & _ & -> & _). apply score_match_range.
Qed.

Lemma sorted_rows_scores name_raw entries :
  StronglySorted
    (fun a b => PyFloat.leb (row_score b) (row_score a) = true)
    (sorted_lt row_lt (map (entry_row name_raw) entries)).
Proof.
  apply Sorted_StronglySorted.
  { intros a b c Hab Hbc. by eapply float_leb_trans. }
  eapply (Sorted_impl_Forall _ _
            (fun r => PyFloat.is_nan (row_score r) = false));
    [|..|apply sorted_lt_Sorted, row_lt_asym].
  - intros a b Ha Hb. by apply row_lt_false_score.
  - rewrite (sorted_lt_perm row_lt). apply Forall_fmap, Forall_forall.
    intros entry _. cbn.
    destruct (row_score_range name_raw entry) as [H _].
    by apply float_leb_not_nan in H as [_ ?].
Qed.

Lemma rows_lookup entries limit name_raw (i : nat) r :
  rows_of entries limit name_raw !! i = Some r →
  sorted_lt row_lt (map (entry_row name_raw) entries) !! i = Some r.
Proof.
  unfold selected_rows. cbv zeta. destruct (0 <? limit)%Z; [|done].
  intros H. by apply lookup_take_Some in H as [? _].
Qed.

(** X16: the candidates of a line are the rows selected for its name, in
    their order, each with the code and the name of its entry and the
    rounded score of its row.  There are [limit] of them, or as many as
    there are entries if these are fewer, and none for a limit that is not
    positive.  Every row is the row of a catalog entry and scores between
    0 and 100, whatever the ratio functions return; no row scores higher
    than a row before it, and the first row scores at least as high as
    the row of every entry of the catalog. *)
Theorem candidates_best_first
    (entries : list _CatalogEntry.t) (limit : Z) (thr : pyfloat)
    (line : MergeValidate.RawLine.t) :
  let name_raw := MergeValidate.RawLine.name_raw line in
  let rows := rows_of entries limit name_raw in
  Forall2 (fun c r =>
             MergeValidate.CandidateItem.candidate_code c
             = Some (_CatalogEntry.item_id (row_entry r)) ∧
             MergeValidate.CandidateItem.candidate_name c
             = _CatalogEntry.canonical_name (row_entry r) ∧
             MergeValidate.CandidateItem.confidence_item c
             = Some (round4 (row_score r)))
    (candidates_of entries limit thr line) rows ∧
  length rows
  = (if (0 <? limit)%Z then Nat.min (Z.to_nat limit) (length entries)
     else 0%nat) ∧
  (∀ r, r ∈ rows →
     (∃ entry, entry ∈ entries ∧ r = entry_row name_raw entry) ∧
     PyFloat.leb PyFloat.zero (row_score r) = true ∧
     PyFloat.leb (row_score r) (PyFloat.of_Z 100) = true) ∧
  (∀ (i j : nat) ri rj,
     rows !! i = Some ri → rows !! j = Some rj → (i < j)%nat →
     PyFloat.leb (row_score rj) (row_score ri) = true) ∧
  (∀ first entry,
     rows !! 0%nat = Some first → entry ∈ entries →
     PyFloat.leb (row_score (entry_row name_raw entry)) (row_score first)
     = true).
Proof.
  cbv zeta. split_and!.
  - apply Forall2_same_length_lookup. split.
    { unfold line_candidates, selected_rows. cbv zeta. apply length_imap. }
    intros k c r Hc Hr. unfold line_candidates in Hc. cbv zeta in Hc.
    apply list_lookup_imap_Some in Hc as (r' & Hr' & ->).
    unfold selected_rows in Hr. cbv zeta in Hr.
    rewrite Hr in Hr'. by injection Hr' as <-.
  - unfold selected_rows. cbv zeta. destruct (0 <? limit)%Z; [|done].
    rewrite length_take.
    assert (Hlen : ∀ {A} (lt : A → A → bool) l,
              length (sorted_lt lt l) = length l).
    { intros A lt l. by rewrite (sorted_lt_perm lt). }
    by rewrite Hlen, length_map.
  - intros r Hr. apply list_elem_of_lookup in Hr as [i Hr].
    apply rows_lookup in Hr. apply list_elem_of_lookup_2 in Hr.
    rewrite (sorted_lt_perm row_lt) in Hr.
    apply list_elem_of_fmap in Hr as (entry & -> & Hentry).
    split; [by exists entry|]. apply row_score_range.
  - intros i j ri rj Hi Hj Hlt.
    apply rows_lookup in Hi, Hj.
    by apply (StronglySorted_lookup _ _
                (sorted_rows_scores (MergeValidate.RawLine.name_raw line)
                   entries) i j ri rj).
  - intros first entry Hfirst Hentry. apply rows_lookup in Hfirst.
    assert (Hin : entry_row (MergeValidate.RawLine.name_raw line) entry
                  ∈ sorted_lt row_lt
                      (map (entry_row (MergeValidate.RawLine.name_raw line))
                         entries)).
    { rewrite (sorted_lt_perm row_lt). apply list_elem_of_fmap.
      by exists entry. }
    apply list_elem_of_lookup in Hin as [[|j] Hj].
    + rewrite Hj in Hfirst. injection Hfirst as <-.
      apply float_leb_refl.
      destruct (row_score_range (MergeValidate.RawLine.name_raw line) entry)
        as [H _].
      by apply float_leb_not_nan in H as [_ ?].
    + apply (StronglySorted_lookup _ _
               (sorted_rows_scores (MergeValidate.RawLine.name_raw line)
                  entries) 0%nat (S j) _ _ Hfirst Hj). lia.
Qed.

(** X17: every candidate of a line carries the line's index, raw text,
    raw name and note, the line's quantity (1 for a quantity of 0), and
    the review flag of the line or-ed with [low_confidence], which is the
    same for all candidates of the line: the comparison of the score of
    the first selected row (0.0 without one) with the threshold; the
    ranks count from 1 in the order of the list. *)
Theorem candidates_carry_their_line
    (entries : list _CatalogEntry.t) (limit : Z) (thr : pyfloat)
    (line : MergeValidate.RawLine.t) :
  let cands := candidates_of entries limit thr line in
  let best :=
    match rows_of entries limit (MergeValidate.RawLine.name_raw line) with
    | first :: _ => row_score first
    | [] => PyFloat.zero
    end in
  let low := PyFloat.ltb best thr in
  Forall (fun c =>
            MergeValidate.CandidateItem.line_index c
            = MergeValidate.RawLine.line_index line ∧
            MergeValidate.CandidateItem.raw_line c
            = MergeValidate.RawLine.raw_line line ∧
            MergeValidate.CandidateItem.name_raw c
            = MergeValidate.RawLine.name_raw line ∧
            MergeValidate.CandidateItem.note_raw c
            = MergeValidate.RawLine.note_raw line ∧
            MergeValidate.CandidateItem.qty c
            = (if MergeValidate.RawLine.qty line =? 0 then 1
               else MergeValidate.RawLine.qty line) ∧
            MergeValidate.CandidateItem.needs_review c
            = MergeValidate.RawLine.needs_review line || low ∧
            dict_get (MergeValidate.CandidateItem.metadata c)
              (lit "low_confidence") = Some (VBool low) ∧
            dict_get (MergeValidate.CandidateItem.metadata c)
              (lit "review_reason")
            = Some (VStr (if low then lit "best_score_below_threshold"
                          else lit "ok")) ∧
            dict_get (MergeValidate.CandidateItem.metadata c)
              (lit "best_line_score") = Some (VFloat (round4 best)))
    cands ∧
  (fun c => dict_get (MergeValidate.CandidateItem.metadata c) (lit "rank"))
  <$> cands
  = (fun k => Some (VInt (Z.of_nat k + 1))) <$> seq 0 (length cands).
Proof.
  cbv zeta. split.
  - apply Forall_forall. intros c Hc.
    unfold line_candidates in Hc. cbv zeta in Hc.
    apply elem_of_lookup_imap in Hc as (k & r & -> & Hr).
    unfold selected_rows. cbv zeta. by split_and!.
  - unfold line_candidates. cbv zeta.
    rewrite length_imap, fmap_imap.
    rewrite <- (imap_seq_0 _ (fun k => Some (VInt (Z.of_nat k + 1)))).
    apply imap_ext. reflexivity.
Qed.

(** X18: [generate_candidates] maps a line index to the candidates of the
    last line that has it, computed for the normalized catalog entries and
    the limit [max(0, top_k)], and maps no other index. *)
Theorem generate_candidates_by_line_index
    (lines : list MergeValidate.RawLine.t) (menu_catalog : pyval)
    (top_k : Z) (thr : pyfloat) (i : Z) :
  generate lines menu_catalog top_k thr !! i
  = candidates_of (_as_catalog_entries py_str menu_catalog) (Z.max 0 top_k)
      thr
    <$> last (filter (fun line => MergeValidate.RawLine.line_index line = i)
                lines).
Proof.
  unfold generate_candidates. cbv zeta.
  induction lines as [|line lines IH] using rev_ind.
  { cbn. apply lookup_empty. }
  rewrite fold_left_app, filter_app. cbn [fold_left].
  destruct (decide (MergeValidate.RawLine.line_index line = i)) as [<-|Hne].
  - rewrite lookup_insert_eq.
    rewrite filter_cons_True, filter_nil by done. by rewrite last_snoc.
  - rewrite lookup_insert_ne by done.
    rewrite filter_cons_False, filter_nil, app_nil_r by done. exact IH.
Qed.

Lemma normalize_catalog_entry_ok (item_id payload : pyval) :
  let entry := _normalize_catalog_entry py_str item_id payload in
  _CatalogEntry.item_id entry ≠ [] ∧
  strip (_CatalogEntry.item_id entry) = _CatalogEntry.item_id entry ∧
  _CatalogEntry.canonical_name entry ≠ [] ∧
  strip (_CatalogEntry.canonical_name entry)
  = _CatalogEntry.canonical_name entry ∧
  (strip (py_str item_id) ≠ [] →
   _CatalogEntry.item_id entry = strip (py_str item_id)).
Proof.
  cbv zeta. unfold _normalize_catalog_entry.
  match goal with
  | |- context [match ?e with pair _ _ => _ end] =>
      destruct e as [name aliases]
  end.
  cbn [_CatalogEntry.item_id _CatalogEntry.canonical_name].
  destruct (nonempty (strip (py_str item_id))) eqn:Hid.
  - apply nonempty_iff in Hid.
    destruct (nonempty (strip name)) eqn:Hname.
    + apply nonempty_iff in Hname. split_and!; try done; apply strip_idem.
    + split_and!; try done; apply strip_idem.
  - destruct (nonempty (strip name)) eqn:Hname.
    + apply nonempty_iff in Hname.
      split_and!; try done; try apply strip_idem.
      intros H. destruct (strip (py_str item_id)); done.
    + split_and!; try done.
      intros H. destruct (strip (py_str item_id)); done.
Qed.

(** X19: a normalized catalog entry always has an item id and a canonical
    name that are not empty and carry no white space at either end; the
    item id is the stripped text of the given id whenever that is not
    empty.  So has every entry [_as_catalog_entries] returns, and a
    mapping gives one entry per item. *)
Theorem catalog_entries_have_id_and_name
    (item_id payload menu_catalog : pyval) :
  let entry := _normalize_catalog_entry py_str item_id payload in
  (_CatalogEntry.item_id entry ≠ [] ∧
   strip (_CatalogEntry.item_id entry) = _CatalogEntry.item_id entry ∧
   _CatalogEntry.canonical_name entry ≠ [] ∧
   strip (_CatalogEntry.canonical_name entry)
   = _CatalogEntry.canonical_name entry ∧
   (strip (py_str item_id) ≠ [] →
    _CatalogEntry.item_id entry = strip (py_str item_id))) ∧
  Forall (fun entry =>
            _CatalogEntry.item_id entry ≠ [] ∧
            strip (_CatalogEntry.item_id entry) = _CatalogEntry.item_id entry ∧
            _CatalogEntry.canonical_name entry ≠ [] ∧
            strip (_CatalogEntry.canonical_name entry)
            = _CatalogEntry.canonical_name entry)
    (_as_catalog_entries py_str menu_catalog) ∧
  match menu_catalog with
  | VDict items =>
      length (_as_catalog_entries py_str menu_catalog) = length items
  | VList payloads | VTuple payloads =>
      (length (_as_catalog_entries py_str menu_catalog) <= length payloads)%nat
  | _ => _as_catalog_entries py_str menu_catalog = []
  end.
Proof.
  cbv zeta. split; [apply normalize_catalog_entry_ok|]. split.
  - unfold _as_catalog_entries.
    destruct menu_catalog as [| | | | |l|l| |items]; try constructor.
    + apply Forall_forall. intros entry Hentry.
      apply list_elem_of_omap in Hentry as ([k listed] & _ & Hsome).
      cbn [snd fst] in Hsome. destruct listed; try discriminate.
      injection Hsome as <-.
      match goal with
      | |- context [_normalize_catalog_entry _ ?id ?given] =>
          destruct (normalize_catalog_entry_ok id given)
            as (? & ? & ? & ? & _)
      end.
      done.
    + apply Forall_forall. intros entry Hentry.
      apply list_elem_of_omap in Hentry as ([k listed] & _ & Hsome).
      cbn [snd fst] in Hsome. destruct listed; try discriminate.
      injection Hsome as <-.
      match goal with
      | |- context [_normalize_catalog_entry _ ?id ?given] =>
          destruct (normalize_catalog_entry_ok id given)
            as (? & ? & ? & ? & _)
      end.
      done.
    + apply Forall_fmap, Forall_forall. intros [key listed] _. cbn.
      match goal with
      | |- context [_normalize_catalog_entry _ ?id ?given] =>
          destruct (normalize_catalog_entry_ok id given)
            as (? & ? & ? & ? & _)
      end.
      done.
  - unfold _as_catalog_entries.
    destruct menu_catalog as [| | | | |l|l| |items]; try done.
    + etrans; [apply omap_length_le|]. by rewrite length_imap.
    + etrans; [apply omap_length_le|]. by rewrite length_imap.
    + apply length_map.
Qed.

End Props.

End CandidatesProps.

(** ** Properties of the regular expressions and of parser.py *)

Module RegexFacts.
Import Regex PyFacts.

Section Facts.

Variable isdecimal : N → bool.
Variable ignorecase : bool.

Local Abbreviation run := (run isdecimal ignorecase).
Local Abbreviation span := (span isdecimal ignorecase).
Local Abbreviation cls_match := (cls_match isdecimal ignorecase).
Local Abbreviation item_match := (item_match isdecimal ignorecase).

Lemma run_seq_nonempty a b s :
  run (Seq a b) s ≠ [] → ∃ s', s' ∈ run a s ∧ run b s' ≠ [].
Proof.
  cbn [Regex.run]. destruct (flat_map _ _) as [|x l] eqn:H; [done|].
  intros _. assert (Hx : In x (flat_map (run b) (run a s))).
  { rewrite H. by left. }
  apply in_flat_map in Hx as (s' & Hs' & Hx). exists s'. split.
  - by apply list_elem_of_In.
  - intros Hnil. by rewrite Hnil in Hx.
Qed.

Lemma run_alt_nonempty a b s :
  run (Alt a b) s ≠ [] → run a s ≠ [] ∨ run b s ≠ [].
Proof.
  cbn [Regex.run]. destruct (run a s); [by right|by left].
Qed.

Lemma run_alts_nonempty l s :
  run (alts l) s ≠ [] → ∃ r, r ∈ l ∧ run r s ≠ [].
Proof.
  induction l as [|r l IH].
  { cbn. by destruct (rest s). }
  destruct l as [|r' l].
  - intros H. exists r. split; [by left|done].
  - change (alts (r :: r' :: l)) with (Alt r (alts (r' :: l))).
    intros [H|H]%run_alt_nonempty.
    + exists r. split; [by left|done].
    + destruct (IH H) as (r0 & Hr0 & Hrun). exists r0. split; [by right|done].
Qed.

Lemma run_text_cons c w s :
  run (text (c :: w)) s ≠ [] →
  ∃ x t, rest s = x :: t ∧ item_match (IChar c) x = true.
Proof.
  intros (s' & Hs' & _)%run_seq_nonempty. cbn [Regex.run] in Hs'.
  destruct (rest s) as [|x t]; [by apply elem_of_nil in Hs'|].
  exists x, t. split; [done|]. cbn [Regex.cls_match existsb] in Hs'.
  destruct (item_match (IChar c) x); [done|].
  by apply elem_of_nil in Hs'.
Qed.

Lemma run_rep_rest c lo hi greedy s s' :
  s' ∈ run (Rep c lo hi greedy) s →
  ∃ n, (lo ≤ n ≤ span c hi (rest s))%nat ∧ rest s' = drop n (rest s).
Proof.
  cbn [Regex.run]. intros (n & -> & Hn)%list_elem_of_fmap.
  exists n. split; [|done].
  assert (Hseq : n ∈ seq lo (S (span c hi (rest s)) - lo)).
  { destruct greedy; [|done].
    apply list_elem_of_In. apply in_rev. by apply list_elem_of_In. }
  apply elem_of_seq in Hseq. lia.
Qed.

Lemma span_take c hi s n :
  (n ≤ span c hi s)%nat → Forall (fun x => cls_match c x = true) (take n s).
Proof.
  revert hi n. induction s as [|x s IH]; intros hi n Hn.
  { by rewrite take_nil. }
  destruct n as [|n]; [by constructor|].
  cbn [Regex.span] in Hn. destruct (cls_match c x) eqn:Hx; [|lia].
  cbn [take]. constructor; [done|].
  destruct hi as [[|k]|]; [lia|apply (IH (Some k) n)|apply (IH None n)]; lia.
Qed.

End Facts.

(** The first character that is no white space follows leading white
    space only. *)
Lemma lstrip_skip n s x t :
  Forall (fun c => isspace c = true) (take n s) → drop n s = x :: t →
  isspace x = false → lstrip s = x :: t.
Proof.
  revert s. induction n as [|n IH]; intros s Hall Hdrop Hx.
  { rewrite drop_0 in Hdrop. subst s. cbn [lstrip]. by rewrite Hx. }
  destruct s as [|c s]; [done|]. cbn [take] in Hall.
  apply Forall_cons in Hall as [Hc Hall]. cbn [lstrip]. rewrite Hc.
  by apply IH.
Qed.

Lemma lstrip_suffix s : ∃ k, lstrip s = drop k s.
Proof.
  induction s as [|c s [k IH]]; [by exists 0%nat|]. cbn [lstrip].
  destruct (isspace c); [by exists (S k)|by exists 0%nat].
Qed.

Lemma fold_case_inv x y :
  fold_case x = y → x = y ∨ ((65 <= x <= 90)%N ∧ y = (x + 32)%N).
Proof.
  unfold fold_case.
  destruct (N.leb_spec 65 x), (N.leb_spec x 90); cbn [andb]; intros <-;
    auto.
Qed.

End RegexFacts.

Module ParserFacts.
Import Regex Parser PyFacts RegexFacts.

Lemma isspace_upper x : (65 <= x <= 90)%N → isspace x = false.
Proof.
  intros Hx. unfold isspace.
  repeat match goal with
         | |- context [N.leb ?a ?b] => destruct (N.leb_spec a b); try lia
         | |- context [N.eqb ?a ?b] => destruct (N.eqb_spec a b); try lia
         end; reflexivity.
Qed.

Lemma last_removelast {A} (l : list A) x :
  last l = Some x → removelast l ++ [x] = l.
Proof.
  intros H. destruct (decide (l = [])) as [->|Hne]; [done|].
  rewrite (app_removelast_last x Hne) at 2. f_equal. f_equal.
  apply last_Some in H as [l' ->]. by rewrite List.last_last.
Qed.

(** Membership in a list of literals. *)
Ltac list_mem :=
  apply list_elem_of_In; vm_compute;
  repeat (first [left; reflexivity | right]).

(** No case of a disjunction of equalities between distinct literals. *)
Ltac no_case :=
  let H := fresh in
  intros H; repeat (destruct H as [H|H]; [discriminate H|]);
  first [discriminate H | destruct H].

Section Facts.

Variable isdecimal : N → bool.
Variable py_int : pystr → exc Z.

Local Abbreviation matches := (matches isdecimal).
Local Abbreviation found := (found isdecimal).
Local Abbreviation is_noise_line := (_is_noise_line isdecimal).
Local Abbreviation is_standalone_note := (_is_standalone_note isdecimal).
Local Abbreviation parse_line := (_parse_line isdecimal py_int).
Local Abbreviation item_line := (is_item_line isdecimal).
Local Abbreviation kept := (kept_line isdecimal).

Lemma matches_run ic r n :
  matches ic r n = true → run isdecimal ic r (mk n true []) ≠ [].
Proof.
  unfold Parser.matches, match_. intros H%bool_decide_eq_true Hnil.
  rewrite Hnil in H. by destruct H.
Qed.

Lemma item_match_fold ic c x :
  item_match isdecimal ic (IChar c) x = true → fold_case x = fold_case c.
Proof.
  cbn [item_match]. intros [H|[_ H]%andb_true_iff]%orb_true_iff.
  - by apply N.eqb_eq in H as ->.
  - by apply N.eqb_eq in H.
Qed.

(** A line that matches [^\s*(?:w1|w2|...)...] has, after its leading
    white space, the first character of one of the words, in one of its
    cases. *)
Lemma first_char_of_words ic (words : list pystr) (firsts : list N) R n :
  (∀ w, w ∈ words → ∃ c w', w = c :: w' ∧ fold_case c ∈ firsts) →
  (∀ y, y ∈ firsts → isspace y = false) →
  run isdecimal ic (Seq Bol (Seq ws (Seq (alts (map text words)) R)))
    (mk n true []) ≠ [] →
  ∃ x t, lstrip n = x :: t ∧ fold_case x ∈ firsts.
Proof.
  intros Hwords Hfirsts (s0 & Hs0 & Hrun)%run_seq_nonempty.
  cbn in Hs0. apply list_elem_of_singleton in Hs0 as ->.
  apply run_seq_nonempty in Hrun as (s1 & Hs1 & Hrun).
  apply run_rep_rest in Hs1 as (k & [_ Hk] & Hrest). cbn [rest] in Hk, Hrest.
  apply run_seq_nonempty in Hrun as (s2 & Hs2 & _).
  assert (Halts : run isdecimal ic (alts (map text words)) s1 ≠ []).
  { intros Hnil. rewrite Hnil in Hs2. by apply elem_of_nil in Hs2. }
  apply run_alts_nonempty in Halts as (r & Hr & Hrun).
  apply list_elem_of_fmap in Hr as (w & -> & Hw).
  destruct (Hwords w Hw) as (c & w' & -> & Hc).
  apply run_text_cons in Hrun as (x & t & Hx & Hmatch).
  apply item_match_fold in Hmatch. exists x, t.
  assert (Hin : fold_case x ∈ firsts) by (by rewrite Hmatch).
  split; [|done]. apply (lstrip_skip k).
  - eapply Forall_impl; [exact (span_take _ _ _ _ _ _ Hk)|].
    cbn. intros y Hy. by rewrite orb_false_r in Hy.
  - by rewrite <- Hrest.
  - destruct (fold_case_inv x _ eq_refl) as [->|[Hup _]].
    + by apply Hfirsts.
    + by apply isspace_upper.
Qed.

Lemma noise_prefix_first n :
  matches true _NOISE_PREFIX_RE n = true →
  ∃ x t, lstrip n = x :: t ∧ fold_case x ∈ noise_firsts.
Proof.
  intros H%matches_run.
  apply (first_char_of_words true noise_words noise_firsts
           (Seq (alts [Chr space; text (lit ":"); Eol]) Eps)); [| |exact H].
  - intros w Hw. unfold noise_words in Hw.
    repeat (apply elem_of_cons in Hw as [->|Hw];
            [eexists _, _; split; [reflexivity|]; list_mem|]).
    by apply elem_of_nil in Hw.
  - intros y Hy. unfold noise_firsts in Hy.
    repeat (apply elem_of_cons in Hy as [->|Hy]; [reflexivity|]).
    by apply elem_of_nil in Hy.
Qed.

Lemma standalone_note_first n m :
  match_ isdecimal true _STANDALONE_NOTE_RE n = Some m →
  ∃ x t, lstrip n = x :: t ∧ fold_case x ∈ note_firsts.
Proof.
  intros H.
  assert (Hrun : run isdecimal true _STANDALONE_NOTE_RE (mk n true []) ≠ []).
  { unfold match_ in H. intros Hnil. by rewrite Hnil in H. }
  apply (first_char_of_words true
           [W_BEIZHU; W_ZHUJI; W_FUZHU; W_BEIZHU_SIMPLIFIED] note_firsts
           (seqs [ws; note_separator; Cap 1 (Rep CAny 1 None true); Eol]));
    [| |exact Hrun].
  - intros w Hw.
    repeat (apply elem_of_cons in Hw as [->|Hw];
            [eexists _, _; split; [reflexivity|]; list_mem|]).
    by apply elem_of_nil in Hw.
  - intros y Hy. unfold note_firsts in Hy.
    repeat (apply elem_of_cons in Hy as [->|Hy]; [reflexivity|]).
    by apply elem_of_nil in Hy.
Qed.

(** Every character of a separator line is one of [-=~_*#] or white
    space. *)
Lemma separator_first n x t :
  matches false _SEPARATOR_RE n = true → lstrip n = x :: t →
  isspace x = false → x ∈ lit "-=~_*#".
Proof.
  intros (s0 & Hs0 & Hrun)%matches_run%run_seq_nonempty Hstrip Hx.
  cbn in Hs0. apply list_elem_of_singleton in Hs0 as ->.
  apply run_seq_nonempty in Hrun as (s1 & Hs1 & Hrun).
  apply run_rep_rest in Hs1 as (k & [_ Hk] & Hrest). cbn [rest] in Hk, Hrest.
  apply run_seq_nonempty in Hrun as (s2 & Hs2 & _).
  pose proof (span_take _ _ _ _ _ _ Hk) as Hall.
  assert (Hn : ∀ y, y ∈ n → isspace y = true ∨ y ∈ lit "-=~_*#").
  { intros y Hy. rewrite <- (take_drop k n) in Hy.
    apply elem_of_app in Hy as [Hy|Hy].
    - rewrite Forall_forall in Hall. specialize (Hall y Hy).
      cbn [cls_match] in Hall. apply existsb_exists in Hall as (it & Hit & Hm).
      apply in_app_or in Hit as [Hit|[<-|[]]]; [|by left].
      apply in_map_iff in Hit as (c & <- & Hc). right.
      cbn in Hm. rewrite orb_false_r in Hm. apply N.eqb_eq in Hm as ->.
      by apply list_elem_of_In.
    - rewrite <- Hrest in Hy. cbn [Regex.run] in Hs2.
      destruct (rest s1) as [|c [|c' l]]; [by apply elem_of_nil in Hy| |].
      + destruct (N.eqb_spec c 10) as [->|]; [|by apply elem_of_nil in Hs2].
        apply list_elem_of_singleton in Hy as ->. by left.
      + by apply elem_of_nil in Hs2. }
  destruct (lstrip_suffix n) as [k' Hk'].
  assert (Hin : x ∈ n).
  { rewrite <- (take_drop k' n). apply elem_of_app. right.
    rewrite <- Hk', Hstrip. by left. }
  destruct (Hn x Hin) as [Hsp|Hsep]; [congruence|done].
Qed.

(** A line that starts with a word of [_NOISE_PREFIX_RE] is no separator
    line and no standalone note. *)
Lemma noise_prefix_not_separator n :
  matches true _NOISE_PREFIX_RE n = true →
  matches false _SEPARATOR_RE n = false.
Proof.
  intros (x & t & Hstrip & Hx)%noise_prefix_first.
  destruct (matches false _SEPARATOR_RE n) eqn:Hsep; [|done]. exfalso.
  assert (Hnsp : isspace x = false).
  { destruct (lstrip_head n) as [Hnil|(c & t' & Hc & Hsp)]; [congruence|].
    congruence. }
  pose proof (separator_first n x t Hsep Hstrip Hnsp) as Hin.
  revert Hx. apply list_elem_of_In in Hin. vm_compute in Hin.
  unfold noise_firsts. rewrite !elem_of_cons, elem_of_nil.
  repeat (destruct Hin as [<-|Hin]; [vm_compute; no_case|]).
  done.
Qed.

Lemma noise_prefix_not_standalone n :
  matches true _NOISE_PREFIX_RE n = true →
  match_ isdecimal true _STANDALONE_NOTE_RE n = None.
Proof.
  intros (x & t & Hstrip & Hx)%noise_prefix_first.
  destruct (match_ isdecimal true _STANDALONE_NOTE_RE n) as [m|] eqn:Hm;
    [|done]. exfalso.
  apply standalone_note_first in Hm as (x' & t' & Hstrip' & Hx').
  assert (x' = x) as -> by congruence.
  unfold noise_firsts in Hx. unfold note_firsts in Hx'.
  repeat (apply elem_of_cons in Hx as [Hx|Hx];
          [rewrite Hx in Hx'; revert Hx';
           rewrite !elem_of_cons, elem_of_nil; no_case|]).
  by apply elem_of_nil in Hx.
Qed.

Lemma noise_prefix_nonempty n :
  matches true _NOISE_PREFIX_RE n = true → nonempty n = true.
Proof.
  intros (x & t & Hstrip & _)%noise_prefix_first. by destruct n.
Qed.

(** [_parse_line] gives the line the index and the raw text it is
    given. *)
Lemma parse_line_key raw_line index parsed warnings :
  parse_line raw_line index = inr (parsed, warnings) →
  line_key parsed = (index, raw_line).
Proof.
  unfold _parse_line, exc_bind. cbv zeta.
  repeat case_match; intros [= <- <-]; reflexivity.
Qed.

Lemma parse_step_keys (state : parse_state) index line :
  map line_key (parse_step isdecimal py_int state index line).1.1
  = map line_key state.1.1 ++ option_list (kept (index, line)).
Proof.
  destruct state as [[lines warnings] errors].
  unfold parse_step, kept_line, is_item_line. cbn [fst snd]. cbv zeta.
  destruct (nonempty (_normalize_for_parse (rstrip_cr line))); cbn [negb orb andb];
    [|by rewrite app_nil_r].
  destruct (is_noise_line _); cbn [negb andb]; [by rewrite app_nil_r|].
  destruct (is_standalone_note (rstrip_cr line)) as [note|] eqn:Hnote.
  - rewrite bool_decide_eq_false_2 by done. cbn [option_list].
    rewrite app_nil_r. destruct (last lines) as [prev|] eqn:Hlast; [|done].
    cbn [fst]. rewrite <- (last_removelast lines prev Hlast) at 2.
    by rewrite !map_app.
  - rewrite bool_decide_eq_true_2 by done. cbn [option_list].
    destruct (parse_line (rstrip_cr line) index) as [message|[parsed ws]]
      eqn:Hparse; cbn [fst]; rewrite map_app; cbn [map]; [done|].
    by rewrite (parse_line_key _ _ _ _ Hparse).
Qed.

Lemma parse_loop_keys (state : parse_state) index lines :
  map line_key (parse_loop isdecimal py_int state index lines).1.1
  = map line_key state.1.1 ++ omap kept (enumerate_from index lines).
Proof.
  revert state index. induction lines as [|line lines IH]; intros state index.
  { cbn. by rewrite app_nil_r. }
  cbn [parse_loop enumerate_from]. rewrite IH, parse_step_keys.
  rewrite <- (assoc_L (++)). f_equal.
  change (omap kept ((index, line) :: ?l))
    with (match kept (index, line) with
          | Some y => y :: omap kept l
          | None => omap kept l
          end).
  by destruct (kept (index, line)).
Qed.

(** C8: the lines of the result are, in order and with their position in
    [text.splitlines()] as index, the lines that are not empty once
    normalized, not noise and no standalone note; a normalized line that
    matches a noise pattern is none of them, unless it starts with a
    metadata keyword and holds a quantity hint, and then it is one. *)
Theorem noise_dropped_without_reindexing (text : pystr) :
  map line_key
    (MergeValidate.OrderRawParsed.lines
       (parse_receipt_text isdecimal py_int text))
  = omap (fun il =>
            if item_line (rstrip_cr il.2) then Some (il.1, rstrip_cr il.2)
            else None)
      (enumerate_from 0 (splitlines text)) ∧
  ∀ raw_line,
    let normalized := _normalize_for_parse raw_line in
    let keyword_with_hint :=
      matches true _NOISE_PREFIX_RE normalized
      && found true _HAS_QTY_HINT_RE normalized in
    ((matches false _SEPARATOR_RE normalized
      || matches true _PHONE_ONLY_RE normalized
      || matches false _DATETIME_ONLY_RE normalized
      || matches true _NOISE_PREFIX_RE normalized)
     && negb keyword_with_hint = true →
     item_line raw_line = false) ∧
    (keyword_with_hint = true → item_line raw_line = true).
Proof.
  split.
  - unfold parse_receipt_text.
    pose proof (parse_loop_keys ([], [], []) 0 (splitlines text)) as H.
    destruct (parse_loop _ _ _ _ _) as [[lines warnings] errors].
    exact H.
  - intros raw_line. cbv zeta. unfold is_item_line, _is_noise_line. cbv zeta.
    set (n := _normalize_for_parse raw_line).
    destruct (matches true _NOISE_PREFIX_RE n) eqn:Hprefix.
    + rewrite (noise_prefix_nonempty _ Hprefix).
      rewrite (noise_prefix_not_separator _ Hprefix).
      unfold _is_standalone_note. cbv zeta. fold n.
      rewrite (noise_prefix_not_standalone _ Hprefix).
      rewrite bool_decide_eq_true_2 by done. cbn [negb orb andb].
      by destruct (found true _HAS_QTY_HINT_RE n),
        (matches true _PHONE_ONLY_RE n), (matches false _DATETIME_ONLY_RE n).
    + cbn [andb negb]. rewrite orb_false_r, andb_true_r. split; [|done].
      destruct (nonempty n); cbn [negb andb]; [|done].
      destruct (matches false _SEPARATOR_RE n); [done|].
      destruct (matches true _PHONE_ONLY_RE n); [done|].
      by destruct (matches false _DATETIME_ONLY_RE n).
Qed.

End Facts.
End ParserFacts.
